(** * marble_fx: a PS/2 trackball to USB HID bridge

    A shallow embedding of [marble_fx.ino]: the receive ring buffer
    ([Mousebuffer]), the clock-edge interrupt routine ([ps2_ISR]), the
    loop-side byte fetch ([mouse_ready], [mouse_read]), the PS2++ decoder
    ([ps2pp_decode]), the button mapping ([map_buttons]), the idle timer
    ([MyTimer]), the report handling of [loop], the transmitter
    ([mouse_write]), the setup of the device ([mouse_init],
    [ps2pp_write_magic_ping], [mouse_enable_report], [mouse_setup]) and
    the whole of [loop] at its port ([port_loop]).

    The older revision of the sketch that ships with it has the same
    interrupt routine, decoder and button mapping; its mailbox functions,
    its [mouse_read] and its idle nudges, which differ, are in the module
    [Legacy].  Everywhere else the model follows [marble_fx.ino].

    Machine integers are values of [Z]; every place where the AVR code
    narrows a value to 8, 16 or 32 bits is written out with one of the
    conversions below.  Pins, the millisecond clock and the USB suspend
    flag are inputs of the functions that read them; the bus is a list
    of the clock edges of each millisecond of waiting, and the waits of
    the transmitter take their outcomes from a list. *)

From Stdlib Require Import ZArith List Bool Lia.
From stdpp Require Import base list.
From Equations Require Import Equations.
Import ListNotations.
Local Open Scope Z_scope.

(** ** Machine integers *)

(** [uint8_t]: conversion keeps the low 8 bits. *)
Definition to_uint8 (z : Z) : Z := z mod 256.

(** [int8_t]: avr-gcc converts modulo 2^8 into [-128, 127]. *)
Definition to_int8 (z : Z) : Z := (z + 128) mod 256 - 128.

(** [int] is 16 bits wide on the AVR. *)
Definition to_int16 (z : Z) : Z := (z + 32768) mod 65536 - 32768.

(** [unsigned long] is 32 bits wide on the AVR. *)
Definition to_uint32 (z : Z) : Z := z mod 4294967296.

(** The value of a C condition [if (x)] on an integer. *)
Definition truthy (z : Z) : bool := negb (z =? 0).

(** ** The ring buffer for received bytes (class [Mousebuffer]) *)

Module Mousebuffer.

Definition MBUF_SIZE : Z := 16.

Record t : Type := mk { buf : list Z; head : Z; tail : Z }.

(** The global [mbuf]: static storage is zeroed, the constructor sets
    [head = tail = 0]. *)
Definition init : t := mk (replicate (Z.to_nat MBUF_SIZE) 0) 0 0.

(** [push]: [next = (head + 1) % MBUF_SIZE]; the byte is stored only if
    [next != tail].  A store at an index outside the array does not
    occur for [head < MBUF_SIZE]; the list update leaves the list alone
    there. *)
Definition push (data : Z) (m : t) : t :=
  let next := to_uint8 ((head m + 1) mod MBUF_SIZE) in
  if negb (next =? tail m)
  then mk (<[Z.to_nat (head m) := data]> (buf m)) next (tail m)
  else m.

(** [pull]: [ret = 0]; if [head != tail] then [ret = buf[tail++]] and
    [tail %= MBUF_SIZE]. *)
Definition pull (m : t) : Z * t :=
  if negb (head m =? tail m)
  then
    let ret := buf m !!! Z.to_nat (tail m) in
    let tail1 := to_uint8 (tail m + 1) in
    (ret, mk (buf m) (head m) (to_uint8 (tail1 mod MBUF_SIZE)))
  else (0, m).

Definition empty (m : t) : bool := head m =? tail m.

Definition reset (m : t) : t := mk (buf m) 0 0.

(** A run of pushes, first byte first. *)
Definition push_all (l : list Z) (m : t) : t :=
  fold_left (fun acc d => push d acc) l m.

(** [n] pulls in a row; the bytes returned, first pull first. *)
Fixpoint pull_n (n : nat) (m : t) : list Z * t :=
  match n with
  | O => ([], m)
  | S k =>
      let '(d, m1) := pull m in
      let '(ds, m2) := pull_n k m1 in
      (d :: ds, m2)
  end.

(** Indices stay inside the array. *)
Definition wf (m : t) : Prop :=
  0 <= head m < MBUF_SIZE /\ 0 <= tail m < MBUF_SIZE /\
  length (buf m) = Z.to_nat MBUF_SIZE.

(** Number of buffered bytes and the buffered bytes, oldest first. *)
Definition count (m : t) : nat := Z.to_nat ((head m - tail m) mod MBUF_SIZE).

Definition slot (m : t) (i : nat) : Z :=
  buf m !!! Z.to_nat ((tail m + Z.of_nat i) mod MBUF_SIZE).

Definition contents (m : t) : list Z := map (slot m) (seq 0 (count m)).

End Mousebuffer.

(** ** The idle timer (class [MyTimer]) *)

Module MyTimer.

Record t : Type := mk { start_time : Z; count : Z; enabled : bool }.

(** [MyTimer() { start_time = 0; count = 0; enabled = true; }] *)
Definition init : t := mk 0 0 true.

(** [reset]: [start_time = millis(); count = 0]. *)
Definition reset (millis : Z) (tm : t) : t := mk millis 0 (enabled tm).

Definition period : Z := 30000.

(** [now - start_time] in [unsigned long] arithmetic. *)
Definition since (now : Z) (tm : t) : Z := to_uint32 (now - start_time tm).

(** One pass through the body of the [while]: [count++; start_time += 30000]. *)
Definition tick (tm : t) : t :=
  mk (to_uint32 (start_time tm + period)) (to_int16 (count tm + 1)) (enabled tm).

(** [while (now - start_time >= 30000) { count++; start_time += 30000; }]
    The unsigned difference drops by 30000 on every pass, so the loop
    ends. *)
Equations catch_up (now : Z) (tm : t) : t by wf (Z.to_nat (since now tm)) lt :=
  catch_up now tm with Z_le_dec period (since now tm) => {
    | left _ => catch_up now (tick tm)
    | right _ => tm }.
Next Obligation.
  revert l. unfold since, tick, to_uint32, period; simpl. intros H.
  rewrite Zminus_mod_idemp_r.
  replace (now - (start_time tm + 30000)) with (now - start_time tm - 30000) by lia.
  rewrite <- Zminus_mod_idemp_l.
  pose proof (Z.mod_pos_bound (now - start_time tm) 4294967296 ltac:(lia)).
  rewrite (Z.mod_small ((now - start_time tm) mod 4294967296 - 30000)) by lia.
  lia.
Qed.

(** [action]: the result and the timer afterwards. *)
Definition action (millis : Z) (tm : t) : bool * t :=
  if negb (enabled tm) || (60 <? count tm) then (false, tm)
  else
    let now := millis in
    if since now tm <? period then (false, tm)
    else
      let tm' := catch_up now tm in
      (count tm' <? 60, tm').

End MyTimer.

(** ** Events handed to the USB HID mouse *)

Inductive hid_event : Type :=
| Move (x y wheel : Z)      (* [Mouse.move(x, y, wheel)] *)
| Press (b : Z)             (* [Mouse.press(b)] *)
| Release (b : Z).          (* [Mouse.release(b)] *)

(** ** Global variables *)

(** The statics of [ps2_ISR]. *)
Record isr_regs : Type := mkRegs { bit : Z; data : Z; parity : bool }.

Record state : Type := mkState {
  lefthanded : bool;
  xtrabutton : Z;
  buttons : list bool;
  scroll_sum : Z;
  internal_scrolling : bool;
  ps2_error : Z;
  mbuf : Mousebuffer.t;
  jiggletimer : MyTimer.t;
  isr : isr_regs
}.

Definition set_lefthanded (v : bool) (s : state) : state :=
  mkState v (xtrabutton s) (buttons s) (scroll_sum s) (internal_scrolling s)
          (ps2_error s) (mbuf s) (jiggletimer s) (isr s).
Definition set_xtrabutton (v : Z) (s : state) : state :=
  mkState (lefthanded s) v (buttons s) (scroll_sum s) (internal_scrolling s)
          (ps2_error s) (mbuf s) (jiggletimer s) (isr s).
Definition set_buttons (v : list bool) (s : state) : state :=
  mkState (lefthanded s) (xtrabutton s) v (scroll_sum s) (internal_scrolling s)
          (ps2_error s) (mbuf s) (jiggletimer s) (isr s).
Definition set_scroll_sum (v : Z) (s : state) : state :=
  mkState (lefthanded s) (xtrabutton s) (buttons s) v (internal_scrolling s)
          (ps2_error s) (mbuf s) (jiggletimer s) (isr s).
Definition set_internal_scrolling (v : bool) (s : state) : state :=
  mkState (lefthanded s) (xtrabutton s) (buttons s) (scroll_sum s) v
          (ps2_error s) (mbuf s) (jiggletimer s) (isr s).
Definition set_ps2_error (v : Z) (s : state) : state :=
  mkState (lefthanded s) (xtrabutton s) (buttons s) (scroll_sum s) (internal_scrolling s)
          v (mbuf s) (jiggletimer s) (isr s).
Definition set_mbuf (v : Mousebuffer.t) (s : state) : state :=
  mkState (lefthanded s) (xtrabutton s) (buttons s) (scroll_sum s) (internal_scrolling s)
          (ps2_error s) v (jiggletimer s) (isr s).
Definition set_jiggletimer (v : MyTimer.t) (s : state) : state :=
  mkState (lefthanded s) (xtrabutton s) (buttons s) (scroll_sum s) (internal_scrolling s)
          (ps2_error s) (mbuf s) v (isr s).
Definition set_isr (v : isr_regs) (s : state) : state :=
  mkState (lefthanded s) (xtrabutton s) (buttons s) (scroll_sum s) (internal_scrolling s)
          (ps2_error s) (mbuf s) (jiggletimer s) v.

(** The globals as initialised at program start. *)
Definition boot : state :=
  mkState false 0 [false; false; false; false] 0 true 0
          Mousebuffer.init MyTimer.init (mkRegs 0 0 false).

(** ** The interrupt routine on the falling clock edge *)

Definition NONE : Z := 0.
Definition START : Z := 1.
Definition BIT0 : Z := 2.
Definition BIT7 : Z := 9.
Definition PARITY : Z := 10.
Definition STOP : Z := 11.

(** The label [done]: [bit = NONE; data = 0; parity = false]. *)
Definition isr_done (s : state) : state := set_isr (mkRegs NONE 0 false) s.

(** The label [error]: [ps2_error = bit], then on to [done]. *)
Definition isr_error (b : Z) (s : state) : state := isr_done (set_ps2_error b s).

(** [ps2_ISR], with the levels of the two pins as it samples them. *)
Definition ps2_ISR (pin_CLK pin_DATA : bool) (s : state) : state :=
  if pin_CLK then s
  else
    let b := to_uint8 (bit (isr s) + 1) in
    let d := data (isr s) in
    let p := parity (isr s) in
    if b =? START then
      if pin_DATA then isr_error b s else set_isr (mkRegs b d p) s
    else if (BIT0 <=? b) && (b <=? BIT7) then
      let d1 := Z.shiftr d 1 in
      if pin_DATA
      then set_isr (mkRegs b (Z.lor d1 0x80) (xorb p true)) s
      else set_isr (mkRegs b d1 p) s
    else if b =? PARITY then
      if Bool.eqb pin_DATA p then isr_error b s else set_isr (mkRegs b d p) s
    else if b =? STOP then
      if negb pin_DATA then isr_error b s
      else isr_done (set_mbuf (Mousebuffer.push d (mbuf s)) (set_isr (mkRegs b d p) s))
    else isr_error b s.

(** The interrupts of a stretch of time: one [pin_DATA] sample for each
    falling edge, [pin_CLK] being low when the routine looks at it. *)
Definition run_isr (samples : list bool) (s : state) : state :=
  fold_left (fun acc d => ps2_ISR false d acc) samples s.

(** ** Fetching a byte in loop context *)

(** The loop of [mouse_ready]: [while (retry-- && mbuf.empty()) delay(1)].
    The interrupts that occur during the successive [delay(1)] calls are
    given as a list, one entry of samples for each call; past its end
    the bus is silent. *)
Fixpoint wait_ready (retry : nat) (bus : list (list bool)) (s : state)
  : state * list (list bool) :=
  match retry with
  | O => (s, bus)
  | S r =>
      if Mousebuffer.empty (mbuf s)
      then wait_ready r (List.tl bus) (run_isr (List.hd [] bus) s)
      else (s, bus)
  end.

(** [mouse_ready]: at most 200 waits of a millisecond. *)
Definition mouse_ready (bus : list (list bool)) (s : state)
  : bool * state * list (list bool) :=
  let '(s1, bus1) := wait_ready 200 bus s in
  (negb (Mousebuffer.empty (mbuf s1)), s1, bus1).

(** [mouse_read]: [if (mouse_ready()) return mbuf.pull(); return 0;] *)
Definition mouse_read (bus : list (list bool)) (s : state)
  : Z * state * list (list bool) :=
  let '(ready, s1, bus1) := mouse_ready bus s in
  if ready
  then let '(d, m) := Mousebuffer.pull (mbuf s1) in (d, set_mbuf m s1, bus1)
  else (0, s1, bus1).

(** ** The PS2++ decoder *)

Definition ps2pp_decode (b0 b1 b2 : Z) (s : state) : bool * state :=
  if negb (Z.land b0 0x48 =? 0x48) || negb (Z.land b1 0x02 =? 0x02)
  then (false, s)
  else
    if (Z.land b0 0x30 =? 0x0) && (Z.land b1 0xf0 =? 0xd0)
    then (true, set_xtrabutton (Z.land b2 0x30) s)
    else (true, s).

(** ** Button mapping *)

Definition bimask : list Z := [0x01; 0x02; 0x04; 0x10].
Definition bomask : list Z := [0x01; 0x02; 0x04; 0x08].

(** [map_buttons]; the global [lefthanded] is its first argument. *)
Definition map_buttons (lefthanded : bool) (mstat xtra : Z) : Z :=
  let ret := 0 in
  if negb lefthanded then
    let ret := Z.land mstat 0x07 in
    let ret := if truthy (Z.land xtra 0x20) then Z.lor ret 0x04 else ret in
    let ret := if truthy (Z.land xtra 0x10) then Z.lor ret 0x10 else ret in
    ret
  else
    let ret := if truthy (Z.land mstat 0x01) then 0x02 else ret in
    let ret := if truthy (Z.land mstat 0x02) then Z.lor ret 0x01 else ret in
    let ret := if truthy (Z.land xtra 0x10) then Z.lor ret 0x04 else ret in
    let ret := if truthy (Z.land xtra 0x20) then Z.lor ret 0x10 else ret in
    ret.

(** ** The main loop *)

(** [move(x, y, z)]: the arguments become [int8_t]; the event goes out
    and the idle timer restarts. *)
Definition move (millis : Z) (x y z : Z) (s : state) : state * list hid_event :=
  (set_jiggletimer (MyTimer.reset millis (jiggletimer s)) s,
   [Move (to_int8 x) (to_int8 y) (to_int8 z)]).

(** The branch taken while the red button is held and scrolling is
    handled internally. *)
Definition scroll_branch (millis : Z) (my : Z) (s : state) : state * list hid_event :=
  let scroll := to_int8 (Z.quot my 8) in
  let '(s1, scroll1) :=
    if negb (truthy scroll)
    then
      let s1 := set_scroll_sum (to_int8 (scroll_sum s + my)) s in
      (s1, to_int8 (Z.quot (scroll_sum s1) 8))
    else (s, scroll) in
  if negb (scroll1 =? 0)
  then move millis 0 0 scroll1 (set_scroll_sum 0 s1)
  else (s1, []).

(** The other branch: pointer motion with the vertical axis negated. *)
Definition move_branch (millis : Z) (mx my : Z) (s : state) : state * list hid_event :=
  let '(s1, ev) :=
    if negb (mx =? 0) || negb (my =? 0)
    then move millis mx (- my) 0 s
    else (s, []) in
  (set_scroll_sum 0 s1, ev).

(** One pass of the loop over [buttons]. *)
Definition button_step (btn : Z) (i : nat) (s : state) : state * list hid_event :=
  if internal_scrolling s && (i =? 3)%nat then (s, [])
  else
    let button := truthy (Z.land btn (bimask !!! i)) in
    let was := buttons s !!! i in
    let ev :=
      if negb was && button then [Press (bomask !!! i)]
      else if was && negb button then [Release (bomask !!! i)]
      else [] in
    (set_buttons (<[i := button]> (buttons s)) s, ev).

Definition handle_buttons (btn : Z) (s : state) : state * list hid_event :=
  fold_left
    (fun acc i => let '(s1, ev1) := button_step btn i (fst acc) in (s1, snd acc ++ ev1))
    [0%nat; 1%nat; 2%nat; 3%nat] (s, []).

(** How a stretch of [loop] ends: by [return], or by running on. *)
Inductive flow : Type := Return | Continue.

(** A report taken as motion: buttons mapped, the ball turned into wheel
    or pointer movement, button edges sent. *)
Definition report_motion (millis : Z) (mstat mx my : Z) (s : state)
  : state * list hid_event :=
  let btn := map_buttons (lefthanded s) mstat (xtrabutton s) in
  let redbutton := truthy (Z.land btn (bimask !!! 3%nat)) in
  let '(s2, ev2) :=
    if internal_scrolling s && redbutton
    then scroll_branch millis my s
    else move_branch millis mx my s in
  let '(s3, ev3) := handle_buttons btn s2 in
  (s3, ev2 ++ ev3).

(** What [loop] does with the three bytes of a report, up to the end of
    the [if (ret)] block. *)
Definition loop_report (millis : Z) (suspended : bool) (mstat b1 b2 : Z) (s : state)
  : flow * state * list hid_event :=
  let mx := to_int8 b1 in
  let my := to_int8 b2 in
  let '(ext, s1) := ps2pp_decode mstat (to_uint8 mx) (to_uint8 my) s in
  if ext || suspended then (Return, s1, [])
  else if truthy (Z.land mstat 0xC0) then (Return, set_ps2_error mstat s1, [])
  else
    let '(s3, ev) := report_motion millis mstat mx my s1 in
    (Continue, s3, ev).

(** The end of [loop]: the idle timer and its nudge. *)
Definition loop_jiggle (millis : Z) (suspended : bool) (s : state) : state * list hid_event :=
  let '(fire, tm) := MyTimer.action millis (jiggletimer s) in
  let s1 := set_jiggletimer tm s in
  if fire && negb suspended then (s1, [Move 1 0 0; Move (-1) 0 0]) else (s1, []).

(** What one call of [loop] reads from outside: the three switches, the
    clock (taken once per call), the USB suspend flag, and the report the
    mailbox delivered, if [mouse_ready] found one. *)
Record inputs : Type := mkInputs {
  pin_SCROLL : bool;
  pin_JIGGLE : bool;
  pin_LEFTHAND : bool;
  millis : Z;
  suspended : bool;
  report : option (Z * Z * Z)
}.

(** [loop] as the host sees it: what a call sends and what it leaves
    in the globals of the report handling, given the report that
    [mouse_ready] and the reads after it delivered.  The port side of
    the call (the recovery with [mouse_setup], the heartbeat, the
    fetching of the report from the mailbox) is in [port_loop] further
    down, where it is shown that [port_loop] sends what this function
    sends and leaves the same in every global but
    [ps2_error], the mailbox and the statics of the interrupt routine.
    Of these three this function keeps only the reset at the top and
    the overflow code; what they hold after a call is told by
    [port_loop]. *)
Definition loop (i : inputs) (s : state) : state * list hid_event :=
  let s := set_internal_scrolling (pin_SCROLL i) s in
  let s := set_jiggletimer
             (MyTimer.mk (MyTimer.start_time (jiggletimer s))
                         (MyTimer.count (jiggletimer s)) (pin_JIGGLE i)) s in
  let s := set_lefthanded (negb (pin_LEFTHAND i)) s in
  let s := if truthy (ps2_error s)
           then set_mbuf (Mousebuffer.reset (mbuf s)) (set_ps2_error 0 s)
           else s in
  match report i with
  | Some (mstat, b1, b2) =>
      match loop_report (millis i) (suspended i) mstat b1 b2 s with
      | (Return, s1, ev1) => (s1, ev1)
      | (Continue, s1, ev1) =>
          let '(s2, ev2) := loop_jiggle (millis i) (suspended i) s1 in
          (s2, ev1 ++ ev2)
      end
  | None => loop_jiggle (millis i) (suspended i) s
  end.

(** A run of [loop] calls and everything it sends to the host. *)
Fixpoint run_loop (ins : list inputs) (s : state) : state * list hid_event :=
  match ins with
  | [] => (s, [])
  | i :: rest =>
      let '(s1, ev1) := loop i s in
      let '(s2, ev2) := run_loop rest s1 in
      (s2, ev1 ++ ev2)
  end.

(** ** Vocabulary of the properties *)

(** *** Frames on the wire *)

(** A bit as the value of its position. *)
Definition bitval (c : bool) (m : Z) : Z := if c then m else 0.

(** The eight data bits of a byte, least significant first. *)
Definition bits_of_byte (b : Z) : list bool :=
  map (fun i => Z.testbit b (Z.of_nat i)) (seq 0 8).

(** The byte spelled by a list of bits, least significant first. *)
Definition byte_of_bits (d : list bool) : Z :=
  fold_right (fun b acc => bitval b 1 + 2 * acc) 0 d.

Fixpoint ones (l : list bool) : nat :=
  match l with
  | [] => 0
  | b :: r => (if b then 1 else 0) + ones r
  end.

(** Odd parity: data bits and parity bit together hold an odd number of ones. *)
Definition odd_parity_bit (d : list bool) : bool := Nat.even (ones d).

Definition frame (start : bool) (d : list bool) (par stop : bool) : list bool :=
  start :: d ++ [par; stop].

(** The frame that carries the byte 0x00. *)
Definition zero_frame : list bool :=
  frame false (bits_of_byte 0) (odd_parity_bit (bits_of_byte 0)) true.

(** The receiver between frames. *)
Definition idle (s : state) : Prop := isr s = mkRegs NONE 0 false.

(** *** Logical button sets *)

(** Left (0x01) and right (0x02) exchanged, middle (0x04) and scroll
    (0x10) exchanged. *)
Definition swap_roles (b : Z) : Z :=
  Z.lor (Z.lor (bitval (Z.testbit b 1) 0x01) (bitval (Z.testbit b 0) 0x02))
        (Z.lor (bitval (Z.testbit b 4) 0x04) (bitval (Z.testbit b 2) 0x10)).

(** What the exchange property says of one pair of raw inputs, as a test:
    without the primary middle bit the swapped mapping is the exchanged
    plain mapping, and exchanging twice gives back either mapping. *)
Definition swap_test (mstat xtra : Z) : bool :=
  implb (Z.land mstat 0x04 =? 0)
        (map_buttons true mstat xtra =? swap_roles (map_buttons false mstat xtra))
  && (swap_roles (swap_roles (map_buttons true mstat xtra)) =? map_buttons true mstat xtra)
  && (swap_roles (swap_roles (map_buttons false mstat xtra)) =? map_buttons false mstat xtra).

(** *** Reports *)

Definition byte (z : Z) : Prop := 0 <= z < 256.

(** The tag pattern of a PS2++ packet, and the subtype that carries the
    extra buttons. *)
Definition tagged (b0 b1 : Z) : bool :=
  (Z.land b0 0x48 =? 0x48) && (Z.land b1 0x02 =? 0x02).

Definition xtra_subtype (b0 b1 : Z) : bool :=
  (Z.land b0 0x30 =? 0x0) && (Z.land b1 0xf0 =? 0xd0).

(** The red (scroll) button as the mapping sees it in state [s]. *)
Definition red_held (s : state) (mstat : Z) : bool :=
  truthy (Z.land (map_buttons (lefthanded s) mstat (xtrabutton s)) 0x10).

(** A report the loop hands to the scroll emulation: three bytes, no tag,
    no overflow bit, red button held. *)
Definition scroll_report (s : state) (r : Z * (Z * Z * Z)) : Prop :=
  let '(_, (mstat, b1, b2)) := r in
  byte mstat /\ byte b1 /\ byte b2 /\
  tagged mstat b1 = false /\ Z.land mstat 0xC0 = 0 /\ red_held s mstat = true.

Definition delta_y (r : Z * (Z * Z * Z)) : Z := to_int8 (snd (snd r)).

(** A run of reports, each with the clock at its arrival. *)
Fixpoint run_reports (suspended : bool) (rs : list (Z * (Z * Z * Z))) (s : state)
  : state * list hid_event :=
  match rs with
  | [] => (s, [])
  | (now, (mstat, b1, b2)) :: rest =>
      let '(_, s1, ev1) := loop_report now suspended mstat b1 b2 s in
      let '(s2, ev2) := run_reports suspended rest s1 in
      (s2, ev1 ++ ev2)
  end.

(** The delta a byte of a report stands for, read as two's complement:
    bytes up to 0x7F are themselves, bytes from 0x80 on are negative. *)
Definition signed_byte (b : Z) : Z := if b <? 0x80 then b else b - 0x100.

Definition is_move (e : hid_event) : bool :=
  match e with Move _ _ _ => true | _ => false end.

Definition moves (ev : list hid_event) : list hid_event := List.filter is_move ev.

(** The wheel ticks of a run of vertical deltas, in the words of the
    description: the delta divided by 8, else the delta is added to the
    accumulator and that is divided by 8; a tick that is not zero goes
    out and clears the accumulator. *)
Fixpoint scroll_ticks (acc : Z) (dys : list Z) : list Z :=
  match dys with
  | [] => []
  | d :: rest =>
      if negb (Z.quot d 8 =? 0) then Z.quot d 8 :: scroll_ticks 0 rest
      else
        let a := acc + d in
        if negb (Z.quot a 8 =? 0) then Z.quot a 8 :: scroll_ticks 0 rest
        else scroll_ticks a rest
  end.

(** A wheel movement. *)
Definition wheel (z : Z) : hid_event := Move 0 0 z.

(** The globals at start with the red button reported held, and four
    reports with a vertical delta of 6 each under it. *)
Definition red_state : state := set_xtrabutton 0x10 boot.

Definition four_sixes : list (Z * (Z * Z * Z)) :=
  [(0, (0x08, 0, 6)); (10, (0x08, 0, 6)); (20, (0x08, 0, 6)); (30, (0x08, 0, 6))].

(** *** Idle runs *)

Definition nudge : list hid_event := [Move 1 0 0; Move (-1) 0 0].

(** Total displacement of a list of events. *)
Fixpoint net (ev : list hid_event) : Z * Z * Z :=
  match ev with
  | [] => (0, 0, 0)
  | Move x y w :: r => let '(a, b, c) := net r in (x + a, y + b, w + c)
  | _ :: r => net r
  end.

(** Elapsed times of successive [loop] calls: each less than a period
    after the one before. *)
Fixpoint paced (prev : Z) (ts : list Z) : Prop :=
  match ts with
  | [] => True
  | t :: r => prev <= t < prev + MyTimer.period /\ paced t r
  end.

(** Nudges due after [e] milliseconds without a real event: one for each
    period gone by, 59 at most. *)
Definition nudges_due (e : Z) : Z := Z.min (e / MyTimer.period) 59.

(** A report that carries no movement: both deltas zero, whatever
    buttons its status byte holds, or a PS2++ packet. *)
Definition motionless (r : Z * Z * Z) : Prop :=
  let '(mstat, b1, b2) := r in
  (b1 = 0 /\ b2 = 0) \/ (byte b1 /\ byte b2 /\ tagged mstat b1 = true).

(** A call of [loop] in a stretch without movement: the host awake and
    the report, if there is one, motionless. *)
Definition still (i : inputs) : Prop :=
  suspended i = false
  /\ match report i with None => True | Some r => motionless r end.

(** Whether such a call polls the idle timer: the jiggle switch is on
    and the call gets as far as the timer, which it does not when the
    report is a PS2++ packet or has an overflow bit set. *)
Definition polls (i : inputs) : bool :=
  pin_JIGGLE i &&
  match report i with
  | None => true
  | Some (mstat, b1, _) => negb (tagged mstat b1) && (Z.land mstat 0xC0 =? 0)
  end.

(** The clock of a call [t] milliseconds after it showed [t0]. *)
Definition at_elapsed (t0 : Z) (i : inputs) (t : Z) : Prop :=
  millis i = to_uint32 (t0 + t).

(** Elapsed times of successive polls: in order, and while the timer
    has not run out none so late that [count], an [int], would
    overflow. *)
Fixpoint in_order (prev : Z) (ts : list Z) : Prop :=
  match ts with
  | [] => True
  | t :: r =>
      prev <= t
      /\ (prev / MyTimer.period <= 60 -> t < MyTimer.period * 32000)
      /\ in_order t r
  end.

(** The polls that find a threshold newly passed, one of the first 59:
    the number of nudges that are due on them. *)
Fixpoint thresholds_met (prev : Z) (ts : list Z) : nat :=
  match ts with
  | [] => 0
  | t :: r =>
      Nat.add
        (if (prev / MyTimer.period <? t / MyTimer.period) && (t / MyTimer.period <? 60)
         then 1%nat else 0%nat)
        (thresholds_met t r)
  end.

(** The idle timer as the polls leave it when the last of them came
    [e] milliseconds after the movement that restarted it at clock
    [t0]: [count] is the number of periods gone by and [start_time] has
    moved on by as many, or the timer has run out. *)
Definition timer_after (t0 e : Z) (tm : MyTimer.t) : Prop :=
  (MyTimer.count tm = e / MyTimer.period /\ MyTimer.count tm <= 60
   /\ to_uint32 (MyTimer.start_time tm)
      = to_uint32 (t0 + MyTimer.period * MyTimer.count tm))
  \/ (60 < MyTimer.count tm /\ 60 < e / MyTimer.period).

(** Sample runs.  A report that moves the pointer when the clock shows
    1000; then a poll, the left button pressed 29 s after the movement,
    a PS2++ packet, and two more polls. *)
Definition moving_input : inputs :=
  mkInputs true true true 1000 false (Some (0x08, 1, 0)).

Definition idle_inputs : list inputs :=
  [mkInputs true true true 11000 false None;
   mkInputs true true true 30000 false (Some (0x09, 0, 0));
   mkInputs true true true 36000 false None;
   mkInputs true true true 40000 false (Some (0x48, 0xD2, 0x10));
   mkInputs true true true 62000 false None].

Definition idle_times : list Z := [10000; 29000; 35000; 61000].

(** A movement, the left button pressed 29 s later, and a call with
    nothing to read one second after that. *)
Definition button_then_wait : list inputs :=
  [mkInputs true true true 0 false (Some (0x08, 1, 0));
   mkInputs true true true 29000 false (Some (0x09, 0, 0));
   mkInputs true true true 30000 false None].

(** ** Runs of mailbox operations *)

Inductive mbuf_op : Type :=
| Push (d : Z)
| Pull.

(** A run of pushes and pulls; the bytes the pulls return, in order. *)
Fixpoint run_ops (ops : list mbuf_op) (m : Mousebuffer.t) : list Z * Mousebuffer.t :=
  match ops with
  | [] => ([], m)
  | Push d :: rest => run_ops rest (Mousebuffer.push d m)
  | Pull :: rest =>
      let '(x, m1) := Mousebuffer.pull m in
      let '(out, m2) := run_ops rest m1 in
      (x :: out, m2)
  end.

(** The same run on a plain queue of at most fifteen bytes: a push onto
    a full queue is dropped, a pull from an empty queue yields 0. *)
Fixpoint queue_ops (ops : list mbuf_op) (q : list Z) : list Z * list Z :=
  match ops with
  | [] => ([], q)
  | Push d :: rest => queue_ops rest (if (length q <? 15)%nat then q ++ [d] else q)
  | Pull :: rest =>
      let '(out, q2) := queue_ops rest (List.tl q) in
      (List.hd 0 q :: out, q2)
  end.

(** ** Runs of clock edges *)

(** The interrupts of a stretch of time with both pins as sampled:
    [(pin_CLK, pin_DATA)] for each call of the routine. *)
Definition run_edges (es : list (bool * bool)) (s : state) : state :=
  fold_left (fun acc e => ps2_ISR (fst e) (snd e) acc) es s.

(** The data samples of the edges that found the clock low. *)
Definition low_samples (es : list (bool * bool)) : list bool :=
  map snd (List.filter (fun e => negb (fst e)) es).

(** The frame of a byte: start 0, data least significant first, odd
    parity, stop 1. *)
Definition frame_of_byte (b : Z) : list bool :=
  frame false (bits_of_byte b) (odd_parity_bit (bits_of_byte b)) true.

(** What holds of the receiver whenever the routine is not running: the
    counter is short of the stop position, the accumulator is a byte and
    the mailbox indices are in range. *)
Definition isr_ok (s : state) : Prop :=
  0 <= bit (isr s) < STOP /\ byte (data (isr s)) /\ Mousebuffer.wf (mbuf s).

(** ** Button edges *)

(** What the pass over [buttons] sends for one button: a press when it
    goes down, a release when it comes up. *)
Definition edge (was now : bool) (mask : Z) : list hid_event :=
  if negb was && now then [Press mask]
  else if was && negb now then [Release mask]
  else [].

(** The events of a list that are not movements. *)
Definition clicks (ev : list hid_event) : list hid_event :=
  List.filter (fun e => negb (is_move e)) ev.

(** Bit [i] of the mapped button set. *)
Definition mapped (btn : Z) (i : nat) : bool := truthy (Z.land btn (bimask !!! i)).

(** What the comment above [map_buttons] says of one pair of raw inputs,
    as a test on the bits of both results. *)
Definition map_test (mstat xtra : Z) : bool :=
  let r := map_buttons false mstat xtra in
  let l := map_buttons true mstat xtra in
  (Z.land r 0x17 =? r) && (Z.land l 0x17 =? l)
  && Bool.eqb (Z.testbit r 0) (Z.testbit mstat 0)
  && Bool.eqb (Z.testbit r 1) (Z.testbit mstat 1)
  && Bool.eqb (Z.testbit r 2) (Z.testbit mstat 2 || Z.testbit xtra 5)
  && Bool.eqb (Z.testbit r 4) (Z.testbit xtra 4)
  && Bool.eqb (Z.testbit l 0) (Z.testbit mstat 1)
  && Bool.eqb (Z.testbit l 1) (Z.testbit mstat 0)
  && Bool.eqb (Z.testbit l 2) (Z.testbit xtra 4)
  && Bool.eqb (Z.testbit l 4) (Z.testbit xtra 5).

(** A button event for the red button (button 8). *)
Definition red_click (e : hid_event) : bool :=
  match e with
  | Press m | Release m => m =? 0x08
  | Move _ _ _ => false
  end.

(** ** Runs of timer polls *)

(** Successive calls of [action] at the given clock values; the results
    and the timer at the end. *)
Fixpoint poll_run (nows : list Z) (tm : MyTimer.t) : list bool * MyTimer.t :=
  match nows with
  | [] => ([], tm)
  | now :: rest =>
      let '(f, tm1) := MyTimer.action now tm in
      let '(fs, tm2) := poll_run rest tm1 in
      (f :: fs, tm2)
  end.

(** No poll of the run finds the timer so far behind that [count], an
    [int], would overflow. *)
Fixpoint timely (nows : list Z) (tm : MyTimer.t) : Prop :=
  match nows with
  | [] => True
  | now :: rest =>
      MyTimer.since now tm < MyTimer.period * 32000
      /\ timely rest (snd (MyTimer.action now tm))
  end.

(** The heartbeat test of [loop]: [if (heartbeat.action()) { heartbeat.reset(); ... }],
    with the clock as [action] reads it and as [reset] reads it after. *)
Definition heartbeat_poll (clk : Z * Z) (hb : MyTimer.t) : bool * MyTimer.t :=
  let '(f, hb1) := MyTimer.action (fst clk) hb in
  if f then (true, MyTimer.reset (snd clk) hb1) else (false, hb1).

Fixpoint heartbeat_run (clks : list (Z * Z)) (hb : MyTimer.t) : list bool * MyTimer.t :=
  match clks with
  | [] => ([], hb)
  | c :: rest =>
      let '(f, hb1) := heartbeat_poll c hb in
      let '(fs, hb2) := heartbeat_run rest hb1 in
      (f :: fs, hb2)
  end.

(** Every poll of the run comes less than sixty periods after the
    heartbeat's start time. *)
Fixpoint half_hourly (clks : list (Z * Z)) (hb : MyTimer.t) : Prop :=
  match clks with
  | [] => True
  | c :: rest =>
      MyTimer.since (fst c) hb < MyTimer.period * 60
      /\ half_hourly rest (snd (heartbeat_poll c hb))
  end.

(** Whether each poll of a heartbeat run finds a full period gone by. *)
Fixpoint periods_due (clks : list (Z * Z)) (hb : MyTimer.t) : list bool :=
  match clks with
  | [] => []
  | c :: rest =>
      (MyTimer.period <=? MyTimer.since (fst c) hb)
        :: periods_due rest (snd (heartbeat_poll c hb))
  end.

(** Sample clock edges: the frames of 0x08 and 0x05, with one bounce
    that finds the clock high in between. *)
Definition sample_edges : list (bool * bool) :=
  map (fun d => (false, d)) (frame_of_byte 0x08)
  ++ (true, false) :: map (fun d => (false, d)) (frame_of_byte 0x05).

(** ** The transmitter *)

(** What [mouse_write] does to the bus, as a log: the level a pin is set
    to ([true] is released to the pull-up, [false] is driven low) and the
    microsecond delays. *)
Inductive pin_op : Type :=
| SetData (level : bool)
| SetClk (level : bool)
| DelayUs (n : Z).

(** The globals together with what the sketch does outside of them:
    whether [ps2_ISR] is attached to the clock interrupt, and the log of
    pin operations, oldest first. *)
Record wire : Type := mkWire {
  core : state;
  attached : bool;
  pinlog : list pin_op
}.

(** A stretch of [mouse_write]: it works on the wire, uses up the
    outcomes of its waits, and either runs to its end or leaves by
    [goto error].  Each [loop_while] takes one outcome from the list:
    [true] when the awaited level came before the deadline, [false]
    when [SendTimeout.elapsed()] came first; past the end of the list
    every wait times out. *)
Definition tx (A : Type) : Type := wire -> list bool -> option A * wire * list bool.

Definition tx_ret {A : Type} (a : A) : tx A := fun w ws => (Some a, w, ws).

Definition tx_bind {A B : Type} (m : tx A) (k : A -> tx B) : tx B :=
  fun w ws =>
    match m w ws with
    | (Some a, w1, ws1) => k a w1 ws1
    | (None, w1, ws1) => (None, w1, ws1)
    end.

Notation "x <- m ;; k" := (tx_bind m (fun x => k))
  (at level 200, m at level 99, k at level 200, only parsing).
Notation "m ;;; k" := (tx_bind m (fun _ => k))
  (at level 200, k at level 200, only parsing).

Definition pin (o : pin_op) : tx unit :=
  fun w ws => (Some tt, mkWire (core w) (attached w) (pinlog w ++ [o]), ws).

(** [loop_while(COND)]. *)
Definition loop_while : tx unit :=
  fun w ws =>
    match ws with
    | true :: rest => (Some tt, w, rest)
    | false :: rest => (None, w, rest)
    | [] => (None, w, [])
    end.

(** [bus_idle] and [bus_stop]. *)
Definition bus_idle : tx unit := pin (SetData true) ;;; pin (SetClk true).
Definition bus_stop : tx unit := pin (SetClk false) ;;; pin (SetData true).

(** [send_bit(LEVEL)]: set the data line, wait for the clock to go high
    and low again. *)
Definition send_bit (level : bool) : tx unit :=
  pin (SetData level) ;;; loop_while ;;; loop_while.

(** The [for] loop of [mouse_write]: [i] bits to go; the parity at its end. *)
Fixpoint send_bits (i : nat) (data parity : Z) : tx Z :=
  match i with
  | O => tx_ret parity
  | S n =>
      send_bit (truthy (Z.land data 1)) ;;;
      send_bits n (Z.shiftr data 1) (Z.lxor parity (Z.land data 0x01))
  end.

(** [mouse_write] from the first pin operation to [return]. *)
Definition mouse_write_body (data : Z) : tx unit :=
  bus_idle ;;;
  pin (DelayUs 300) ;;;
  pin (SetClk false) ;;;
  pin (DelayUs 300) ;;;
  pin (SetData false) ;;;
  pin (DelayUs 10) ;;;
  pin (SetClk true) ;;;
  pin (DelayUs 10) ;;;
  loop_while ;;;
  parity <- send_bits 8 data 1 ;;
  send_bit (truthy parity) ;;;
  pin (SetData true) ;;;
  pin (DelayUs 50) ;;;
  loop_while ;;;
  loop_while ;;;
  bus_idle ;;;
  pin (DelayUs 10).

Definition set_core (c : state) (w : wire) : wire := mkWire c (attached w) (pinlog w).
Definition set_attached (a : bool) (w : wire) : wire := mkWire (core w) a (pinlog w).

(** [mouse_write]: the interrupt is detached first; at the end it is
    attached again, or, after a timeout, the bus is stopped and
    [ps2_error = 0x10]. *)
Definition mouse_write (data : Z) (w : wire) (ws : list bool) : wire * list bool :=
  match mouse_write_body (to_uint8 data) (set_attached false w) ws with
  | (Some _, w1, ws1) => (set_attached true w1, ws1)
  | (None, w1, ws1) =>
      match bus_stop w1 ws1 with
      | (_, w2, ws2) => (set_core (set_ps2_error 0x10 (core w2)) w2, ws2)
      end
  end.

(** The levels the data line was set to, in order. *)
Fixpoint data_levels (l : list pin_op) : list bool :=
  match l with
  | [] => []
  | SetData b :: r => b :: data_levels r
  | _ :: r => data_levels r
  end.

(** The bits the [for] loop puts on the data line and the parity it
    arrives at, as plain functions of the byte. *)
Fixpoint tx_levels (i : nat) (data : Z) : list bool :=
  match i with
  | O => []
  | S n => truthy (Z.land data 1) :: tx_levels n (Z.shiftr data 1)
  end.

Fixpoint tx_parity (i : nat) (data parity : Z) : Z :=
  match i with
  | O => parity
  | S n => tx_parity n (Z.shiftr data 1) (Z.lxor parity (Z.land data 0x01))
  end.

(** A stretch that makes [n] waits and touches nothing but the log: it
    runs through when the next [n] outcomes are all [true], and leaves
    by the error exit otherwise. *)
Definition waits_exactly {A : Type} (n : nat) (m : tx A) : Prop :=
  forall w ws,
    core (snd (fst (m w ws))) = core w
    /\ attached (snd (fst (m w ws))) = attached w
    /\ (exists l, pinlog (snd (fst (m w ws))) = pinlog w ++ l)
    /\ (firstn n ws = repeat true n ->
        fst (fst (m w ws)) <> None /\ snd (m w ws) = skipn n ws)
    /\ (firstn n ws <> repeat true n -> fst (fst (m w ws)) = None).

(** The frame [mouse_write] puts on the data line for a byte, on the
    receiver's terms. *)
Definition tx_frame (d : Z) : list bool :=
  false :: tx_levels 8 d ++ [truthy (tx_parity 8 d 1); true].

(** ** Setting the device up *)

(** The sketch at its PS/2 port: the wire, the outcomes of the waits of
    the writes still to come, and the bus traffic of the milliseconds
    still to come (one entry for each [delay(1)], as in [mouse_ready]). *)
Record port : Type := mkPort {
  hw : wire;
  outcomes : list bool;
  traffic : list (list bool)
}.

Definition port_pins (m : tx unit) (p : port) : port :=
  let '(_, w1, ws1) := m (hw p) (outcomes p) in mkPort w1 ws1 (traffic p).

Definition port_write (d : Z) (p : port) : port :=
  let '(w1, ws1) := mouse_write d (hw p) (outcomes p) in
  mkPort w1 ws1 (traffic p).

(** One millisecond of [delay]: the clock edges of that millisecond
    reach [ps2_ISR] while it is attached and are lost otherwise. *)
Definition port_tick (p : port) : port :=
  mkPort (if attached (hw p)
          then set_core (run_isr (List.hd [] (traffic p)) (core (hw p))) (hw p)
          else hw p)
         (outcomes p) (List.tl (traffic p)).

Fixpoint port_delay (ms : nat) (p : port) : port :=
  match ms with
  | O => p
  | S k => port_delay k (port_tick p)
  end.

Fixpoint port_wait_ready (retry : nat) (p : port) : port :=
  match retry with
  | O => p
  | S r =>
      if Mousebuffer.empty (mbuf (core (hw p)))
      then port_wait_ready r (port_tick p)
      else p
  end.

(** [mouse_read] at the port. *)
Definition port_read (p : port) : Z * port :=
  let p1 := port_wait_ready 200 p in
  if negb (Mousebuffer.empty (mbuf (core (hw p1))))
  then let '(d, m) := Mousebuffer.pull (mbuf (core (hw p1))) in
       (d, mkPort (set_core (set_mbuf m (core (hw p1))) (hw p1))
                  (outcomes p1) (traffic p1))
  else (0, p1).

Definition PS2_RESET : Z := 0xFF.
Definition PS2_REPORT_ENA : Z := 0xF4.
Definition PS2_SET_REMOTE : Z := 0xF0.

Definition mouse_init (stream_mode : bool) (p : port) : port :=
  let p := port_pins bus_idle p in
  let p := port_delay 250 p in
  let p := port_write PS2_RESET p in
  let p := snd (port_read p) in
  let p := port_delay 400 p in
  let p := snd (port_read p) in
  let p := snd (port_read p) in
  if negb stream_mode
  then
    let p := port_write PS2_SET_REMOTE p in
    let p := snd (port_read p) in
    port_pins (pin (DelayUs 100)) p
  else p.

Definition mouse_enable_report (p : port) : port :=
  let p := port_write PS2_REPORT_ENA p in
  let p := snd (port_read p) in
  port_pins (pin (DelayUs 100)) p.

Definition magic : list Z :=
  [0xe8; 0x00; 0xe8; 0x03; 0xe8; 0x02; 0xe8; 0x01; 0xe6;
   0xe8; 0x03; 0xe8; 0x01; 0xe8; 0x02; 0xe8; 0x03].

Definition ps2pp_write_magic_ping (p : port) : port :=
  fold_left (fun p d => port_write d p) magic p.

Definition mouse_setup (stream_mode : bool) (p : port) : port :=
  let p := mouse_init stream_mode p in
  let p := ps2pp_write_magic_ping p in
  if stream_mode then mouse_enable_report p else p.

(** The error recovery at the top of [loop]. *)
Definition loop_recover (stream_mode : bool) (p : port) : port :=
  if truthy (ps2_error (core (hw p)))
  then
    let p := mkPort (set_attached false (hw p)) (outcomes p) (traffic p) in
    let p := port_pins bus_stop p in
    let c := core (hw p) in
    let c := set_mbuf (Mousebuffer.reset (mbuf c)) (set_ps2_error 0 c) in
    mouse_setup stream_mode (mkPort (set_core c (hw p)) (outcomes p) (traffic p))
  else p.

(** The bytes [mouse_setup] writes. *)
Definition setup_bytes (stream_mode : bool) : list Z :=
  [PS2_RESET] ++ (if stream_mode then [] else [PS2_SET_REMOTE])
  ++ magic ++ (if stream_mode then [PS2_REPORT_ENA] else []).

(** What a run of complete writes leaves in the log of the data line. *)
Definition written (l : list Z) : list bool :=
  concat (map (fun d => true :: frame_of_byte (to_uint8 d) ++ [true]) l).

(** Traffic in which every millisecond is silent or carries one
    well-formed frame. *)
Definition clean (bus : list (list bool)) : Prop :=
  Forall (fun e => e = [] \/ exists b, byte b /\ e = frame_of_byte b) bus.

(** What a stretch of the setup did at the port from [p] to [p']: the
    receiver is in order, and, if no error is flagged at its end, none
    was at its start, the data line was set to [lv], and the interrupt
    is attached if the stretch wrote a byte ([wr]) and as before if not. *)
Definition wrote (lv : list bool) (wr : bool) (p p' : port) : Prop :=
  isr_ok (core (hw p'))
  /\ (ps2_error (core (hw p')) = 0 ->
      ps2_error (core (hw p)) = 0
      /\ attached (hw p') = (if wr then true else attached (hw p))
      /\ exists o, pinlog (hw p') = pinlog (hw p) ++ o /\ data_levels o = lv).

(** What the setup relies on when the device behaves: the receiver
    between frames, no error flagged, well-formed traffic ahead. *)
Definition calm (p : port) : Prop :=
  idle (core (hw p)) /\ ps2_error (core (hw p)) = 0 /\ clean (traffic p).

Definition silent (bus : list (list bool)) : Prop := Forall (fun e => e = []) bus.

(** The next [n] writes find each of their 21 waits answered in time. *)
Definition answered (n : nat) (p : port) : Prop :=
  firstn (21 * n) (outcomes p) = repeat true (21 * n).

(** A port to try the setup on: the globals as at reset, nothing
    attached, every wait answered, and a device that acknowledges the
    reset after 250 ms and is silent otherwise. *)
Definition fresh_port : port :=
  mkPort (mkWire boot false []) (repeat true 399)
         (repeat [] 250 ++ [frame_of_byte 0xFA]).

(** A port whose mailbox is empty, with silence ahead and the next [m]
    writes answered. *)
Definition waiting (m : nat) (p : port) : Prop :=
  Mousebuffer.empty (mbuf (core (hw p))) = true
  /\ silent (traffic p) /\ answered m p.

(** From [p] to [p'] the globals stayed as they were, [k] milliseconds
    of traffic and the waits of [n] writes were used up, and the
    interrupt is attached if a byte was written ([wr]). *)
Definition took (k n : nat) (wr : bool) (p p' : port) : Prop :=
  core (hw p') = core (hw p)
  /\ attached (hw p') = (if wr then true else attached (hw p))
  /\ traffic p' = skipn k (traffic p)
  /\ outcomes p' = skipn (21 * n) (outcomes p).

(** ** The whole of [loop] *)

(** The sketch: its port and the heartbeat timer, the one global that
    neither the port nor the report handling holds. *)
Record sketch : Type := mkSketch { at_port : port; heartbeat : MyTimer.t }.

Definition PS2_READ_DATA : Z := 0xEB.
Definition PS2_STATUS : Z := 0xE9.

Definition set_port_core (c : state) (p : port) : port :=
  mkPort (set_core c (hw p)) (outcomes p) (traffic p).

(** The three switches, read at the top of [loop]. *)
Definition refresh (i : inputs) (s : state) : state :=
  let s := set_internal_scrolling (pin_SCROLL i) s in
  let s := set_jiggletimer
             (MyTimer.mk (MyTimer.start_time (jiggletimer s))
                         (MyTimer.count (jiggletimer s)) (pin_JIGGLE i)) s in
  set_lefthanded (negb (pin_LEFTHAND i)) s.

(** What [loop] does at the port before it looks for a report: outside
    stream mode it asks for one; in stream mode, when the heartbeat is
    due, it asks for the status and reads the four bytes of the answer. *)
Definition port_poll (stream_mode : bool) (clk : Z * Z) (k : sketch) : sketch :=
  if negb stream_mode
  then
    let p := port_write PS2_READ_DATA (at_port k) in
    mkSketch (snd (port_read p)) (heartbeat k)
  else
    let '(fire, hb) := heartbeat_poll clk (heartbeat k) in
    if fire
    then
      let p := port_write PS2_STATUS (at_port k) in
      let p := snd (port_read p) in
      let p := snd (port_read p) in
      let p := snd (port_read p) in
      let p := snd (port_read p) in
      mkSketch p hb
    else mkSketch (at_port k) hb.

(** [loop] up to [bool ret = mouse_ready()]: the switches, the error
    recovery, the poll. *)
Definition before_report (stream_mode : bool) (clk : Z * Z) (i : inputs) (k : sketch)
  : sketch :=
  let p := set_port_core (refresh i (core (hw (at_port k)))) (at_port k) in
  let p := loop_recover stream_mode p in
  port_poll stream_mode clk (mkSketch p (heartbeat k)).

(** [mouse_ready()] and, if a byte is there, [mbuf.pull()] and two
    [mouse_read()]: the report, bytes as read. *)
Definition port_fetch (p : port) : option (Z * Z * Z) * port :=
  let p1 := port_wait_ready 200 p in
  if negb (Mousebuffer.empty (mbuf (core (hw p1))))
  then
    let '(mstat, m) := Mousebuffer.pull (mbuf (core (hw p1))) in
    let p2 := set_port_core (set_mbuf m (core (hw p1))) p1 in
    let '(b1, p3) := port_read p2 in
    let '(b2, p4) := port_read p3 in
    (Some (mstat, b1, b2), p4)
  else (None, p1).

(** [loop] with its port: [i] gives the switches, the clock and the
    suspend flag of the call (its [report] is not read: the report is
    the one fetched from the mailbox), [clk] the clock as the heartbeat
    reads it. *)
Definition port_loop (stream_mode : bool) (clk : Z * Z) (i : inputs) (k : sketch)
  : sketch * list hid_event :=
  let k1 := before_report stream_mode clk i k in
  let '(rep, p) := port_fetch (at_port k1) in
  match rep with
  | Some (mstat, b1, b2) =>
      match loop_report (millis i) (suspended i) mstat b1 b2 (core (hw p)) with
      | (Return, c1, ev1) => (mkSketch (set_port_core c1 p) (heartbeat k1), ev1)
      | (Continue, c1, ev1) =>
          let p := set_port_core c1 p in
          let p := if negb stream_mode then port_delay 20 p else p in
          let '(c2, ev2) := loop_jiggle (millis i) (suspended i) (core (hw p)) in
          (mkSketch (set_port_core c2 p) (heartbeat k1), ev1 ++ ev2)
      end
  | None =>
      let '(c2, ev2) := loop_jiggle (millis i) (suspended i) (core (hw p)) in
      (mkSketch (set_port_core c2 p) (heartbeat k1), ev2)
  end.

(** The report a call fetches. *)
Definition fetched (stream_mode : bool) (clk : Z * Z) (i : inputs) (k : sketch)
  : option (Z * Z * Z) :=
  fst (port_fetch (at_port (before_report stream_mode clk i k))).

(** The inputs of a call with the report it fetched. *)
Definition with_report (rep : option (Z * Z * Z)) (i : inputs) : inputs :=
  mkInputs (pin_SCROLL i) (pin_JIGGLE i) (pin_LEFTHAND i) (millis i) (suspended i) rep.

(** A run of calls, and its calls as [loop] above sees them: each with
    the report it fetched. *)
Fixpoint run_port_loop (stream_mode : bool) (calls : list (Z * Z * inputs)) (k : sketch)
  : sketch * list hid_event :=
  match calls with
  | [] => (k, [])
  | (clk, i) :: rest =>
      let '(k1, ev1) := port_loop stream_mode clk i k in
      let '(k2, ev2) := run_port_loop stream_mode rest k1 in
      (k2, ev1 ++ ev2)
  end.

Fixpoint seen (stream_mode : bool) (calls : list (Z * Z * inputs)) (k : sketch)
  : list inputs :=
  match calls with
  | [] => []
  | (clk, i) :: rest =>
      with_report (fetched stream_mode clk i k) i
        :: seen stream_mode rest (fst (port_loop stream_mode clk i k))
  end.

(** The globals the report handling works on: all but [ps2_error], the
    mailbox and the statics of the interrupt routine. *)
Definition host (s : state)
  : bool * Z * list bool * Z * bool * MyTimer.t :=
  (lefthanded s, xtrabutton s, buttons s, scroll_sum s, internal_scrolling s,
   jiggletimer s).

(** The globals of a sketch. *)
Definition globals (k : sketch) : state := core (hw (at_port k)).

(** Everything the port did from [p] to [p'] is in the log of [p'],
    after what was there before. *)
Definition log_grows (p p' : port) : Prop :=
  exists l, pinlog (hw p') = pinlog (hw p) ++ l.

(** A sketch to try [loop] on: the globals as at reset with the
    interrupt attached, and a device that sends a report whose status
    byte has the overflow bit 0x80 set. *)
Definition overflowing : sketch :=
  mkSketch
    (mkPort (mkWire boot true []) (repeat true 420)
            [frame_of_byte 0x80; frame_of_byte 1; frame_of_byte 1])
    MyTimer.init.

Definition plain_input : inputs := mkInputs true true true 100 false None.

(** * The older revision

    The sketch as it was before the mailbox and the timer became
    classes: the mailbox is three globals with free functions,
    [mouse_read] waits 50 ms and tells its caller about a timeout, and
    the idle nudges are counted in [loop] itself. *)
Module Legacy.

(** [long] is 32 bits wide on the AVR. *)
Definition to_int32 (z : Z) : Z := (z + 2147483648) mod 4294967296 - 2147483648.

(** [mbuf], [mbuf_h] and [mbuf_t] are held in the record of the newer
    mailbox: [buf], [head] and [tail]. *)
Definition mbuf_push (data : Z) (m : Mousebuffer.t) : Mousebuffer.t :=
  let next := to_uint8 ((Mousebuffer.head m + 1) mod Mousebuffer.MBUF_SIZE) in
  if negb (next =? Mousebuffer.tail m)
  then Mousebuffer.mk (<[Z.to_nat (Mousebuffer.head m) := data]> (Mousebuffer.buf m))
                      next (Mousebuffer.tail m)
  else m.

(** [mbuf_pull]: [ret = mbuf[mbuf_t]; mbuf_t = (mbuf_t + 1) % MBUF_SIZE]. *)
Definition mbuf_pull (m : Mousebuffer.t) : Z * Mousebuffer.t :=
  if negb (Mousebuffer.head m =? Mousebuffer.tail m)
  then (Mousebuffer.buf m !!! Z.to_nat (Mousebuffer.tail m),
        Mousebuffer.mk (Mousebuffer.buf m) (Mousebuffer.head m)
          (to_uint8 ((Mousebuffer.tail m + 1) mod Mousebuffer.MBUF_SIZE)))
  else (0, m).

Definition mbuf_empty (m : Mousebuffer.t) : bool :=
  Mousebuffer.head m =? Mousebuffer.tail m.

(** [mouse_read(bool *ret)], interrupt version: up to 50 waits of a
    millisecond; the flag is what is stored through [ret]. *)
Definition mouse_read (bus : list (list bool)) (s : state)
  : Z * bool * state * list (list bool) :=
  let '(s1, bus1) := wait_ready 50 bus s in
  if mbuf_empty (mbuf s1) then (0, false, s1, bus1)
  else let '(d, m) := mbuf_pull (mbuf s1) in (d, true, set_mbuf m s1, bus1).

(** [last_move] and [jigglecount]. *)
Record idle_clock : Type := mkIdle { last_move : Z; jigglecount : Z }.

(** The end of [loop], from [if (! jiggler) return;] on. *)
Definition loop_jiggle (jiggler suspended : bool) (millis : Z) (c : idle_clock)
  : idle_clock * list hid_event :=
  if negb jiggler then (c, [])
  else
    let jiggle := to_int32 (to_uint32 (millis - to_uint32 (last_move c))) in
    if (to_int32 (30000 * to_int16 (jigglecount c + 1)) <? jiggle) && (jiggle <? 1800000)
    then
      let c1 := mkIdle (last_move c) (to_int16 (jigglecount c + 1)) in
      if negb suspended then (c1, [Move 1 0 0; Move (-1) 0 0]) else (c1, [])
    else (c, []).

(** Calls of [loop] that find no report, one after the other: the
    jiggle switch, the suspend flag and the clock of each. *)
Fixpoint run_jiggle (polls : list (bool * bool * Z)) (c : idle_clock)
  : idle_clock * list hid_event :=
  match polls with
  | [] => (c, [])
  | (jiggler, suspended, millis) :: rest =>
      let '(c1, ev1) := loop_jiggle jiggler suspended millis c in
      let '(c2, ev2) := run_jiggle rest c1 in
      (c2, ev1 ++ ev2)
  end.

End Legacy.

(** * Properties *)

(** ** The ring buffer *)

Module MousebufferFacts.
Import Mousebuffer.

Ltac zmod :=
  unfold wf, count, to_uint8, MBUF_SIZE in *;
  Z.to_euclidean_division_equations; lia.

Lemma wf_init : wf init.
Proof. unfold wf, init, MBUF_SIZE; simpl. lia. Qed.

Lemma empty_count m : wf m -> empty m = true <-> count m = 0%nat.
Proof.
  intros Hwf. unfold empty. rewrite Z.eqb_eq. split; intros H; zmod.
Qed.

(** With room left, [push] stores at [head] and advances it. *)
Lemma push_room d m :
  wf m -> (count m < 15)%nat ->
  push d m = mk (<[Z.to_nat (head m) := d]> (buf m)) ((head m + 1) mod 16) (tail m).
Proof.
  intros Hwf Hc. unfold push.
  assert (Hn : to_uint8 ((head m + 1) mod MBUF_SIZE) = (head m + 1) mod 16) by zmod.
  rewrite Hn.
  destruct (Z.eqb_spec ((head m + 1) mod 16) (tail m)) as [E|E]; simpl; [|reflexivity].
  exfalso. zmod.
Qed.

(** With fifteen bytes buffered, [push] changes nothing. *)
Lemma push_full d m : wf m -> count m = 15%nat -> push d m = m.
Proof.
  intros Hwf Hc. unfold push.
  destruct (Z.eqb_spec (to_uint8 ((head m + 1) mod MBUF_SIZE)) (tail m)) as [E|E];
    simpl; [reflexivity|].
  exfalso. zmod.
Qed.

Lemma wf_push d m : wf m -> wf (push d m).
Proof.
  intros Hwf. unfold push. destruct (negb _); [|assumption].
  destruct Hwf as (Hh & Ht & Hl). unfold wf; simpl.
  rewrite length_insert. repeat split; try tauto; zmod.
Qed.

Lemma wf_pull m : wf m -> wf (snd (pull m)).
Proof.
  intros Hwf. unfold pull. destruct (negb _); [|assumption].
  destruct Hwf as (Hh & Ht & Hl). unfold wf; simpl.
  repeat split; try tauto; zmod.
Qed.

Lemma wf_reset m : wf m -> wf (reset m).
Proof. unfold wf, reset, MBUF_SIZE; simpl. lia. Qed.

Lemma count_push d m :
  wf m -> (count m < 15)%nat -> count (push d m) = S (count m).
Proof.
  intros Hwf Hc. rewrite push_room by assumption. unfold count; simpl. zmod.
Qed.

Lemma slot_push_old d m i :
  wf m -> (count m < 15)%nat -> (i < count m)%nat -> slot (push d m) i = slot m i.
Proof.
  intros Hwf Hc Hi. rewrite push_room by assumption. unfold slot; simpl.
  apply list_lookup_total_insert_ne. zmod.
Qed.

Lemma slot_push_new d m :
  wf m -> (count m < 15)%nat -> slot (push d m) (count m) = d.
Proof.
  intros Hwf Hc. rewrite push_room by assumption. unfold slot; simpl.
  replace ((tail m + Z.of_nat (count m)) mod MBUF_SIZE) with (head m) by zmod.
  apply list_lookup_total_insert_eq. zmod.
Qed.

Lemma contents_push d m :
  wf m -> (count m < 15)%nat -> contents (push d m) = contents m ++ [d].
Proof.
  intros Hwf Hc. unfold contents. rewrite count_push by assumption.
  rewrite seq_S, map_app. simpl. rewrite slot_push_new by assumption.
  f_equal. apply map_ext_in. intros i Hi. apply in_seq in Hi.
  apply slot_push_old; try assumption. lia.
Qed.

Lemma length_contents m : length (contents m) = count m.
Proof. unfold contents. rewrite length_map, length_seq. reflexivity. Qed.

Lemma contents_push_all l m :
  wf m -> (count m + length l <= 15)%nat ->
  wf (push_all l m) /\ contents (push_all l m) = contents m ++ l.
Proof.
  revert m. induction l as [|d l IH]; intros m Hwf Hc; simpl in *.
  - split; [assumption|]. now rewrite app_nil_r.
  - destruct (IH (push d m)) as [Hw He].
    + now apply wf_push.
    + rewrite count_push by (assumption || lia). lia.
    + split; [assumption|]. rewrite He, contents_push by (assumption || lia).
      now rewrite <- app_assoc.
Qed.

(** From a non-empty buffer, [pull] returns the oldest byte and advances [tail]. *)
Lemma pull_some m :
  wf m -> (0 < count m)%nat ->
  pull m = (slot m 0, mk (buf m) (head m) ((tail m + 1) mod 16)).
Proof.
  intros Hwf Hc. unfold pull.
  destruct (Z.eqb_spec (head m) (tail m)) as [E|E]; simpl.
  - exfalso. zmod.
  - unfold slot. f_equal.
    + f_equal. f_equal. zmod.
    + f_equal. zmod.
Qed.

Lemma contents_pull m x r :
  wf m -> contents m = x :: r ->
  fst (pull m) = x /\ wf (snd (pull m)) /\ contents (snd (pull m)) = r.
Proof.
  intros Hwf Hc.
  assert (Hn : (0 < count m)%nat).
  { rewrite <- length_contents, Hc. simpl. lia. }
  rewrite pull_some by assumption. simpl.
  unfold contents in Hc.
  destruct (count m) as [|n] eqn:En; [lia|].
  simpl in Hc. injection Hc as Hx Hr.
  split; [assumption|]. split.
  - destruct Hwf as (Hh & Ht & Hl). unfold wf; simpl. repeat split; try tauto; zmod.
  - unfold contents.
    assert (Hc' : count (mk (buf m) (head m) ((tail m + 1) mod 16)) = n).
    { unfold count in *; simpl. zmod. }
    rewrite Hc', <- Hr, <- seq_shift, map_map.
    apply map_ext_in. intros i Hi. apply in_seq in Hi.
    unfold slot; simpl. f_equal. f_equal. zmod.
Qed.

Lemma pull_n_contents l m :
  wf m -> contents m = l ->
  fst (pull_n (length l) m) = l /\ empty (snd (pull_n (length l) m)) = true.
Proof.
  revert m. induction l as [|x r IH]; intros m Hwf Hc; simpl.
  - split; [reflexivity|]. apply empty_count; [assumption|].
    now rewrite <- length_contents, Hc.
  - destruct (contents_pull m x r Hwf Hc) as (Hx & Hw & Hr).
    destruct (pull m) as [d m1]; simpl in *.
    destruct (IH m1 Hw Hr) as [H1 H2].
    destruct (pull_n (length r) m1) as [ds m2]; simpl in *.
    subst. split; reflexivity || assumption.
Qed.

(** C2, as stated, fails at its own bound: the byte pushed sixteenth
    into the empty buffer is dropped, and the sixteenth pull finds the
    buffer empty and returns 0. *)
Lemma sixteen_pushes_lose_one :
  fst (pull_n 16 (push_all [1; 2; 3; 4; 5; 6; 7; 8; 9; 10; 11; 12; 13; 14; 15; 16] init))
  = [1; 2; 3; 4; 5; 6; 7; 8; 9; 10; 11; 12; 13; 14; 15; 0]
  /\ fst (pull_n 16 (push_all [1; 2; 3; 4; 5; 6; 7; 8; 9; 10; 11; 12; 13; 14; 15; 16] init))
     <> [1; 2; 3; 4; 5; 6; 7; 8; 9; 10; 11; 12; 13; 14; 15; 16].
Proof. split; [vm_compute; reflexivity | vm_compute; discriminate]. Qed.

(** C2, amended: up to fifteen bytes pushed into an empty buffer come
    back from as many pulls unchanged and in the order pushed, leaving
    the buffer empty; with fifteen bytes buffered, after such a run or
    in any other buffer, a further push leaves the buffer, its bytes and
    both indices as they were. *)
Theorem fifo_fifteen (l : list Z) (m : t) :
  wf m -> empty m = true -> (length l <= 15)%nat ->
  fst (pull_n (length l) (push_all l m)) = l
  /\ empty (snd (pull_n (length l) (push_all l m))) = true
  /\ (length l = 15%nat -> forall d, push d (push_all l m) = push_all l m)
  /\ (forall m' d, wf m' -> length (contents m') = 15%nat -> push d m' = m').
Proof.
  intros Hwf He Hl.
  apply empty_count in He; [|assumption].
  destruct (contents_push_all l m Hwf) as [Hw Hc]; [lia|].
  assert (Hnil : contents m = []).
  { unfold contents. now rewrite He. }
  rewrite Hnil in Hc; simpl in Hc.
  destruct (pull_n_contents l (push_all l m) Hw Hc) as [H1 H2].
  split; [exact H1|]. split; [exact H2|]. split.
  - intros H15 d. apply push_full; [assumption|].
    now rewrite <- length_contents, Hc.
  - intros m' d Hw' H15. apply push_full; [assumption|].
    now rewrite <- length_contents.
Qed.

Lemma fifo_fifteen_witness :
  wf init /\ empty init = true /\ (length [7; 0; 255] <= 15)%nat
  /\ fst (pull_n 3 (push_all [7; 0; 255] init)) = [7; 0; 255].
Proof.
  split; [apply wf_init|]. split; [reflexivity|]. split; [simpl; lia|].
  apply (fifo_fifteen [7; 0; 255] init); [apply wf_init | reflexivity | simpl; lia].
Defined.

End MousebufferFacts.

(** ** The receiver *)

Section Receiver.

Lemma byte_cases (f : Z -> bool) :
  forallb f (map Z.of_nat (seq 0 256)) = true -> forall b, byte b -> f b = true.
Proof.
  intros H b Hb. rewrite forallb_forall in H. apply H.
  apply in_map_iff. exists (Z.to_nat b). split; [unfold byte in Hb; lia|].
  apply in_seq. unfold byte in Hb; lia.
Qed.

Lemma byte_of_bits_of_byte b : byte b -> byte_of_bits (bits_of_byte b) = b.
Proof.
  intros Hb. apply Z.eqb_eq.
  apply (byte_cases (fun b => byte_of_bits (bits_of_byte b) =? b)); [|assumption].
  vm_compute. reflexivity.
Qed.

Lemma bits_of_byte_length b : length (bits_of_byte b) = 8%nat.
Proof. reflexivity. Qed.

Ltac eight d :=
  do 8 (destruct d as [|? d]; [discriminate|]); destruct d; [|discriminate].

(** Start bit and eight data bits from the idle state: the accumulator
    holds the byte, the flag tells whether the ones were odd in number. *)
Lemma isr_data_bits (d : list bool) (s : state) :
  idle s -> length d = 8%nat ->
  run_isr (false :: d) s = set_isr (mkRegs BIT7 (byte_of_bits d) (Nat.odd (ones d))) s.
Proof.
  intros Hi Hl. destruct s as [lh xb bt ss sc er mb jt rg].
  unfold idle in Hi; simpl in Hi; subst rg.
  eight d.
  destruct b, b0, b1, b2, b3, b4, b5, b6; reflexivity.
Qed.

Lemma run_isr_app a b s : run_isr (a ++ b) s = run_isr b (run_isr a s).
Proof. unfold run_isr. apply fold_left_app. Qed.

Lemma idle_boot : idle boot.
Proof. reflexivity. Qed.

(** The edge at the parity position. *)
Lemma isr_parity_edge sample d p s :
  isr s = mkRegs BIT7 d p ->
  ps2_ISR false sample s =
    if Bool.eqb sample p then isr_error PARITY s else set_isr (mkRegs PARITY d p) s.
Proof. intros H. unfold ps2_ISR. rewrite H. reflexivity. Qed.

(** The edge at the stop position. *)
Lemma isr_stop_edge sample d p s :
  isr s = mkRegs PARITY d p ->
  ps2_ISR false sample s =
    if sample then isr_done (set_mbuf (Mousebuffer.push d (mbuf s)) s)
    else isr_error STOP s.
Proof.
  intros H. unfold ps2_ISR. rewrite H. destruct sample; reflexivity.
Qed.

(** The edge at the start position. *)
Lemma isr_start_edge sample s :
  idle s ->
  ps2_ISR false sample s =
    if sample then isr_error START s else set_isr (mkRegs START 0 false) s.
Proof. intros H. unfold ps2_ISR. rewrite H. destruct sample; reflexivity. Qed.

Ltac edge_case sample p :=
  destruct sample, p; vm_compute;
  repeat split; try discriminate; try tauto; intros; discriminate.

(** Before the stop position an edge leaves the mailbox alone, moves the
    counter on by one at most, and keeps a recorded error code non-zero. *)
Lemma isr_edge_early sample s :
  0 <= bit (isr s) < PARITY ->
  mbuf (ps2_ISR false sample s) = mbuf s
  /\ 0 <= bit (isr (ps2_ISR false sample s)) <= bit (isr s) + 1
  /\ (ps2_error s <> 0 -> ps2_error (ps2_ISR false sample s) <> 0).
Proof.
  destruct s as [lh xb bt ss sc er mb jt [x d p]]; unfold PARITY; simpl.
  intros Hb.
  assert (Hx : x = 0 \/ x = 1 \/ x = 2 \/ x = 3 \/ x = 4 \/ x = 5 \/ x = 6
               \/ x = 7 \/ x = 8 \/ x = 9) by lia.
  assert (Hx' : In x [0; 1; 2; 3; 4; 5; 6; 7; 8; 9]) by (simpl; lia).
  clear Hx Hb. repeat (destruct Hx' as [<-|Hx']; [edge_case sample p|]).
  destruct Hx'.
Qed.

Lemma run_isr_cons x r s : run_isr (x :: r) s = run_isr r (ps2_ISR false x s).
Proof. reflexivity. Qed.

Lemma isr_early samples s :
  0 <= bit (isr s) -> bit (isr s) + Z.of_nat (length samples) <= PARITY ->
  mbuf (run_isr samples s) = mbuf s
  /\ (ps2_error s <> 0 -> ps2_error (run_isr samples s) <> 0).
Proof.
  revert s. induction samples as [|x r IH]; intros s H0 Hn.
  - simpl. tauto.
  - rewrite run_isr_cons.
    rewrite length_cons in Hn.
    destruct (isr_edge_early x s) as (Hm & Hb & He); [lia|].
    destruct (IH (ps2_ISR false x s)) as [Hm' He']; [lia | lia |].
    rewrite Hm', Hm. tauto.
Qed.

Lemma run_isr_one x s : run_isr [x] s = ps2_ISR false x s.
Proof. reflexivity. Qed.

Lemma eqb_even_odd n : Bool.eqb (Nat.even n) (Nat.odd n) = false.
Proof. rewrite <- Nat.negb_odd. destruct (Nat.odd n); reflexivity. Qed.

Lemma eqb_negb_even_odd n : Bool.eqb (negb (Nat.even n)) (Nat.odd n) = true.
Proof. rewrite <- Nat.negb_odd. destruct (Nat.odd n); reflexivity. Qed.

(** C1: from the idle state, the eleven edges of a frame with start bit
    0, the bits of [b] least significant first, odd parity and stop bit
    1 end with [b] pushed onto the mailbox, no error code written and
    the three statics back at idle; where the mailbox has room, [b] is
    its newest byte.  With the start bit inverted the first edge writes
    the code [START] and returns idle, and the ten edges that follow
    push nothing and leave the code non-zero.  With the parity bit
    wrong the tenth edge writes [PARITY] and returns idle, and the stop
    bit, read as a bad start, leaves [START].  With the stop bit
    inverted the eleventh edge writes [STOP], pushes nothing and
    returns idle. *)
Theorem ps2_ISR_frame (b : Z) (s : state) :
  byte b -> idle s ->
  let d := bits_of_byte b in
  let good := odd_parity_bit d in
  run_isr (frame false d good true) s = set_mbuf (Mousebuffer.push b (mbuf s)) s
  /\ (Mousebuffer.wf (mbuf s) -> (Mousebuffer.count (mbuf s) < 15)%nat ->
      Mousebuffer.contents (mbuf (run_isr (frame false d good true) s))
      = Mousebuffer.contents (mbuf s) ++ [b])
  /\ ps2_ISR false true s = set_ps2_error START s
  /\ mbuf (run_isr (frame true d good true) s) = mbuf s
  /\ ps2_error (run_isr (frame true d good true) s) <> 0
  /\ run_isr (firstn 10 (frame false d (negb good) true)) s = set_ps2_error PARITY s
  /\ run_isr (frame false d (negb good) true) s = set_ps2_error START s
  /\ run_isr (frame false d good false) s = set_ps2_error STOP s.
Proof.
  intros Hb Hi d good.
  assert (Hd : run_isr (false :: d) s
               = set_isr (mkRegs BIT7 b (Nat.odd (ones d))) s).
  { unfold d. rewrite isr_data_bits by (assumption || reflexivity).
    now rewrite byte_of_bits_of_byte. }
  assert (Hgood : run_isr (false :: d ++ [good]) s
                  = set_isr (mkRegs PARITY b (Nat.odd (ones d))) s).
  { change (false :: d ++ [good]) with ((false :: d) ++ [good]).
    rewrite run_isr_app, Hd, run_isr_one.
    rewrite (isr_parity_edge good b (Nat.odd (ones d))) by reflexivity.
    unfold good, odd_parity_bit. rewrite eqb_even_odd. reflexivity. }
  assert (Hbad : run_isr (false :: d ++ [negb good]) s = set_ps2_error PARITY s).
  { change (false :: d ++ [negb good]) with ((false :: d) ++ [negb good]).
    rewrite run_isr_app, Hd, run_isr_one.
    rewrite (isr_parity_edge (negb good) b (Nat.odd (ones d))) by reflexivity.
    unfold good, odd_parity_bit. rewrite eqb_negb_even_odd.
    destruct s; unfold idle in Hi; simpl in Hi; subst; reflexivity. }
  assert (Hvalid : run_isr (frame false d good true) s
                   = set_mbuf (Mousebuffer.push b (mbuf s)) s).
  { unfold frame. change [good; true] with ([good] ++ [true]).
    rewrite app_assoc, app_comm_cons, run_isr_app, Hgood, run_isr_one.
    rewrite (isr_stop_edge true b (Nat.odd (ones d))) by reflexivity.
    destruct s; unfold idle in Hi; simpl in Hi; subst; reflexivity. }
  assert (Hstart : ps2_ISR false true s = set_ps2_error START s).
  { rewrite isr_start_edge by assumption.
    destruct s; unfold idle in Hi; simpl in Hi; subst; reflexivity. }
  assert (Hrest : mbuf (run_isr (frame true d good true) s) = mbuf s
                  /\ ps2_error (run_isr (frame true d good true) s) <> 0).
  { unfold frame.
    rewrite run_isr_cons, Hstart.
    assert (Hbit : bit (isr (set_ps2_error START s)) = 0).
    { cbn [isr set_ps2_error]. now rewrite Hi. }
    assert (Hlen : length (d ++ [good; true]) = 10%nat).
    { unfold d. now rewrite length_app, bits_of_byte_length. }
    destruct (isr_early (d ++ [good; true]) (set_ps2_error START s)) as [Hm He].
    - rewrite Hbit. lia.
    - rewrite Hbit, Hlen. unfold PARITY. lia.
    - split; [now rewrite Hm|]. apply He. discriminate. }
  split; [exact Hvalid|]. split.
  { intros Hw Hc. rewrite Hvalid. cbn [mbuf set_mbuf].
    now apply MousebufferFacts.contents_push. }
  split; [exact Hstart|]. split; [exact (proj1 Hrest)|].
  split; [exact (proj2 Hrest)|]. split.
  { exact Hbad. }
  split.
  - unfold frame. change [negb good; true] with ([negb good] ++ [true]).
    rewrite app_assoc, app_comm_cons, run_isr_app, Hbad, run_isr_one.
    rewrite isr_start_edge.
    + destruct s; unfold idle in Hi; simpl in Hi; subst; reflexivity.
    + unfold idle. cbn [isr set_ps2_error]. exact Hi.
  - unfold frame. change [good; false] with ([good] ++ [false]).
    rewrite app_assoc, app_comm_cons, run_isr_app, Hgood, run_isr_one.
    rewrite (isr_stop_edge false b (Nat.odd (ones d))) by reflexivity.
    destruct s; unfold idle in Hi; simpl in Hi; subst; reflexivity.
Qed.

Lemma ps2_ISR_frame_witness :
  byte 0xA5 /\ idle boot
  /\ run_isr (frame false (bits_of_byte 0xA5) (odd_parity_bit (bits_of_byte 0xA5)) true) boot
     = set_mbuf (Mousebuffer.push 0xA5 (mbuf boot)) boot.
Proof.
  assert (Hb : byte 0xA5) by (unfold byte; lia).
  split; [exact Hb|]. split; [exact idle_boot|].
  exact (proj1 (ps2_ISR_frame 0xA5 boot Hb idle_boot)).
Defined.

(** C4, as stated, fails: after the start bit and the data bits of 0x00
    the running flag is false; a parity sample equal to it is flagged
    with the code of the parity position, a sample that differs from it
    is let through. *)
Lemma parity_equal_to_flag_is_flagged :
  parity (isr (run_isr (false :: bits_of_byte 0) boot)) = false
  /\ ps2_ISR false false (run_isr (false :: bits_of_byte 0) boot)
     = isr_error PARITY (run_isr (false :: bits_of_byte 0) boot)
  /\ ps2_error (ps2_ISR false false (run_isr (false :: bits_of_byte 0) boot)) = 10
  /\ ps2_error (ps2_ISR false true (run_isr (false :: bits_of_byte 0) boot)) = 0.
Proof. vm_compute. repeat split; reflexivity. Qed.

(** C4, amended: after the start bit and eight data bits the running
    flag tells whether the ones among the data bits were odd in number,
    and the edge at the parity position flags an error exactly when
    the sample equals the flag; a sample that is the complement of the
    flag moves the receiver on to the stop position with nothing
    flagged. *)
Theorem parity_check (d : list bool) (sample : bool) (s : state) :
  idle s -> length d = 8%nat ->
  let s9 := run_isr (false :: d) s in
  let flag := parity (isr s9) in
  flag = Nat.odd (ones d)
  /\ (sample = negb flag ->
      ps2_ISR false sample s9 = set_isr (mkRegs PARITY (data (isr s9)) flag) s9)
  /\ (sample = flag -> ps2_ISR false sample s9 = isr_error PARITY s9)
  /\ (ps2_ISR false sample s9 = isr_error PARITY s9 <-> sample = flag).
Proof.
  intros Hi Hl s9 flag.
  assert (Hs9 : isr s9 = mkRegs BIT7 (byte_of_bits d) (Nat.odd (ones d))).
  { unfold s9. now rewrite isr_data_bits. }
  assert (Hflag : flag = Nat.odd (ones d)).
  { unfold flag. now rewrite Hs9. }
  assert (Hstep : ps2_ISR false sample s9 =
                  if Bool.eqb sample flag then isr_error PARITY s9
                  else set_isr (mkRegs PARITY (data (isr s9)) flag) s9).
  { rewrite (isr_parity_edge sample _ _ s9 Hs9), Hflag, Hs9. reflexivity. }
  split; [exact Hflag|].
  split; [|split; [|split]].
  - intros ->. rewrite Hstep. now destruct flag.
  - intros ->. rewrite Hstep. now rewrite Bool.eqb_reflx.
  - rewrite Hstep. destruct (Bool.eqb sample flag) eqn:E.
    + intros _. now apply Bool.eqb_prop.
    + intros H. apply (f_equal (fun x => bit (isr x))) in H.
      cbn in H. discriminate H.
  - intros ->. rewrite Hstep. now rewrite Bool.eqb_reflx.
Qed.

Lemma parity_check_witness :
  idle boot /\ length (bits_of_byte 0x01) = 8%nat
  /\ parity (isr (run_isr (false :: bits_of_byte 0x01) boot)) = true.
Proof.
  split; [exact idle_boot|]. split; [reflexivity|].
  exact (proj1 (parity_check (bits_of_byte 0x01) false boot idle_boot eq_refl)).
Defined.

End Receiver.

(** ** Button mapping *)

Section Buttons.

Lemma byte_cases2 (f : Z -> Z -> bool) :
  forallb (fun a => forallb (f a) (map Z.of_nat (seq 0 256))) (map Z.of_nat (seq 0 256)) = true ->
  forall a b, byte a -> byte b -> f a b = true.
Proof.
  intros H a b Ha Hb.
  pose proof (byte_cases (fun a => forallb (f a) (map Z.of_nat (seq 0 256))) H a Ha) as H1.
  exact (byte_cases (f a) H1 b Hb).
Qed.

Lemma swap_test_all mstat xtra : byte mstat -> byte xtra -> swap_test mstat xtra = true.
Proof. apply byte_cases2. vm_compute. reflexivity. Qed.

(** C5, as stated, fails: with only the primary middle bit set the
    swapped mapping reports no button at all, while the plain mapping
    with middle and scroll exchanged reports the scroll button. *)
Lemma swap_drops_primary_middle :
  map_buttons true 0x04 0 = 0
  /\ swap_roles (map_buttons false 0x04 0) = 0x10
  /\ map_buttons true 0x04 0 <> swap_roles (map_buttons false 0x04 0).
Proof. vm_compute. repeat split; try reflexivity. discriminate. Qed.

(** C5, amended: for raw inputs whose primary middle bit (0x04) is
    clear, the mapping with the handedness swap equals the mapping
    without it followed by the exchange of left with right and of
    middle with scroll; and the exchange applied twice to any mapped
    button set gives the set back. *)
Theorem swap_is_exchange (mstat xtra : Z) :
  byte mstat -> byte xtra ->
  (Z.land mstat 0x04 = 0 ->
   map_buttons true mstat xtra = swap_roles (map_buttons false mstat xtra))
  /\ (forall lh : bool,
      swap_roles (swap_roles (map_buttons lh mstat xtra)) = map_buttons lh mstat xtra).
Proof.
  intros Hm Hx. pose proof (swap_test_all mstat xtra Hm Hx) as H.
  unfold swap_test in H.
  apply andb_prop in H as [H H3]. apply andb_prop in H as [H1 H2].
  split.
  - intros Hz. rewrite Hz in H1. simpl in H1. now apply Z.eqb_eq.
  - intros [|]; now apply Z.eqb_eq.
Qed.

Lemma swap_is_exchange_witness :
  byte 0x09 /\ byte 0x30 /\ Z.land 0x09 0x04 = 0
  /\ map_buttons true 0x09 0x30 = swap_roles (map_buttons false 0x09 0x30).
Proof.
  assert (Hm : byte 0x09) by (unfold byte; lia).
  assert (Hx : byte 0x30) by (unfold byte; lia).
  split; [exact Hm|]. split; [exact Hx|]. split; [reflexivity|].
  exact (proj1 (swap_is_exchange 0x09 0x30 Hm Hx) eq_refl).
Defined.

End Buttons.

(** ** Reports in the main loop *)

Section Reports.


Lemma to_int8_small z : -128 <= z <= 127 -> to_int8 z = z.
Proof. unfold to_int8. intros H. rewrite Z.mod_small; lia. Qed.

Lemma to_int8_range z : -128 <= to_int8 z <= 127.
Proof. unfold to_int8. pose proof (Z.mod_pos_bound (z + 128) 256). lia. Qed.

Lemma to_uint8_to_int8 b : byte b -> to_uint8 (to_int8 b) = b.
Proof.
  unfold byte, to_uint8, to_int8. intros H.
  Z.to_euclidean_division_equations; lia.
Qed.

Lemma moves_app a b : moves (a ++ b) = moves a ++ moves b.
Proof. unfold moves. apply List.filter_app. Qed.

(** The decoder in terms of the two tag tests. *)
Lemma ps2pp_decode_spec b0 b1 b2 s :
  ps2pp_decode b0 b1 b2 s =
    if tagged b0 b1
    then (true, if xtra_subtype b0 b1 then set_xtrabutton (Z.land b2 0x30) s else s)
    else (false, s).
Proof.
  unfold ps2pp_decode, tagged, xtra_subtype.
  destruct (Z.land b0 72 =? 72), (Z.land b1 2 =? 2); simpl; try reflexivity.
  destruct (_ && _); reflexivity.
Qed.

(** One pass over [buttons] sends no movement and touches only [buttons]. *)
Lemma button_step_frame btn i s :
  let r := button_step btn i s in
  moves (snd r) = []
  /\ set_buttons (buttons s) (fst r) = s.
Proof.
  unfold button_step.
  destruct (internal_scrolling s && _); simpl.
  - split; [reflexivity|]. now destruct s.
  - split; [|now destruct s].
    destruct (negb _ && _); [reflexivity|]. destruct (_ && negb _); reflexivity.
Qed.

Lemma set_buttons_twice a b s : set_buttons a (set_buttons b s) = set_buttons a s.
Proof. reflexivity. Qed.

Lemma handle_buttons_frame btn s :
  moves (snd (handle_buttons btn s)) = []
  /\ set_buttons (buttons s) (fst (handle_buttons btn s)) = s.
Proof.
  unfold handle_buttons. cbn [fold_left fst snd].
  destruct (button_step_frame btn 0 s) as [E0 F0].
  destruct (button_step btn 0 s) as [s0 e0]. cbn [fst snd] in *.
  destruct (button_step_frame btn 1 s0) as [E1 F1].
  destruct (button_step btn 1 s0) as [s1 e1]. cbn [fst snd] in *.
  destruct (button_step_frame btn 2 s1) as [E2 F2].
  destruct (button_step btn 2 s1) as [s2 e2]. cbn [fst snd] in *.
  destruct (button_step_frame btn 3 s2) as [E3 F3].
  destruct (button_step btn 3 s2) as [s3 e3]. cbn [fst snd] in *.
  split.
  - rewrite !moves_app, E0, E1, E2, E3. reflexivity.
  - rewrite <- (set_buttons_twice (buttons s) (buttons s2) s3), F3.
    rewrite <- (set_buttons_twice (buttons s) (buttons s1) s2), F2.
    rewrite <- (set_buttons_twice (buttons s) (buttons s0) s1), F1.
    exact F0.
Qed.

(** Without tag, suspension or overflow bit the report is taken as motion. *)
Lemma loop_report_plain now mstat b1 b2 s :
  byte b1 -> byte b2 -> tagged mstat b1 = false -> Z.land mstat 0xC0 = 0 ->
  loop_report now false mstat b1 b2 s
  = (Continue, fst (report_motion now mstat (to_int8 b1) (to_int8 b2) s),
     snd (report_motion now mstat (to_int8 b1) (to_int8 b2) s)).
Proof.
  intros H1 H2 Ht Ho. unfold loop_report.
  rewrite !to_uint8_to_int8 by assumption.
  rewrite ps2pp_decode_spec, Ht. cbn [orb].
  rewrite Ho. cbn [truthy Z.eqb negb].
  now destruct (report_motion _ _ _ _ _).
Qed.

(** A tagged report ends the call at once. *)
Lemma loop_report_tagged now susp mstat b1 b2 s :
  byte b1 -> byte b2 -> tagged mstat b1 = true ->
  loop_report now susp mstat b1 b2 s
  = (Return,
     if xtra_subtype mstat b1 then set_xtrabutton (Z.land b2 0x30) s else s, []).
Proof.
  intros H1 H2 Ht. unfold loop_report.
  rewrite !to_uint8_to_int8 by assumption.
  rewrite ps2pp_decode_spec, Ht. reflexivity.
Qed.

(** C6, as stated, fails in its last part: a report without the tag
    whose status byte has an overflow bit set is not taken as motion
    (the byte goes to [ps2_error] and nothing is sent, where motion
    handling would send a movement), and neither is any report while
    the host is suspended. *)
Lemma untagged_overflow_is_not_motion :
  tagged 0x80 1 = false
  /\ loop_report 0 false 0x80 1 1 boot = (Return, set_ps2_error 0x80 boot, [])
  /\ snd (report_motion 0 0x80 (to_int8 1) (to_int8 1) boot) = [Move 1 (-1) 0]
  /\ loop_report 0 true 0x08 1 1 boot = (Return, boot, []).
Proof. vm_compute. repeat split; reflexivity. Qed.

(** C6, amended: a report whose first two bytes carry the tag makes the
    decoder answer "handled", the call of [loop] ends with nothing sent
    to the host, and the extra-button state becomes [b2 & 0x30] when
    the subtype tag is there too and stays as it was otherwise; a
    report without the tag makes the decoder answer "not extended" and
    leaves the extra-button state alone, and it is then taken as
    ordinary motion provided the host is not suspended and the overflow
    bits (0xC0) of the status byte are clear. *)
Theorem ps2pp_report (now : Z) (susp : bool) (mstat b1 b2 : Z) (s : state) :
  byte mstat -> byte b1 -> byte b2 ->
  (tagged mstat b1 = true ->
     ps2pp_decode mstat b1 b2 s
     = (true, if xtra_subtype mstat b1 then set_xtrabutton (Z.land b2 0x30) s else s)
     /\ loop_report now susp mstat b1 b2 s
        = (Return,
           if xtra_subtype mstat b1 then set_xtrabutton (Z.land b2 0x30) s else s, [])
     /\ (forall i, report i = Some (mstat, b1, b2) -> snd (loop i s) = []))
  /\ (tagged mstat b1 = false ->
     ps2pp_decode mstat b1 b2 s = (false, s)
     /\ (susp = false -> Z.land mstat 0xC0 = 0 ->
         loop_report now susp mstat b1 b2 s
         = (Continue, fst (report_motion now mstat (to_int8 b1) (to_int8 b2) s),
            snd (report_motion now mstat (to_int8 b1) (to_int8 b2) s)))).
Proof.
  intros H0 H1 H2. split; intros Ht.
  - split; [now rewrite ps2pp_decode_spec, Ht|].
    split; [now apply loop_report_tagged|].
    intros i Hi. unfold loop. rewrite Hi.
    rewrite loop_report_tagged by assumption. reflexivity.
  - split; [now rewrite ps2pp_decode_spec, Ht|].
    intros -> Ho. now apply loop_report_plain.
Qed.

Lemma ps2pp_report_witness :
  byte 0xC8 /\ byte 0xD2 /\ byte 0x10 /\ tagged 0xC8 0xD2 = true
  /\ loop_report 0 false 0xC8 0xD2 0x10 boot = (Return, set_xtrabutton 0x10 boot, []).
Proof.
  assert (Ha : byte 0xC8) by (unfold byte; lia).
  assert (Hb : byte 0xD2) by (unfold byte; lia).
  assert (Hc : byte 0x10) by (unfold byte; lia).
  split; [exact Ha|]. split; [exact Hb|]. split; [exact Hc|]. split; [reflexivity|].
  exact (proj1 (proj2 (proj1 (ps2pp_report 0 false 0xC8 0xD2 0x10 boot Ha Hb Hc) eq_refl))).
Defined.

End Reports.

(** ** Scroll emulation and pointer motion *)

Section Scroll.

Lemma quot8_range z : -128 <= z <= 127 -> -16 <= Z.quot z 8 <= 15.
Proof. intros H. Z.to_euclidean_division_equations; lia. Qed.

(** The scroll branch, case by case. *)
Lemma scroll_branch_spec now my s :
  -128 <= my <= 127 ->
  let primary := Z.quot my 8 in
  let acc := to_int8 (scroll_sum s + my) in
  scroll_branch now my s =
    if negb (primary =? 0) then move now 0 0 primary (set_scroll_sum 0 s)
    else if negb (Z.quot acc 8 =? 0)
         then move now 0 0 (Z.quot acc 8) (set_scroll_sum 0 (set_scroll_sum acc s))
         else (set_scroll_sum acc s, []).
Proof.
  intros Hmy primary acc. unfold scroll_branch.
  rewrite (to_int8_small (Z.quot my 8)) by (pose proof (quot8_range my Hmy); lia).
  fold primary. unfold truthy.
  destruct (Z.eqb_spec primary 0) as [E|E]; cbn [negb].
  - cbn [scroll_sum set_scroll_sum]. fold acc.
    rewrite (to_int8_small (Z.quot acc 8))
      by (pose proof (quot8_range acc (to_int8_range _)); lia).
    reflexivity.
  - destruct (Z.eqb_spec primary 0); [contradiction|]. reflexivity.
Qed.

Lemma moves_move now x y z s : moves (snd (move now x y z s)) = snd (move now x y z s).
Proof. reflexivity. Qed.

(** A report in the scroll branch: the movement sent and the accumulator left. *)
Lemma report_motion_scroll now mstat mx my s :
  internal_scrolling s = true -> red_held s mstat = true ->
  moves (snd (report_motion now mstat mx my s)) = moves (snd (scroll_branch now my s))
  /\ set_buttons (buttons s) (fst (report_motion now mstat mx my s))
     = set_buttons (buttons s) (fst (scroll_branch now my s)).
Proof.
  intros Hi Hr. unfold report_motion. unfold red_held in Hr.
  change (bimask !!! 3%nat) with 16. rewrite Hi, Hr. cbn [andb].
  destruct (scroll_branch now my s) as [s2 ev2] eqn:E2.
  destruct (handle_buttons_frame (map_buttons (lefthanded s) mstat (xtrabutton s)) s2)
    as [Hm Hf].
  destruct (handle_buttons _ s2) as [s3 ev3]. cbn [fst snd] in *.
  split.
  - now rewrite moves_app, Hm, app_nil_r.
  - now rewrite <- (set_buttons_twice (buttons s) (buttons s2) s3), Hf.
Qed.


Lemma same_but_buttons a s1 s2 :
  set_buttons a s1 = set_buttons a s2 ->
  lefthanded s1 = lefthanded s2 /\ xtrabutton s1 = xtrabutton s2
  /\ scroll_sum s1 = scroll_sum s2 /\ internal_scrolling s1 = internal_scrolling s2.
Proof.
  intros H.
  pose proof (f_equal lefthanded H) as H1. pose proof (f_equal xtrabutton H) as H2.
  pose proof (f_equal scroll_sum H) as H3.
  pose proof (f_equal internal_scrolling H) as H4.
  cbn in *. tauto.
Qed.

Lemma scroll_branch_cases now my s :
  -128 <= my <= 127 ->
  let primary := Z.quot my 8 in
  let acc := to_int8 (scroll_sum s + my) in
  (primary <> 0 -> scroll_branch now my s = move now 0 0 primary (set_scroll_sum 0 s))
  /\ (primary = 0 -> Z.quot acc 8 <> 0 ->
      scroll_branch now my s
      = move now 0 0 (Z.quot acc 8) (set_scroll_sum 0 (set_scroll_sum acc s)))
  /\ (primary = 0 -> Z.quot acc 8 = 0 ->
      scroll_branch now my s = (set_scroll_sum acc s, [])).
Proof.
  intros Hmy primary acc. rewrite (scroll_branch_spec now my s Hmy). cbv zeta.
  fold primary acc.
  destruct (Z.eqb_spec primary 0) as [E|E]; cbn [negb];
    [destruct (Z.eqb_spec (Z.quot acc 8) 0) as [F|F]; cbn [negb]|];
    repeat split; intros; try contradiction; reflexivity.
Qed.

(** A wheel movement as it leaves [move]. *)
Lemma moves_wheel now z s :
  -128 <= z <= 127 -> moves (snd (move now 0 0 z s)) = [Move 0 0 z].
Proof. intros H. unfold move, moves. cbn. now rewrite (to_int8_small z). Qed.

(** A plain report with the red button held goes through the scroll
    branch; the buttons pass adds no movement. *)
Lemma loop_report_scroll now mstat b1 b2 s :
  byte b1 -> byte b2 -> tagged mstat b1 = false -> Z.land mstat 0xC0 = 0 ->
  internal_scrolling s = true -> red_held s mstat = true ->
  let r := loop_report now false mstat b1 b2 s in
  let sb := scroll_branch now (to_int8 b2) s in
  moves (snd r) = moves (snd sb)
  /\ lefthanded (snd (fst r)) = lefthanded (fst sb)
  /\ xtrabutton (snd (fst r)) = xtrabutton (fst sb)
  /\ scroll_sum (snd (fst r)) = scroll_sum (fst sb)
  /\ internal_scrolling (snd (fst r)) = internal_scrolling (fst sb).
Proof.
  intros H1 H2 Ht Ho Hi Hr r sb. unfold r.
  rewrite loop_report_plain by assumption. cbn [fst snd].
  destruct (report_motion_scroll now mstat (to_int8 b1) (to_int8 b2) s Hi Hr) as [Hm Hs].
  apply same_but_buttons in Hs. split; [exact Hm | exact Hs].
Qed.

(** C8, as stated, fails: with the red button held a report with
    delta-Y 16 sends the wheel movement +2, the raw delta divided by 8;
    the inverted delta divided by 8 would be -2. *)
Lemma scroll_tick_is_not_inverted :
  internal_scrolling (set_xtrabutton 0x10 boot) = true
  /\ red_held (set_xtrabutton 0x10 boot) 0x08 = true
  /\ moves (snd (loop_report 0 false 0x08 0 16 (set_xtrabutton 0x10 boot))) = [Move 0 0 2]
  /\ Z.quot (to_int8 (- to_int8 16)) 8 = -2.
Proof. vm_compute. repeat split; reflexivity. Qed.

(** C8, amended: for a motion report handled with the red button held
    and scroll emulation on, the input of the emulation is the raw
    delta-Y [my] of the report, not its negation.  The primary tick is
    [my / 8] truncated toward zero; if it is not zero it is sent as one
    wheel movement and the accumulator is cleared.  If it is zero, [my]
    is added to the accumulator (as [int8_t]) and the tick is the
    accumulator divided by 8: sent, with the accumulator cleared, if
    not zero, and otherwise nothing is sent and the sum stays.  From a
    zero accumulator a zero primary tick just stores [my]. *)
Theorem scroll_input_is_raw (now mstat b1 b2 : Z) (s : state) :
  byte b1 -> byte b2 -> tagged mstat b1 = false -> Z.land mstat 0xC0 = 0 ->
  internal_scrolling s = true -> red_held s mstat = true ->
  let my := to_int8 b2 in
  let primary := Z.quot my 8 in
  let acc := to_int8 (scroll_sum s + my) in
  let r := loop_report now false mstat b1 b2 s in
  (primary <> 0 -> moves (snd r) = [Move 0 0 primary] /\ scroll_sum (snd (fst r)) = 0)
  /\ (primary = 0 -> Z.quot acc 8 <> 0 ->
      moves (snd r) = [Move 0 0 (Z.quot acc 8)] /\ scroll_sum (snd (fst r)) = 0)
  /\ (primary = 0 -> Z.quot acc 8 = 0 ->
      moves (snd r) = [] /\ scroll_sum (snd (fst r)) = acc)
  /\ (scroll_sum s = 0 -> primary = 0 ->
      moves (snd r) = [] /\ scroll_sum (snd (fst r)) = my).
Proof.
  intros H1 H2 Ht Ho Hi Hr my primary acc r.
  assert (Hmy : -128 <= my <= 127) by apply to_int8_range.
  assert (Hacc : -128 <= acc <= 127) by apply to_int8_range.
  pose proof (quot8_range my Hmy) as Hp. pose proof (quot8_range acc Hacc) as Hq.
  destruct (loop_report_scroll now mstat b1 b2 s H1 H2 Ht Ho Hi Hr)
    as (Hm & _ & _ & Hs & _).
  fold r my in Hm, Hs.
  destruct (scroll_branch_cases now my s Hmy) as (C1 & C2 & C3).
  fold primary acc in C1, C2, C3.
  rewrite Hm, Hs. clear Hm Hs.
  assert (G3 : primary = 0 -> Z.quot acc 8 = 0 ->
               moves (snd (scroll_branch now my s)) = []
               /\ scroll_sum (fst (scroll_branch now my s)) = acc).
  { intros E F. rewrite C3 by assumption. split; reflexivity. }
  split; [|split; [|split]].
  - intros E. rewrite C1 by assumption.
    split; [apply moves_wheel; lia | reflexivity].
  - intros E F. rewrite C2 by assumption.
    split; [apply moves_wheel; lia | reflexivity].
  - exact G3.
  - intros Hz E.
    assert (Ha : acc = my).
    { unfold acc. rewrite Hz. now apply to_int8_small. }
    destruct (G3 E) as [A B]; [rewrite Ha; exact E|].
    split; [exact A | now rewrite B].
Qed.


(** Ticks of deltas below 8 in magnitude have magnitude 1. *)
Lemma scroll_ticks_unit dys :
  forall acc, -8 < acc < 8 ->
  Forall (fun d => -8 < d < 8) dys ->
  Forall (fun z => z = 1 \/ z = -1) (scroll_ticks acc dys).
Proof.
  induction dys as [|d rest IH]; intros acc Ha Hd; [constructor|].
  inversion Hd as [|? ? Hd1 Hd2]; subst. cbn [scroll_ticks].
  assert (E : Z.quot d 8 = 0) by (Z.to_euclidean_division_equations; lia).
  rewrite E. cbn [Z.eqb negb].
  destruct (Z.eqb_spec (Z.quot (acc + d) 8) 0) as [F|F]; cbn [negb].
  - apply IH; [|assumption]. Z.to_euclidean_division_equations; lia.
  - constructor; [Z.to_euclidean_division_equations; lia|].
    apply IH; [lia | assumption].
Qed.

(** One report of a scroll run against one step of [scroll_ticks]. *)
Lemma scroll_step now mstat b1 b2 s :
  internal_scrolling s = true -> -8 < scroll_sum s < 8 ->
  scroll_report s (now, (mstat, b1, b2)) ->
  let r := loop_report now false mstat b1 b2 s in
  internal_scrolling (snd (fst r)) = true
  /\ lefthanded (snd (fst r)) = lefthanded s
  /\ xtrabutton (snd (fst r)) = xtrabutton s
  /\ -8 < scroll_sum (snd (fst r)) < 8
  /\ forall rest,
      map wheel (scroll_ticks (scroll_sum s) (to_int8 b2 :: rest))
      = moves (snd r) ++ map wheel (scroll_ticks (scroll_sum (snd (fst r))) rest).
Proof.
  intros Hi Hacc (H0 & H1 & H2 & Ht & Ho & Hr) r.
  set (my := to_int8 b2).
  assert (Hmy : -128 <= my <= 127) by apply to_int8_range.
  pose proof (quot8_range my Hmy) as Hp.
  destruct (loop_report_scroll now mstat b1 b2 s H1 H2 Ht Ho Hi Hr)
    as (Hm & Hl & Hx & Hs & Hn).
  fold r my in Hm, Hl, Hx, Hs, Hn.
  destruct (scroll_branch_cases now my s Hmy) as (C1 & C2 & C3).
  rewrite Hm, Hl, Hx, Hs, Hn. clear Hm Hl Hx Hs Hn.
  cbn [scroll_ticks].
  destruct (Z.eqb_spec (Z.quot my 8) 0) as [E|E]; cbn [negb].
  - assert (Hsmall : -8 < my < 8) by (Z.to_euclidean_division_equations; lia).
    assert (Ha : to_int8 (scroll_sum s + my) = scroll_sum s + my)
      by (apply to_int8_small; lia).
    rewrite Ha in C2, C3.
    destruct (Z.eqb_spec (Z.quot (scroll_sum s + my) 8) 0) as [F|F]; cbn [negb].
    + rewrite C3 by assumption. cbn.
      repeat split; try assumption; try reflexivity;
        Z.to_euclidean_division_equations; lia.
    + rewrite C2 by assumption.
      rewrite moves_wheel by (Z.to_euclidean_division_equations; lia). cbn.
      repeat split; try assumption; try reflexivity; lia.
  - rewrite C1 by assumption. rewrite moves_wheel by lia. cbn.
    repeat split; try assumption; try reflexivity; lia.
Qed.

Lemma red_held_ext s s' mstat :
  lefthanded s' = lefthanded s -> xtrabutton s' = xtrabutton s ->
  red_held s' mstat = red_held s mstat.
Proof. unfold red_held. now intros -> ->. Qed.

Lemma scroll_run rs :
  forall s, internal_scrolling s = true -> -8 < scroll_sum s < 8 ->
  Forall (scroll_report s) rs ->
  moves (snd (run_reports false rs s))
  = map wheel (scroll_ticks (scroll_sum s) (map delta_y rs)).
Proof.
  induction rs as [|[now [[mstat b1] b2]] rest IH]; intros s Hi Ha Hr; [reflexivity|].
  inversion Hr as [|? ? Hr1 Hr2]; subst.
  destruct (scroll_step now mstat b1 b2 s Hi Ha Hr1) as (Ki & Kl & Kx & Ka & Kt).
  cbn [map]. change (delta_y (now, (mstat, b1, b2))) with (to_int8 b2).
  rewrite Kt. cbn [run_reports].
  destruct (loop_report now false mstat b1 b2 s) as [[f s1] ev1]. cbn [fst snd] in *.
  rewrite <- (IH s1 Ki Ka).
  - destruct (run_reports false rest s1) as [s2 ev2]. cbn [snd].
    now rewrite moves_app.
  - eapply Forall_impl; [exact Hr2|].
    intros [t [[m c1] c2]] A. unfold scroll_report in *.
    rewrite (red_held_ext s s1) by assumption. exact A.
Qed.


Lemma four_sixes_scroll : Forall (scroll_report red_state) four_sixes.
Proof.
  repeat constructor; unfold byte; try lia.
Qed.

(** C3, as stated, fails on its own example: four reports with delta-Y
    6 under a held red button send two wheel movements of +1 (after the
    second and the fourth report), not one of magnitude 3. *)
Lemma four_sixes_give_two_ticks :
  map delta_y four_sixes = [6; 6; 6; 6]
  /\ moves (snd (run_reports false four_sixes red_state)) = [Move 0 0 1; Move 0 0 1]
  /\ moves (snd (run_reports false four_sixes red_state)) <> [Move 0 0 3].
Proof. vm_compute. repeat split; try reflexivity. discriminate. Qed.

(** C3, amended: for a run of motion reports handled with the red
    button held and scroll emulation on, from a zero accumulator, the
    movements sent are exactly the wheel ticks of the description, in
    order, each with dx = dy = 0: a tick goes out at each report whose
    delta-Y, or else the accumulator with that delta added, is 8 or
    more in magnitude, and clears the accumulator, dropping the
    remainder.  When every delta is below 8 in magnitude each tick has
    magnitude 1. *)
Theorem scroll_sequence (rs : list (Z * (Z * Z * Z))) (s : state) :
  internal_scrolling s = true -> scroll_sum s = 0 ->
  Forall (scroll_report s) rs ->
  moves (snd (run_reports false rs s)) = map wheel (scroll_ticks 0 (map delta_y rs))
  /\ (Forall (fun r => -8 < delta_y r < 8) rs ->
      Forall (fun z => z = 1 \/ z = -1) (scroll_ticks 0 (map delta_y rs))).
Proof.
  intros Hi Hz Hr. split.
  - rewrite <- Hz. apply scroll_run; [assumption | lia | assumption].
  - intros Hd. apply scroll_ticks_unit; [lia|].
    now apply Forall_map.
Qed.

Lemma scroll_sequence_witness :
  internal_scrolling red_state = true /\ scroll_sum red_state = 0
  /\ Forall (scroll_report red_state) four_sixes
  /\ moves (snd (run_reports false four_sixes red_state))
     = map wheel (scroll_ticks 0 (map delta_y four_sixes)).
Proof.
  split; [reflexivity|]. split; [reflexivity|]. split; [exact four_sixes_scroll|].
  exact (proj1 (scroll_sequence four_sixes red_state eq_refl eq_refl four_sixes_scroll)).
Defined.

Lemma scroll_input_is_raw_witness :
  byte 0 /\ byte 16 /\ tagged 0x08 0 = false /\ Z.land 0x08 0xC0 = 0
  /\ internal_scrolling red_state = true /\ red_held red_state 0x08 = true
  /\ Z.quot (to_int8 16) 8 <> 0
  /\ moves (snd (loop_report 0 false 0x08 0 16 red_state)) = [Move 0 0 (Z.quot (to_int8 16) 8)].
Proof.
  assert (Ha : byte 0) by (unfold byte; lia).
  assert (Hb : byte 16) by (unfold byte; lia).
  assert (Hq : Z.quot (to_int8 16) 8 <> 0) by (vm_compute; discriminate).
  repeat (split; [first [exact Ha | exact Hb | exact Hq | reflexivity]|]).
  exact (proj1 (proj1 (scroll_input_is_raw 0 0x08 0 16 red_state
                          Ha Hb eq_refl eq_refl eq_refl eq_refl) Hq)).
Defined.

(** The pointer branch. *)
Lemma report_motion_move now mstat mx my s :
  internal_scrolling s && red_held s mstat = false ->
  moves (snd (report_motion now mstat mx my s)) = moves (snd (move_branch now mx my s)).
Proof.
  intros Hn. unfold report_motion. unfold red_held in Hn.
  change (bimask !!! 3%nat) with 16. rewrite Hn.
  destruct (move_branch now mx my s) as [s2 ev2].
  destruct (handle_buttons_frame (map_buttons (lefthanded s) mstat (xtrabutton s)) s2)
    as [Hm _].
  destruct (handle_buttons _ s2) as [s3 ev3]. cbn [fst snd] in *.
  now rewrite moves_app, Hm, app_nil_r.
Qed.

Lemma to_int8_signed b : byte b -> to_int8 b = signed_byte b.
Proof.
  unfold byte, to_int8, signed_byte. intros Hb.
  destruct (Z.ltb_spec b 128); Z.to_euclidean_division_equations; lia.
Qed.

(** C10: a plain motion report outside the scroll branch that moves at
    all, with the two delta bytes as they come off the wire.  The one
    movement sent has the horizontal delta (the byte read as two's
    complement) as it is, and for the vertical delta: the byte 0x80,
    which stands for -128, goes out as -128, uninverted, because
    [move] takes [int8_t] and the negation wraps; every other byte
    goes out as the exact negation of the delta it stands for, a value
    from -127 to 127. *)
Theorem vertical_inversion (now mstat b1 b2 : Z) (s : state) :
  byte b1 -> byte b2 -> tagged mstat b1 = false -> Z.land mstat 0xC0 = 0 ->
  internal_scrolling s && red_held s mstat = false ->
  (b1 <> 0 \/ b2 <> 0) ->
  moves (snd (loop_report now false mstat b1 b2 s))
  = [Move (signed_byte b1) (if b2 =? 0x80 then -128 else - signed_byte b2) 0]
  /\ (b2 = 0x80 <-> signed_byte b2 = -128)
  /\ (b2 <> 0x80 -> -127 <= signed_byte b2 <= 127).
Proof.
  intros H1 H2 Ht Ho Hn Hnz.
  pose proof (to_int8_signed b1 H1) as E1.
  pose proof (to_int8_signed b2 H2) as E2.
  assert (R1 : -128 <= signed_byte b1 <= 127 /\ (signed_byte b1 = 0 -> b1 = 0)).
  { clear - H1. unfold byte, signed_byte in *. destruct (Z.ltb_spec b1 128); lia. }
  assert (R2 : -128 <= signed_byte b2 <= 127 /\ (signed_byte b2 = 0 -> b2 = 0)
               /\ (b2 = 128 <-> signed_byte b2 = -128)).
  { clear - H2. unfold byte, signed_byte in *. destruct (Z.ltb_spec b2 128); lia. }
  split; [|split; [exact (proj2 (proj2 R2))|]].
  - rewrite loop_report_plain by assumption. cbn [snd].
    rewrite report_motion_move by assumption.
    unfold move_branch. rewrite E1, E2.
    assert (Hc : negb (signed_byte b1 =? 0) || negb (signed_byte b2 =? 0) = true).
    { destruct (Z.eqb_spec (signed_byte b1) 0), (Z.eqb_spec (signed_byte b2) 0);
        try reflexivity. clear Ht Ho Hn E1 E2. lia. }
    rewrite Hc. unfold move, moves. cbn [fst snd List.filter is_move].
    rewrite (to_int8_small (signed_byte b1)) by (clear - R1; lia).
    f_equal. f_equal.
    destruct (Z.eqb_spec b2 128) as [E|Hne]; [rewrite E; vm_compute; reflexivity|].
    apply to_int8_small. clear - R2 Hne. lia.
  - intros Hne. clear - R2 Hne. lia.
Qed.

Lemma vertical_inversion_witness :
  byte 3 /\ byte 0x80 /\ tagged 0x08 3 = false /\ Z.land 0x08 0xC0 = 0
  /\ internal_scrolling boot && red_held boot 0x08 = false
  /\ moves (snd (loop_report 0 false 0x08 3 0x80 boot)) = [Move 3 (-128) 0].
Proof.
  assert (Ha : byte 3) by (unfold byte; lia).
  assert (Hb : byte 0x80) by (unfold byte; lia).
  assert (Hnz : 3 <> 0 \/ 0x80 <> 0) by (left; discriminate).
  do 5 (split; [first [exact Ha | exact Hb | reflexivity]|]).
  destruct (vertical_inversion 0 0x08 3 0x80 boot Ha Hb eq_refl eq_refl eq_refl Hnz)
    as [H _].
  rewrite H. reflexivity.
Defined.

End Scroll.

(** ** The idle timer *)

Section Idle.
Import MyTimer.

Lemma catch_up_more now tm :
  period <= since now tm -> catch_up now tm = catch_up now (tick tm).
Proof.
  intros H. rewrite catch_up_equation_1. simpl.
  destruct (Z_le_dec period (since now tm)); [reflexivity | contradiction].
Qed.

Lemma catch_up_done now tm :
  since now tm < period -> catch_up now tm = tm.
Proof.
  intros H. rewrite catch_up_equation_1. simpl.
  destruct (Z_le_dec period (since now tm)); [lia | reflexivity].
Qed.

Lemma nudges_due_mono e e' : e <= e' -> nudges_due e <= nudges_due e'.
Proof.
  unfold nudges_due, period. intros H. Z.to_euclidean_division_equations; lia.
Qed.

Lemma last_default (r : list Z) a d d' : List.last (a :: r) d = List.last (a :: r) d'.
Proof.
  revert a. induction r as [|b r IH]; intros a; [reflexivity|].
  change (List.last (b :: r) d = List.last (b :: r) d'). apply IH.
Qed.

Lemma last_cons (r : list Z) a d : List.last (a :: r) d = List.last r a.
Proof.
  destruct r as [|b r]; [reflexivity|].
  change (List.last (b :: r) d = List.last (b :: r) a). apply last_default.
Qed.

Lemma paced_last ts : forall t, paced t ts -> t <= List.last ts t.
Proof.
  induction ts as [|a r IH]; intros t Hp; [cbn; lia|].
  destruct Hp as [Ha Hp]. rewrite last_cons. specialize (IH a Hp). lia.
Qed.

(** While the host is suspended a call of [loop] sends nothing. *)
Lemma loop_suspended i s : suspended i = true -> snd (loop i s) = [].
Proof.
  intros Hs. unfold loop. rewrite Hs.
  destruct (report i) as [[[m b1] b2]|].
  - unfold loop_report.
    destruct (ps2pp_decode _ _ _ _) as [ext s1].
    rewrite orb_true_r. reflexivity.
  - unfold loop_jiggle. destruct (action _ _) as [fire tm].
    rewrite andb_false_r. reflexivity.
Qed.

Lemma run_loop_suspended ins :
  forall s, Forall (fun i => suspended i = true) ins -> snd (run_loop ins s) = [].
Proof.
  induction ins as [|i ins IH]; intros s H; [reflexivity|].
  inversion H as [|? ? Hi Hr]; subst. cbn [run_loop].
  pose proof (loop_suspended i s Hi) as E.
  destruct (loop i s) as [s1 ev1]. cbn [snd] in E. subst ev1.
  specialize (IH s1 Hr). destruct (run_loop ins s1) as [s2 ev2].
  cbn [snd] in *. now subst.
Qed.

End Idle.

(** ** Fetching a byte *)

Section Fetch.

Lemma wait_ready_silent n :
  forall bus s,
  Mousebuffer.empty (mbuf s) = true ->
  Forall (fun e => e = []) (firstn n bus) ->
  wait_ready n bus s = (s, skipn n bus).
Proof.
  induction n as [|n IH]; intros bus s He Hb; [reflexivity|].
  cbn [wait_ready]. rewrite He.
  destruct bus as [|e bus]; cbn [List.hd List.tl skipn].
  - change (run_isr [] s) with s.
    rewrite (IH [] s He); [|now rewrite firstn_nil].
    now rewrite skipn_nil.
  - cbn [firstn] in Hb. inversion Hb as [|? ? He0 Hb']; subst.
    change (run_isr [] s) with s. now apply IH.
Qed.

(** A byte completed during the first wait ends the loop at the second test. *)
Lemma wait_ready_two n e rest s :
  Mousebuffer.empty (mbuf s) = true ->
  Mousebuffer.empty (mbuf (run_isr e s)) = false ->
  wait_ready (S (S n)) (e :: rest) s = (run_isr e s, rest).
Proof.
  intros H1 H2.
  change (wait_ready (S (S n)) (e :: rest) s)
    with (if Mousebuffer.empty (mbuf s)
          then wait_ready (S n) rest (run_isr e s) else (s, e :: rest)).
  rewrite H1.
  change (wait_ready (S n) rest (run_isr e s))
    with (if Mousebuffer.empty (mbuf (run_isr e s))
          then wait_ready n (List.tl rest) (run_isr (List.hd [] rest) (run_isr e s))
          else (run_isr e s, rest)).
  now rewrite H2.
Qed.

(** The frame of the byte 0x00 from idle: one byte pushed. *)
Lemma run_isr_zero_frame s :
  idle s -> run_isr zero_frame s = set_mbuf (Mousebuffer.push 0 (mbuf s)) s.
Proof.
  intros Hi. destruct s as [lh xb bt ss sc er mb jt rg].
  unfold idle in Hi; cbn in Hi; subst rg. reflexivity.
Qed.

(** C9: when the mailbox is still empty after the wait of
    [mouse_ready] (200 tests, a millisecond apart), [mouse_read]
    returns 0, and a byte is all it returns; with no edge on the bus
    during the wait the state is as before.  The same 0 comes back
    when the frame of a real 0x00 byte arrives during the wait and that
    byte is pulled from the mailbox, so the caller cannot tell the two
    apart. *)
Theorem mouse_read_timeout (bus : list (list bool)) (s : state) :
  Mousebuffer.empty (mbuf (fst (wait_ready 200 bus s))) = true ->
  fst (fst (mouse_read bus s)) = 0
  /\ (Mousebuffer.empty (mbuf s) = true ->
      Forall (fun e => e = []) (firstn 200 bus) ->
      mouse_read bus s = (0, s, skipn 200 bus))
  /\ (forall s0 rest,
      idle s0 -> Mousebuffer.wf (mbuf s0) -> Mousebuffer.empty (mbuf s0) = true ->
      fst (fst (mouse_read (zero_frame :: rest) s0)) = 0
      /\ Mousebuffer.contents (mbuf (fst (wait_ready 200 (zero_frame :: rest) s0))) = [0]).
Proof.
  intros He. split; [|split].
  - unfold mouse_read, mouse_ready.
    destruct (wait_ready 200 bus s) as [s1 bus1]. cbn [fst] in He.
    rewrite He. reflexivity.
  - intros Hemp Hsilent. unfold mouse_read, mouse_ready.
    rewrite (wait_ready_silent 200 bus s Hemp Hsilent), Hemp. reflexivity.
  - intros s0 rest Hi Hw Hemp.
    assert (Hc : Mousebuffer.count (mbuf s0) = 0%nat)
      by now apply MousebufferFacts.empty_count.
    assert (Hcont : Mousebuffer.contents (Mousebuffer.push 0 (mbuf s0)) = [0]).
    { rewrite MousebufferFacts.contents_push by (assumption || lia).
      unfold Mousebuffer.contents. now rewrite Hc. }
    assert (Hne : Mousebuffer.empty (Mousebuffer.push 0 (mbuf s0)) = false).
    { destruct (Mousebuffer.empty (Mousebuffer.push 0 (mbuf s0))) eqn:E; [|reflexivity].
      apply MousebufferFacts.empty_count in E; [|now apply MousebufferFacts.wf_push].
      rewrite <- MousebufferFacts.length_contents, Hcont in E. discriminate E. }
    assert (Hwait : wait_ready 200 (zero_frame :: rest) s0
                    = (set_mbuf (Mousebuffer.push 0 (mbuf s0)) s0, rest)).
    { rewrite <- (run_isr_zero_frame s0 Hi).
      apply (wait_ready_two 198); [exact Hemp|].
      rewrite (run_isr_zero_frame s0 Hi). exact Hne. }
    unfold mouse_read, mouse_ready. rewrite Hwait. cbn [fst mbuf set_mbuf].
    rewrite Hne. cbn [negb].
    destruct (MousebufferFacts.contents_pull (Mousebuffer.push 0 (mbuf s0)) 0 []
                (MousebufferFacts.wf_push 0 _ Hw) Hcont) as (Hp & _ & _).
    destruct (Mousebuffer.pull _) as [d m]. cbn [fst] in *.
    split; [exact Hp | exact Hcont].
Qed.

Lemma mouse_read_timeout_witness :
  Mousebuffer.empty (mbuf (fst (wait_ready 200 [] boot))) = true
  /\ fst (fst (mouse_read [] boot)) = 0.
Proof.
  assert (H : Mousebuffer.empty (mbuf (fst (wait_ready 200 [] boot))) = true)
    by (vm_compute; reflexivity).
  split; [exact H|]. exact (proj1 (mouse_read_timeout [] boot H)).
Defined.

End Fetch.

Module MousebufferRuns.
Import Mousebuffer MousebufferFacts.

Lemma count_le m : wf m -> (count m <= 15)%nat.
Proof. intros H. zmod. Qed.

Lemma pull_empty m : empty m = true -> pull m = (0, m).
Proof. unfold empty, pull. now intros ->. Qed.

Lemma contents_nil m : wf m -> contents m = [] <-> empty m = true.
Proof.
  intros Hw. rewrite empty_count by assumption.
  rewrite <- length_contents. now destruct (contents m).
Qed.

(** X1: under any run of pushes and pulls, in any order, the mailbox
    behaves as a queue of at most fifteen bytes.  From a buffer whose
    indices are in range, the pulls return what the same run returns on
    a plain list (a push onto fifteen bytes is dropped, a pull from the
    empty list yields 0), the bytes left in the buffer are the bytes
    left in the list, and the indices stay in range. *)
Theorem mailbox_is_queue (ops : list mbuf_op) (m : t) :
  wf m ->
  fst (run_ops ops m) = fst (queue_ops ops (contents m))
  /\ contents (snd (run_ops ops m)) = snd (queue_ops ops (contents m))
  /\ wf (snd (run_ops ops m)).
Proof.
  revert m. induction ops as [|[d|] rest IH]; intros m Hw; cbn [run_ops queue_ops].
  - auto.
  - rewrite length_contents.
    destruct (Nat.ltb_spec (count m) 15) as [L|L].
    + rewrite <- (contents_push d m Hw L). apply IH. now apply wf_push.
    + rewrite (push_full d m Hw) by (pose proof (count_le m Hw); lia).
      now apply IH.
  - destruct (contents m) as [|x r] eqn:E.
    + assert (He : empty m = true) by now apply contents_nil.
      rewrite (pull_empty m He). cbn [List.hd List.tl].
      rewrite <- E. specialize (IH m Hw).
      destruct (run_ops rest m) as [o m2], (queue_ops rest (contents m)) as [o' q'].
      cbn [fst snd] in *. destruct IH as (-> & -> & ?). auto.
    + destruct (contents_pull m x r Hw E) as (Hx & Hw1 & Hr).
      destruct (pull m) as [y m1]. cbn [fst snd List.hd List.tl] in *. subst y.
      rewrite <- Hr. specialize (IH m1 Hw1).
      destruct (run_ops rest m1) as [o m2], (queue_ops rest (contents m1)) as [o' q'].
      cbn [fst snd] in *. destruct IH as (-> & -> & ?). auto.
Qed.

Lemma mailbox_is_queue_witness :
  wf init
  /\ fst (run_ops [Pull; Push 7; Push 9; Pull; Pull; Pull] init) = [0; 7; 9; 0].
Proof.
  split; [apply wf_init|].
  exact (proj1 (mailbox_is_queue [Pull; Push 7; Push 9; Pull; Pull; Pull] init wf_init)).
Defined.

(** X2: reset empties the mailbox whatever it held and wherever its
    indices were, in range or not, given only that the array has its
    sixteen cells: afterwards the indices are in range, the buffer holds
    nothing, and up to fifteen bytes pushed come back from as many pulls
    in the order pushed. *)
Theorem reset_forgets (m : t) (l : list Z) :
  length (buf m) = 16%nat -> (length l <= 15)%nat ->
  wf (reset m) /\ empty (reset m) = true /\ contents (reset m) = []
  /\ fst (pull_n (length l) (push_all l (reset m))) = l.
Proof.
  intros Hb Hl.
  assert (Hw : wf (reset m)).
  { unfold wf, reset, MBUF_SIZE; simpl. lia. }
  assert (Hc : contents (reset m) = []) by reflexivity.
  repeat split; try apply Hw; try reflexivity.
  destruct (contents_push_all l (reset m) Hw) as [Hw' Hc'].
  - unfold count, reset; simpl. lia.
  - rewrite Hc in Hc'. simpl in Hc'.
    exact (proj1 (pull_n_contents l _ Hw' Hc')).
Qed.

Lemma reset_forgets_witness :
  length (buf (push_all [1; 2; 3] init)) = 16%nat /\ (length [4; 5] <= 15)%nat
  /\ fst (pull_n 2 (push_all [4; 5] (reset (push_all [1; 2; 3] init)))) = [4; 5].
Proof.
  split; [reflexivity|]. split; [simpl; lia|].
  refine (proj2 (proj2 (proj2 (reset_forgets (push_all [1; 2; 3] init) [4; 5] eq_refl _)))).
  simpl; lia.
Defined.

End MousebufferRuns.

Section ReceiverRuns.

Lemma run_edges_low es : forall s, run_edges es s = run_isr (low_samples es) s.
Proof.
  induction es as [|[c d] es IH]; intros s; [reflexivity|].
  change (run_edges ((c, d) :: es) s) with (run_edges es (ps2_ISR c d s)).
  destruct c.
  - change (ps2_ISR true d s) with s. apply IH.
  - change (low_samples ((false, d) :: es)) with (d :: low_samples es).
    rewrite run_isr_cons. apply IH.
Qed.

Lemma shift_in_byte d :
  byte d -> byte (Z.shiftr d 1) /\ byte (Z.lor (Z.shiftr d 1) 0x80).
Proof.
  intros Hd.
  pose proof (byte_cases
    (fun d => (0 <=? Z.shiftr d 1) && (Z.shiftr d 1 <? 256)
              && (0 <=? Z.lor (Z.shiftr d 1) 0x80) && (Z.lor (Z.shiftr d 1) 0x80 <? 256))
    ltac:(vm_compute; reflexivity) d Hd) as H.
  cbv beta in H.
  apply andb_prop in H as [H H4]. apply andb_prop in H as [H H3].
  apply andb_prop in H as [H1 H2].
  unfold byte. lia.
Qed.

(** An edge at a data position. *)
Lemma isr_data_edge sample x d p s :
  isr s = mkRegs x d p -> START <= x < BIT7 ->
  ps2_ISR false sample s =
    set_isr (mkRegs (x + 1) (if sample then Z.lor (Z.shiftr d 1) 0x80 else Z.shiftr d 1)
                    (if sample then negb p else p)) s.
Proof.
  unfold START, BIT7. intros H Hx. unfold ps2_ISR. rewrite H. cbn [bit data parity].
  assert (Hin : In x [1; 2; 3; 4; 5; 6; 7; 8]) by (simpl; lia).
  repeat (destruct Hin as [<-|Hin]; [destruct sample, p; reflexivity|]).
  destruct Hin.
Qed.

(** An edge at the start position, whatever the accumulator holds. *)
Lemma isr_first_edge sample d p s :
  isr s = mkRegs NONE d p ->
  ps2_ISR false sample s =
    if sample then isr_error START s else set_isr (mkRegs START d p) s.
Proof. intros H. unfold ps2_ISR. rewrite H. destruct sample; reflexivity. Qed.

Lemma isr_ok_edge c d s :
  isr_ok s ->
  isr_ok (ps2_ISR c d s)
  /\ (ps2_error (ps2_ISR c d s) = ps2_error s \/ 1 <= ps2_error (ps2_ISR c d s) <= 11).
Proof.
  intros (Hb & Hd & Hw). destruct c; [change (ps2_ISR true d s) with s; unfold isr_ok; tauto|].
  destruct (isr s) as [x a p] eqn:E. cbn [bit data] in Hb, Hd.
  unfold START, BIT7, PARITY, STOP, NONE in *.
  destruct (shift_in_byte a Hd) as [S1 S2].
  assert (Hx : x = 0 \/ 1 <= x < 9 \/ x = 9 \/ x = 10) by lia.
  destruct Hx as [ -> | [ Hx | [ -> | -> ] ] ].
  - rewrite (isr_first_edge d a p s E).
    destruct d; unfold isr_ok, isr_error, isr_done, START, STOP, NONE; cbn;
      (split; [split; [lia | split; [first [exact Hd | unfold byte; lia] | exact Hw]]|]);
      first [left; reflexivity | right; lia].
  - rewrite (isr_data_edge d x a p s E) by (unfold START, BIT7; lia).
    unfold isr_ok, STOP; cbn.
    split; [split; [lia | split; [destruct d; [exact S2 | exact S1] | exact Hw]]|].
    left; reflexivity.
  - rewrite (isr_parity_edge d a p s E).
    destruct (Bool.eqb d p); unfold isr_ok, isr_error, isr_done, PARITY, STOP, NONE; cbn;
      (split; [split; [lia | split; [first [exact Hd | unfold byte; lia] | exact Hw]]|]);
      first [left; reflexivity | right; lia].
  - rewrite (isr_stop_edge d a p s E).
    destruct d; unfold isr_ok, isr_error, isr_done, PARITY, STOP, NONE; cbn;
      (split; [split; [lia | split; [first [exact Hd | unfold byte; lia]
                                    | first [exact Hw | apply MousebufferFacts.wf_push; exact Hw]]]|]);
      first [left; reflexivity | right; lia].
Qed.

(** X3: whatever edges arrive, any number of them, with any data levels
    and with the clock found high or low, the receiver stays in order:
    the bit counter below the stop position, the accumulator a byte, the
    mailbox indices in range.  ps2_error is then as it was or the number
    (1 to 11) of a bit position at which a frame was rejected, and an
    error that is flagged is never cleared by the routine. *)
Theorem isr_keeps_ok (es : list (bool * bool)) (s : state) :
  isr_ok s ->
  isr_ok (run_edges es s)
  /\ (ps2_error (run_edges es s) = ps2_error s \/ 1 <= ps2_error (run_edges es s) <= 11)
  /\ (ps2_error s <> 0 -> ps2_error (run_edges es s) <> 0).
Proof.
  revert s. induction es as [|[c d] es IH]; intros s Hok.
  - cbn. tauto.
  - change (run_edges ((c, d) :: es) s) with (run_edges es (ps2_ISR c d s)).
    destruct (isr_ok_edge c d s Hok) as [Hok1 He1].
    destruct (IH _ Hok1) as (Hok2 & He2 & Hn2).
    split; [exact Hok2|]. split; [|intros Hne; apply Hn2]; lia.
Qed.

Lemma isr_ok_at_boot : isr_ok boot.
Proof.
  unfold isr_ok, byte, STOP. cbn. split; [lia|]. split; [lia|].
  apply MousebufferFacts.wf_init.
Qed.

Lemma isr_keeps_ok_witness :
  isr_ok boot /\ isr_ok (run_edges [(false, true); (true, false); (false, false)] boot).
Proof.
  split; [exact isr_ok_at_boot|].
  exact (proj1 (isr_keeps_ok [(false, true); (true, false); (false, false)] boot
                  isr_ok_at_boot)).
Defined.

Lemma idle_set_ps2_error e s : idle s -> idle (set_ps2_error e s).
Proof. unfold idle. now cbn [isr set_ps2_error]. Qed.

Lemma idle_set_mbuf m s : idle s -> idle (set_mbuf m s).
Proof. unfold idle. now cbn [isr set_mbuf]. Qed.

Lemma isr_error_idle e s : idle s -> isr_error e s = set_ps2_error e s.
Proof.
  intros Hi. destruct s; unfold idle in Hi; cbn in Hi; subst. reflexivity.
Qed.

Lemma run_isr_frame st d p t s :
  run_isr (frame st d p t) s = ps2_ISR false t (ps2_ISR false p (run_isr (st :: d) s)).
Proof.
  unfold frame. change (st :: d ++ [p; t]) with ((st :: d) ++ [p] ++ [t]).
  now rewrite !run_isr_app, !run_isr_one.
Qed.

(** Eleven edges of a well-formed frame, bit list by bit list. *)
Lemma isr_good_frame (d : list bool) (s : state) :
  idle s -> length d = 8%nat ->
  run_isr (frame false d (odd_parity_bit d) true) s
  = set_mbuf (Mousebuffer.push (byte_of_bits d) (mbuf s)) s.
Proof.
  intros Hi Hl. rewrite run_isr_frame, (isr_data_bits d s Hi Hl).
  rewrite (isr_parity_edge _ (byte_of_bits d) (Nat.odd (ones d))
             (set_isr (mkRegs BIT7 (byte_of_bits d) (Nat.odd (ones d))) s) eq_refl).
  unfold odd_parity_bit. rewrite eqb_even_odd.
  rewrite (isr_stop_edge true (byte_of_bits d) (Nat.odd (ones d))) by reflexivity.
  destruct s; unfold idle in Hi; cbn in Hi; subst; reflexivity.
Qed.

(** X4: of eleven falling edges that find the receiver between frames,
    only a well-formed frame (start bit 0, odd parity, stop bit 1) puts
    a byte into the mailbox, and the byte is the one its eight data bits
    spell; any other eleven samples leave the mailbox as it was and flag
    an error. *)
Theorem isr_pushes_only_valid (fr : list bool) (s : state) :
  idle s -> length fr = 11%nat ->
  (mbuf (run_isr fr s) = mbuf s /\ ps2_error (run_isr fr s) <> 0)
  \/ (exists d, length d = 8%nat /\ fr = frame false d (odd_parity_bit d) true
       /\ run_isr fr s = set_mbuf (Mousebuffer.push (byte_of_bits d) (mbuf s)) s).
Proof.
  intros Hi Hl.
  destruct fr as [|s0 [|d0 [|d1 [|d2 [|d3 [|d4 [|d5 [|d6 [|d7 [|p [|t [|? ?]]]]]]]]]]]];
    try discriminate Hl. clear Hl.
  set (d := [d0; d1; d2; d3; d4; d5; d6; d7]).
  assert (Hd : length d = 8%nat) by reflexivity.
  change [s0; d0; d1; d2; d3; d4; d5; d6; d7; p; t] with (s0 :: d ++ [p; t]).
  destruct s0.
  - (* bad start bit *)
    left. rewrite run_isr_cons, (isr_start_edge true s Hi), (isr_error_idle _ s Hi).
    destruct (isr_early (d ++ [p; t]) (set_ps2_error START s)) as [Hm He].
    + cbn [isr set_ps2_error]. rewrite Hi. unfold NONE. cbn [bit]. lia.
    + cbn [isr set_ps2_error]. rewrite Hi, length_app, Hd. unfold NONE, PARITY.
      cbn [bit length]. lia.
    + split; [exact Hm | apply He; discriminate].
  - destruct (Bool.eqb p (Nat.odd (ones d))) eqn:Ep.
    + (* bad parity *)
      left. change (false :: d ++ [p; t]) with (frame false d p t).
      rewrite run_isr_frame, (isr_data_bits d s Hi Hd).
      rewrite (isr_parity_edge p (byte_of_bits d) (Nat.odd (ones d))
                 (set_isr (mkRegs BIT7 (byte_of_bits d) (Nat.odd (ones d))) s) eq_refl).
      rewrite Ep.
      assert (Hq : isr_error PARITY (set_isr (mkRegs BIT7 (byte_of_bits d) (Nat.odd (ones d))) s)
                   = set_ps2_error PARITY s).
      { destruct s; unfold idle in Hi; cbn in Hi; subst; reflexivity. }
      rewrite Hq.
      rewrite (isr_start_edge t _ (idle_set_ps2_error PARITY s Hi)).
      destruct t.
      * rewrite (isr_error_idle _ _ (idle_set_ps2_error PARITY s Hi)).
        split; [reflexivity | discriminate].
      * split; [reflexivity | discriminate].
    + assert (Hp : p = odd_parity_bit d).
      { unfold odd_parity_bit. rewrite <- Nat.negb_odd.
        destruct p, (Nat.odd (ones d)); try reflexivity; discriminate. }
      subst p. destruct t.
      * right. exists d. split; [exact Hd|]. split; [reflexivity|].
        now apply isr_good_frame.
      * (* bad stop bit *)
        left. change (false :: d ++ [odd_parity_bit d; false])
          with (frame false d (odd_parity_bit d) false).
        rewrite run_isr_frame, (isr_data_bits d s Hi Hd).
        rewrite (isr_parity_edge _ (byte_of_bits d) (Nat.odd (ones d))
                   (set_isr (mkRegs BIT7 (byte_of_bits d) (Nat.odd (ones d))) s) eq_refl).
        unfold odd_parity_bit. rewrite eqb_even_odd.
        rewrite (isr_stop_edge false (byte_of_bits d) (Nat.odd (ones d))) by reflexivity.
        split; [reflexivity | discriminate].
Qed.

Lemma isr_pushes_only_valid_witness :
  idle boot /\ length (frame false (bits_of_byte 0x5A) true true) = 11%nat
  /\ (mbuf (run_isr (frame false (bits_of_byte 0x5A) true true) boot) = mbuf boot
      \/ exists d, length d = 8%nat
           /\ frame false (bits_of_byte 0x5A) true true = frame false d (odd_parity_bit d) true
           /\ run_isr (frame false (bits_of_byte 0x5A) true true) boot
              = set_mbuf (Mousebuffer.push (byte_of_bits d) (mbuf boot)) boot).
Proof.
  split; [exact idle_boot|]. split; [reflexivity|].
  destruct (isr_pushes_only_valid (frame false (bits_of_byte 0x5A) true true) boot
              idle_boot eq_refl) as [[H _]|H]; [left; exact H | right; exact H].
Defined.

Lemma push_all_app a b m :
  Mousebuffer.push_all (a ++ b) m = Mousebuffer.push_all b (Mousebuffer.push_all a m).
Proof. unfold Mousebuffer.push_all. apply fold_left_app. Qed.

(** Frames one after the other. *)
Lemma isr_frames (l : list Z) :
  forall s, Forall byte l -> idle s ->
  run_isr (concat (map frame_of_byte l)) s = set_mbuf (Mousebuffer.push_all l (mbuf s)) s.
Proof.
  induction l as [|b l IH]; intros s Hb Hi.
  - destruct s; reflexivity.
  - inversion Hb as [|? ? Hb1 Hb2]; subst.
    cbn [map concat]. rewrite run_isr_app.
    change (frame_of_byte b)
      with (frame false (bits_of_byte b) (odd_parity_bit (bits_of_byte b)) true).
    rewrite (isr_good_frame (bits_of_byte b) s Hi (bits_of_byte_length b)).
    rewrite (byte_of_bits_of_byte b Hb1).
    rewrite (IH _ Hb2 (idle_set_mbuf _ s Hi)). reflexivity.
Qed.

(** X5: well-formed frames one after the other, with any number of
    interrupts in between that find the clock high, are received as
    their bytes in order: the globals are as after pushing the bytes one
    by one and nothing else, and while they fit (at most fifteen
    buffered) the buffered bytes are the old ones followed by the new. *)
Theorem isr_decodes_stream (l : list Z) (es : list (bool * bool)) (s : state) :
  Forall byte l -> idle s -> low_samples es = concat (map frame_of_byte l) ->
  run_edges es s = set_mbuf (Mousebuffer.push_all l (mbuf s)) s
  /\ (Mousebuffer.wf (mbuf s) ->
      (Mousebuffer.count (mbuf s) + length l <= 15)%nat ->
      Mousebuffer.contents (mbuf (run_edges es s)) = Mousebuffer.contents (mbuf s) ++ l).
Proof.
  intros Hb Hi He.
  assert (Hrun : run_edges es s = set_mbuf (Mousebuffer.push_all l (mbuf s)) s).
  { rewrite run_edges_low, He. now apply isr_frames. }
  split; [exact Hrun|].
  intros Hw Hc. rewrite Hrun. cbn [mbuf set_mbuf].
  exact (proj2 (MousebufferFacts.contents_push_all l (mbuf s) Hw Hc)).
Qed.

Lemma isr_decodes_stream_witness :
  run_edges sample_edges boot
  = set_mbuf (Mousebuffer.push_all [0x08; 0x05] (mbuf boot)) boot.
Proof.
  apply (isr_decodes_stream [0x08; 0x05] sample_edges boot).
  - constructor; [unfold byte; lia|]. constructor; [unfold byte; lia|]. constructor.
  - exact idle_boot.
  - vm_compute. reflexivity.
Defined.

End ReceiverRuns.

Section FetchRuns.

Lemma wait_ready_arrival e rest s :
  Mousebuffer.empty (mbuf s) = true ->
  Mousebuffer.empty (mbuf (run_isr e s)) = false ->
  forall k n, (k < n)%nat ->
  wait_ready n (repeat [] k ++ e :: rest) s = (run_isr e s, rest).
Proof.
  intros He Hne. induction k as [|k IH]; intros n Hk.
  - destruct n as [|n]; [lia|]. cbn [repeat app wait_ready List.hd List.tl].
    rewrite He. destruct n as [|n]; [reflexivity|].
    cbn [wait_ready]. now rewrite Hne.
  - destruct n as [|n]; [lia|]. cbn [repeat app wait_ready List.hd List.tl].
    rewrite He. change (run_isr [] s) with s. apply IH. lia.
Qed.

Lemma firstn_silent (l : list (list bool)) n :
  forall k, (n <= k)%nat -> firstn n (repeat [] k ++ l) = repeat [] n.
Proof.
  induction n as [|n IH]; intros k Hk; [reflexivity|].
  destruct k as [|k]; [lia|]. cbn [repeat app firstn]. now rewrite IH by lia.
Qed.

Lemma skipn_silent (l : list (list bool)) n :
  forall k, (n <= k)%nat -> skipn n (repeat [] k ++ l) = repeat [] (k - n) ++ l.
Proof.
  induction n as [|n IH]; intros k Hk; [now rewrite Nat.sub_0_r|].
  destruct k as [|k]; [lia|]. cbn [repeat app skipn]. now rewrite IH by lia.
Qed.

Lemma frame_arrives b s :
  byte b -> idle s -> Mousebuffer.wf (mbuf s) -> Mousebuffer.empty (mbuf s) = true ->
  run_isr (frame_of_byte b) s = set_mbuf (Mousebuffer.push b (mbuf s)) s
  /\ Mousebuffer.contents (Mousebuffer.push b (mbuf s)) = [b]
  /\ Mousebuffer.empty (Mousebuffer.push b (mbuf s)) = false.
Proof.
  intros Hb Hi Hw He.
  assert (Hc : Mousebuffer.count (mbuf s) = 0%nat) by now apply MousebufferFacts.empty_count.
  assert (Hcont : Mousebuffer.contents (Mousebuffer.push b (mbuf s)) = [b]).
  { rewrite MousebufferFacts.contents_push by (assumption || lia).
    unfold Mousebuffer.contents. now rewrite Hc. }
  split; [|split; [exact Hcont|]].
  - unfold frame_of_byte.
    rewrite (isr_good_frame (bits_of_byte b) s Hi (bits_of_byte_length b)).
    now rewrite (byte_of_bits_of_byte b Hb).
  - destruct (Mousebuffer.empty (Mousebuffer.push b (mbuf s))) eqn:E; [|reflexivity].
    apply MousebufferFacts.empty_count in E; [|now apply MousebufferFacts.wf_push].
    rewrite <- MousebufferFacts.length_contents, Hcont in E. discriminate E.
Qed.

(** X6: mouse_read and a frame that arrives after k silent
    milliseconds, with the receiver between frames and the mailbox
    empty.  For k < 200 the call returns the byte of the frame, has used
    up the traffic up to and including the frame, and leaves the mailbox
    empty; for k >= 200 it returns 0 with the globals unchanged, and the
    frame is still to come, k - 200 milliseconds later. *)
Theorem mouse_read_arrival (b : Z) (k : nat) (rest : list (list bool)) (s : state) :
  byte b -> idle s -> Mousebuffer.wf (mbuf s) -> Mousebuffer.empty (mbuf s) = true ->
  let bus := repeat [] k ++ frame_of_byte b :: rest in
  ((k < 200)%nat ->
     fst (fst (mouse_read bus s)) = b
     /\ snd (mouse_read bus s) = rest
     /\ Mousebuffer.empty (mbuf (snd (fst (mouse_read bus s)))) = true)
  /\ ((200 <= k)%nat ->
     mouse_read bus s = (0, s, repeat [] (k - 200) ++ frame_of_byte b :: rest)).
Proof.
  intros Hb Hi Hw He bus.
  destruct (frame_arrives b s Hb Hi Hw He) as (Hf & Hc & Hne).
  split; intros Hk.
  - unfold mouse_read, mouse_ready, bus.
    rewrite (wait_ready_arrival (frame_of_byte b) rest s He) by (rewrite ?Hf; assumption).
    rewrite Hf. cbn [mbuf set_mbuf]. rewrite Hne. cbn [negb].
    destruct (MousebufferFacts.contents_pull (Mousebuffer.push b (mbuf s)) b []
                (MousebufferFacts.wf_push b _ Hw) Hc) as (Hp & Hw' & Hr).
    destruct (Mousebuffer.pull _) as [x m]. cbn [fst snd mbuf set_mbuf] in *.
    split; [exact Hp|]. split; [reflexivity|].
    apply MousebufferFacts.empty_count; [exact Hw'|].
    now rewrite <- MousebufferFacts.length_contents, Hr.
  - unfold mouse_read, mouse_ready, bus.
    rewrite (wait_ready_silent 200 _ s He).
    + rewrite He. cbn [negb]. now rewrite skipn_silent.
    + rewrite firstn_silent by assumption.
      apply List.Forall_forall. intros x Hx. now apply repeat_spec in Hx.
Qed.

Lemma mouse_read_arrival_witness :
  fst (fst (mouse_read (repeat [] 3 ++ [frame_of_byte 0xFA]) boot)) = 0xFA
  /\ snd (mouse_read (repeat [] 3 ++ [frame_of_byte 0xFA]) boot) = []
  /\ Mousebuffer.empty
       (mbuf (snd (fst (mouse_read (repeat [] 3 ++ [frame_of_byte 0xFA]) boot)))) = true.
Proof.
  apply (mouse_read_arrival 0xFA 3 [] boot).
  - unfold byte; lia.
  - exact idle_boot.
  - exact MousebufferFacts.wf_init.
  - reflexivity.
  - lia.
Defined.

End FetchRuns.

Section ButtonRuns.

Lemma map_test_all mstat xtra : byte mstat -> byte xtra -> map_test mstat xtra = true.
Proof. apply byte_cases2. vm_compute. reflexivity. Qed.

(** X7: map_buttons bit by bit.  The result has bits in 0x17 only.
    Right-handed, bits 0 and 1 are bits 0 and 1 of the status byte, bit 2
    is bit 2 of the status byte or bit 5 of the extra buttons, and bit 4
    is bit 4 of the extra buttons; left-handed, bits 0 and 1 change
    places, bit 2 is bit 4 of the extra buttons and bit 4 is bit 5 of the
    extra buttons. *)
Theorem map_buttons_bits (lh : bool) (mstat xtra : Z) :
  byte mstat -> byte xtra ->
  let r := map_buttons lh mstat xtra in
  Z.land r 0x17 = r
  /\ Z.testbit r 0 = Z.testbit mstat (if lh then 1 else 0)
  /\ Z.testbit r 1 = Z.testbit mstat (if lh then 0 else 1)
  /\ Z.testbit r 2 = (if lh then Z.testbit xtra 4 else Z.testbit mstat 2 || Z.testbit xtra 5)
  /\ Z.testbit r 4 = Z.testbit xtra (if lh then 5 else 4).
Proof.
  intros Hm Hx. pose proof (map_test_all mstat xtra Hm Hx) as H.
  unfold map_test in H. cbv zeta in H.
  repeat (apply andb_prop in H; destruct H as [H ?]).
  repeat match goal with
         | K : Bool.eqb _ _ = true |- _ => apply Bool.eqb_prop in K
         | K : (_ =? _) = true |- _ => apply Z.eqb_eq in K
         end.
  destruct lh; cbv zeta; repeat split; assumption.
Qed.

Lemma map_buttons_bits_witness :
  byte 0x0B /\ byte 0x20
  /\ Z.testbit (map_buttons true 0x0B 0x20) 4 = Z.testbit 0x20 5.
Proof.
  assert (Hm : byte 0x0B) by (unfold byte; lia).
  assert (Hx : byte 0x20) by (unfold byte; lia).
  split; [exact Hm|]. split; [exact Hx|].
  exact (proj2 (proj2 (proj2 (proj2 (map_buttons_bits true 0x0B 0x20 Hm Hx))))).
Defined.

Lemma edge_same x m : edge x x m = [].
Proof. now destruct x. Qed.

Lemma clicks_app a b : clicks (a ++ b) = clicks a ++ clicks b.
Proof. unfold clicks. apply List.filter_app. Qed.

(** The pass over four buttons, spelled out. *)
Lemma handle_buttons_spec btn s b0 b1 b2 b3 :
  buttons s = [b0; b1; b2; b3] ->
  handle_buttons btn s =
    (set_buttons [mapped btn 0; mapped btn 1; mapped btn 2;
                  if internal_scrolling s then b3 else mapped btn 3] s,
     edge b0 (mapped btn 0) 0x01 ++ edge b1 (mapped btn 1) 0x02
     ++ edge b2 (mapped btn 2) 0x04
     ++ (if internal_scrolling s then [] else edge b3 (mapped btn 3) 0x08)).
Proof.
  intros Hb. destruct s as [lh xb bt ss sc er mb jt rg]. cbn in Hb. subst bt.
  unfold handle_buttons, button_step, mapped, edge. cbn [fold_left fst snd].
  destruct sc; cbn; rewrite ?app_nil_r, ?app_assoc; reflexivity.
Qed.

End ButtonRuns.

Section LoopRuns.

(** Either branch of the motion handling touches the accumulator and the
    idle timer only; the timer is restarted exactly when a movement goes
    out, and one movement at most does. *)
Lemma scroll_branch_frame now my s :
  let r := scroll_branch now my s in
  set_scroll_sum (scroll_sum s) (set_jiggletimer (jiggletimer s) (fst r)) = s
  /\ ((snd r = [] /\ jiggletimer (fst r) = jiggletimer s)
      \/ (exists z, snd r = [Move 0 0 z]
          /\ jiggletimer (fst r) = MyTimer.reset now (jiggletimer s))).
Proof.
  unfold scroll_branch.
  destruct (negb (truthy _)); cbn [fst snd scroll_sum set_scroll_sum];
    destruct (negb (_ =? 0)); unfold move; cbn; (split; [now destruct s|]);
    first [left; split; reflexivity | right; eexists; split; reflexivity].
Qed.

Lemma move_branch_frame now mx my s :
  let r := move_branch now mx my s in
  set_scroll_sum (scroll_sum s) (set_jiggletimer (jiggletimer s) (fst r)) = s
  /\ scroll_sum (fst r) = 0
  /\ ((snd r = [] /\ jiggletimer (fst r) = jiggletimer s)
      \/ (exists x y, snd r = [Move x y 0]
          /\ jiggletimer (fst r) = MyTimer.reset now (jiggletimer s))).
Proof.
  unfold move_branch.
  destruct (negb (mx =? 0) || negb (my =? 0)); unfold move; cbn;
    (split; [now destruct s|]); (split; [reflexivity|]);
    first [left; split; reflexivity | right; eexists; eexists; split; reflexivity].
Qed.

Lemma scroll_branch_acc now my s :
  -128 <= my <= 127 -> -8 < scroll_sum s < 8 ->
  -8 < scroll_sum (fst (scroll_branch now my s)) < 8.
Proof.
  intros Hmy Ha.
  destruct (scroll_branch_cases now my s Hmy) as (C1 & C2 & C3).
  destruct (Z.eq_dec (Z.quot my 8) 0) as [E|E].
  - assert (Hs : -8 < my < 8) by (Z.to_euclidean_division_equations; lia).
    assert (Hw : to_int8 (scroll_sum s + my) = scroll_sum s + my)
      by (apply to_int8_small; lia).
    rewrite Hw in C2, C3.
    destruct (Z.eq_dec (Z.quot (scroll_sum s + my) 8) 0) as [F|F].
    + rewrite C3 by assumption. cbn. Z.to_euclidean_division_equations; lia.
    + rewrite C2 by assumption. cbn. lia.
  - rewrite C1 by assumption. cbn. lia.
Qed.

Lemma frame_fields s s2 :
  set_scroll_sum (scroll_sum s) (set_jiggletimer (jiggletimer s) s2) = s ->
  lefthanded s2 = lefthanded s /\ xtrabutton s2 = xtrabutton s
  /\ buttons s2 = buttons s /\ internal_scrolling s2 = internal_scrolling s
  /\ ps2_error s2 = ps2_error s /\ mbuf s2 = mbuf s /\ isr s2 = isr s.
Proof.
  intros H.
  pose proof (f_equal lefthanded H). pose proof (f_equal xtrabutton H).
  pose proof (f_equal buttons H). pose proof (f_equal internal_scrolling H).
  pose proof (f_equal ps2_error H). pose proof (f_equal mbuf H).
  pose proof (f_equal isr H). cbn in *. tauto.
Qed.

Lemma clicks_one_move x y z : clicks [Move x y z] = [].
Proof. reflexivity. Qed.

Lemma moves_edge a b m : moves (edge a b m) = [].
Proof. unfold edge. destruct a, b; reflexivity. Qed.

Lemma clicks_edge a b m : clicks (edge a b m) = edge a b m.
Proof. unfold edge. destruct a, b; reflexivity. Qed.

(** A report taken as motion, field by field. *)
Lemma report_motion_frame now mstat mx my s b0 b1 b2 b3 :
  buttons s = [b0; b1; b2; b3] ->
  let btn := map_buttons (lefthanded s) mstat (xtrabutton s) in
  let r := report_motion now mstat mx my s in
  (lefthanded (fst r) = lefthanded s /\ xtrabutton (fst r) = xtrabutton s
   /\ internal_scrolling (fst r) = internal_scrolling s
   /\ ps2_error (fst r) = ps2_error s /\ mbuf (fst r) = mbuf s /\ isr (fst r) = isr s)
  /\ buttons (fst r) = [mapped btn 0; mapped btn 1; mapped btn 2;
                        if internal_scrolling s then b3 else mapped btn 3]
  /\ clicks (snd r) = edge b0 (mapped btn 0) 0x01 ++ edge b1 (mapped btn 1) 0x02
                       ++ edge b2 (mapped btn 2) 0x04
                       ++ (if internal_scrolling s then [] else edge b3 (mapped btn 3) 0x08)
  /\ ((moves (snd r) = [] /\ jiggletimer (fst r) = jiggletimer s)
      \/ (exists x y z, moves (snd r) = [Move x y z]
           /\ jiggletimer (fst r) = MyTimer.reset now (jiggletimer s))).
Proof.
  intros Hb btn r. unfold r, report_motion. fold btn.
  set (br := if internal_scrolling s && truthy (Z.land btn (bimask !!! 3%nat))
             then scroll_branch now my s else move_branch now mx my s).
  assert (Hbr : set_scroll_sum (scroll_sum s) (set_jiggletimer (jiggletimer s) (fst br)) = s
                /\ ((snd br = [] /\ jiggletimer (fst br) = jiggletimer s)
                    \/ (exists x y z, snd br = [Move x y z]
                         /\ jiggletimer (fst br) = MyTimer.reset now (jiggletimer s)))).
  { unfold br. destruct (internal_scrolling s && _).
    - destruct (scroll_branch_frame now my s) as [A [B|[z B]]];
        (split; [exact A|]); [left; exact B | right; exists 0, 0, z; exact B].
    - destruct (move_branch_frame now mx my s) as [A [_ [B|[x [y B]]]]];
        (split; [exact A|]); [left; exact B | right; exists x, y, 0; exact B]. }
  destruct br as [s2 ev2]. cbn [fst snd] in Hbr. destruct Hbr as [Hf Hm].
  destruct (frame_fields s s2 Hf) as (F1 & F2 & F3 & F4 & F5 & F6 & F7).
  rewrite (handle_buttons_spec btn s2 b0 b1 b2 b3) by (now rewrite F3).
  cbn [fst snd lefthanded xtrabutton internal_scrolling ps2_error mbuf isr buttons
       jiggletimer set_buttons].
  rewrite F4. split; [tauto|]. split; [reflexivity|]. split.
  - rewrite clicks_app.
    assert (Hc : clicks ev2 = []).
    { destruct Hm as [[-> _]|(x & y & z & -> & _)]; reflexivity. }
    rewrite Hc. cbn [app]. rewrite !clicks_app, !clicks_edge.
    destruct (internal_scrolling s); [reflexivity | now rewrite clicks_edge].
  - assert (Hz : moves (edge b0 (mapped btn 0) 1 ++ edge b1 (mapped btn 1) 2
                        ++ edge b2 (mapped btn 2) 4
                        ++ (if internal_scrolling s then [] else edge b3 (mapped btn 3) 8)) = []).
    { rewrite !moves_app, !moves_edge. destruct (internal_scrolling s); [reflexivity|].
      now rewrite moves_edge. }
    rewrite moves_app, Hz, app_nil_r.
    destruct Hm as [[-> Hj]|(x & y & z & -> & Hj)].
    + left. split; [reflexivity | exact Hj].
    + right. exists x, y, z. split; [reflexivity | exact Hj].
Qed.

End LoopRuns.

Section LoopRuns2.

(** X8: button events are sent on changes only.  After one report has
    been handled the remembered state of the three ordinary buttons is
    the mapped button set (and that of the red button too, when
    scrolling is not internal), and a second report with the same status
    byte sends no press and no release, whatever movement it carries. *)
Theorem buttons_settle (now now' mstat mx my mx' my' : Z) (s : state) :
  length (buttons s) = 4%nat ->
  let btn := map_buttons (lefthanded s) mstat (xtrabutton s) in
  let r1 := report_motion now mstat mx my s in
  let r2 := report_motion now' mstat mx' my' (fst r1) in
  (forall i, (i < 3)%nat -> buttons (fst r1) !!! i = mapped btn i)
  /\ (internal_scrolling s = false -> buttons (fst r1) !!! 3%nat = mapped btn 3)
  /\ clicks (snd r2) = [].
Proof.
  intros Hl btn r1 r2.
  destruct (buttons s) as [|b0 [|b1 [|b2 [|b3 [|? ?]]]]] eqn:Hb; try discriminate Hl.
  destruct (report_motion_frame now mstat mx my s b0 b1 b2 b3 Hb)
    as ((L1 & X1 & I1 & _) & B1 & _ & _).
  fold btn r1 in L1, X1, I1, B1.
  destruct (report_motion_frame now' mstat mx' my' (fst r1) _ _ _ _ B1)
    as (_ & _ & C2 & _).
  fold r2 in C2. rewrite L1, X1, I1 in C2. fold btn in C2.
  split; [|split].
  - intros i Hi. rewrite B1.
    destruct i as [|[|[|i]]]; try reflexivity. lia.
  - intros Hn. rewrite B1, Hn. reflexivity.
  - rewrite C2, !edge_same. destruct (internal_scrolling s); [reflexivity|].
    now rewrite edge_same.
Qed.

Lemma buttons_settle_witness :
  length (buttons boot) = 4%nat
  /\ clicks (snd (report_motion 0 0x09 1 1 boot)) = [Press 1]
  /\ clicks (snd (report_motion 5 0x09 2 2 (fst (report_motion 0 0x09 1 1 boot)))) = [].
Proof.
  split; [reflexivity|]. split; [reflexivity|].
  exact (proj2 (proj2 (buttons_settle 0 5 0x09 1 1 2 2 boot eq_refl))).
Defined.

(** The movement of a report taken as motion and the accumulator it
    leaves, whatever the button array holds. *)
Lemma report_motion_moves now mstat mx my s :
  let r := report_motion now mstat mx my s in
  internal_scrolling (fst r) = internal_scrolling s
  /\ (-128 <= my <= 127 -> -8 < scroll_sum s < 8 -> -8 < scroll_sum (fst r) < 8)
  /\ ((moves (snd r) = [] /\ jiggletimer (fst r) = jiggletimer s)
      \/ (exists x y z, moves (snd r) = [Move x y z]
           /\ jiggletimer (fst r) = MyTimer.reset now (jiggletimer s))).
Proof.
  unfold report_motion.
  set (btn := map_buttons (lefthanded s) mstat (xtrabutton s)).
  set (br := if internal_scrolling s && truthy (Z.land btn (bimask !!! 3%nat))
             then scroll_branch now my s else move_branch now mx my s).
  assert (Hbr : set_scroll_sum (scroll_sum s) (set_jiggletimer (jiggletimer s) (fst br)) = s
                /\ (-128 <= my <= 127 -> -8 < scroll_sum s < 8 -> -8 < scroll_sum (fst br) < 8)
                /\ ((snd br = [] /\ jiggletimer (fst br) = jiggletimer s)
                    \/ (exists x y z, snd br = [Move x y z]
                         /\ jiggletimer (fst br) = MyTimer.reset now (jiggletimer s)))).
  { unfold br. destruct (internal_scrolling s && _).
    - destruct (scroll_branch_frame now my s) as [A [B|[z B]]];
        (split; [exact A|]); (split; [now apply scroll_branch_acc|]);
        [left; exact B | right; exists 0, 0, z; exact B].
    - destruct (move_branch_frame now mx my s) as [A [Z0 [B|[x [y B]]]]];
        (split; [exact A|]); (split; [intros _ _; rewrite Z0; lia|]);
        [left; exact B | right; exists x, y, 0; exact B]. }
  destruct br as [s2 ev2]. cbn [fst snd] in Hbr. destruct Hbr as (Hf & Ha & Hm).
  destruct (frame_fields s s2 Hf) as (_ & _ & _ & F4 & _).
  destruct (handle_buttons_frame btn s2) as [Hmv Hsb].
  destruct (handle_buttons btn s2) as [s3 ev3]. cbn [fst snd] in *.
  assert (Hj : jiggletimer s3 = jiggletimer s2 /\ scroll_sum s3 = scroll_sum s2
               /\ internal_scrolling s3 = internal_scrolling s2).
  { pose proof (f_equal jiggletimer Hsb). pose proof (f_equal scroll_sum Hsb).
    pose proof (f_equal internal_scrolling Hsb). cbn in *. tauto. }
  destruct Hj as (J1 & J2 & J3). rewrite J1, J2, J3, F4.
  split; [reflexivity|]. split; [exact Ha|].
  rewrite moves_app, Hmv, app_nil_r.
  destruct Hm as [[-> Hj]|(x & y & z & -> & Hj)].
  - left. split; [reflexivity | exact Hj].
  - right. exists x, y, z. split; [reflexivity | exact Hj].
Qed.

End LoopRuns2.

Section LoopRuns3.

Lemma button_step_red btn i s :
  internal_scrolling s = true -> In i [0%nat; 1%nat; 2%nat; 3%nat] ->
  internal_scrolling (fst (button_step btn i s)) = true
  /\ forallb (fun e => negb (red_click e)) (snd (button_step btn i s)) = true.
Proof.
  intros Hi Hin. unfold button_step. rewrite Hi.
  cbn in Hin. destruct Hin as [<-|[<-|[<-|[<-|[]]]]]; cbn [andb Nat.eqb fst snd];
    try (split; [exact Hi | reflexivity]);
    (split; [exact Hi|]);
    destruct (negb _ && _); try reflexivity; destruct (_ && negb _); reflexivity.
Qed.

Lemma handle_buttons_red btn s :
  internal_scrolling s = true ->
  forallb (fun e => negb (red_click e)) (snd (handle_buttons btn s)) = true.
Proof.
  intros Hi. unfold handle_buttons. cbn [fold_left fst snd].
  destruct (button_step_red btn 0 s Hi ltac:(simpl; tauto)) as [I0 R0].
  destruct (button_step btn 0 s) as [s0 e0]. cbn [fst snd] in *.
  destruct (button_step_red btn 1 s0 I0 ltac:(simpl; tauto)) as [I1 R1].
  destruct (button_step btn 1 s0) as [s1 e1]. cbn [fst snd] in *.
  destruct (button_step_red btn 2 s1 I1 ltac:(simpl; tauto)) as [I2 R2].
  destruct (button_step btn 2 s1) as [s2 e2]. cbn [fst snd] in *.
  destruct (button_step_red btn 3 s2 I2 ltac:(simpl; tauto)) as [I3 R3].
  destruct (button_step btn 3 s2) as [s3 e3]. cbn [fst snd] in *.
  rewrite !forallb_app, R0, R1, R2, R3. reflexivity.
Qed.

Lemma report_motion_red now mstat mx my s :
  internal_scrolling s = true ->
  forallb (fun e => negb (red_click e)) (snd (report_motion now mstat mx my s)) = true.
Proof.
  intros Hi. unfold report_motion.
  set (btn := map_buttons (lefthanded s) mstat (xtrabutton s)).
  set (br := if internal_scrolling s && truthy (Z.land btn (bimask !!! 3%nat))
             then scroll_branch now my s else move_branch now mx my s).
  assert (Hbr : internal_scrolling (fst br) = true
                /\ forallb (fun e => negb (red_click e)) (snd br) = true).
  { unfold br. destruct (internal_scrolling s && _).
    - destruct (scroll_branch_frame now my s) as [A [[-> _]|[z [-> _]]]];
        apply frame_fields in A; (split; [rewrite <- Hi; apply A | reflexivity]).
    - destruct (move_branch_frame now mx my s) as [A [_ [[-> _]|[x [y [-> _]]]]]];
        apply frame_fields in A; (split; [rewrite <- Hi; apply A | reflexivity]). }
  destruct br as [s2 ev2]. cbn [fst snd] in Hbr. destruct Hbr as [I2 R2].
  pose proof (handle_buttons_red btn s2 I2) as R3.
  destruct (handle_buttons btn s2) as [s3 ev3]. cbn [fst snd] in *.
  now rewrite forallb_app, R2, R3.
Qed.

Lemma loop_red i s :
  pin_SCROLL i = true ->
  forallb (fun e => negb (red_click e)) (snd (loop i s)) = true.
Proof.
  intros Hp. unfold loop. rewrite Hp.
  match goal with
  | |- context [match report i with Some _ => _ | None => loop_jiggle _ _ ?st end] =>
      set (s0 := st)
  end.
  assert (Hi : internal_scrolling s0 = true).
  { unfold s0. now destruct (truthy _). }
  assert (Hj : forall t, forallb (fun e => negb (red_click e))
                 (snd (loop_jiggle (millis i) (suspended i) t)) = true).
  { intros t. unfold loop_jiggle. destruct (MyTimer.action _ _) as [f tm].
    now destruct (f && _). }
  destruct (report i) as [[[m b1] b2]|]; [|apply Hj].
  unfold loop_report.
  destruct (ps2pp_decode _ _ _ s0) as [ext s1] eqn:Ed.
  assert (Hi1 : internal_scrolling s1 = true).
  { rewrite ps2pp_decode_spec in Ed. destruct (tagged _ _).
    - destruct (xtra_subtype _ _); inversion Ed; subst; exact Hi.
    - inversion Ed; subst; exact Hi. }
  destruct (ext || suspended i); [reflexivity|].
  destruct (truthy (Z.land m 192)); [reflexivity|].
  pose proof (report_motion_red (millis i) m (to_int8 b1) (to_int8 b2) s1 Hi1) as R.
  destruct (report_motion _ _ _ _ s1) as [s3 ev3]. cbn [snd] in R.
  specialize (Hj s3). destruct (loop_jiggle _ _ s3) as [s4 ev4]. cbn [snd] in *.
  now rewrite forallb_app, R, Hj.
Qed.

(** X9: while the scroll switch selects internal scrolling at every
    call, no run of loop, from any state and with any reports, sends a
    press or a release of button 8 (the red button) to the host. *)
Theorem red_button_stays_inside (ins : list inputs) (s : state) :
  Forall (fun i => pin_SCROLL i = true) ins ->
  forall e, In e (snd (run_loop ins s)) -> e <> Press 0x08 /\ e <> Release 0x08.
Proof.
  intros Hall.
  assert (H : forallb (fun e => negb (red_click e)) (snd (run_loop ins s)) = true).
  { revert s. induction Hall as [|i ins Hi Hrest IH]; intros s; [reflexivity|].
    cbn [run_loop]. pose proof (loop_red i s Hi) as R.
    destruct (loop i s) as [s1 ev1]. specialize (IH s1).
    destruct (run_loop ins s1) as [s2 ev2]. cbn [snd] in *.
    now rewrite forallb_app, R, IH. }
  intros e He. rewrite forallb_forall in H. specialize (H e He).
  split; intros ->; discriminate H.
Qed.

Lemma red_button_stays_inside_witness :
  pin_SCROLL (mkInputs true true true 0 false (Some (0x08, 0xD2, 0x10))) = true
  /\ (forall e,
        In e (snd (run_loop [mkInputs true true true 0 false (Some (0x08, 0xD2, 0x10));
                             mkInputs true true true 10 false (Some (0x09, 3, 0))] boot)) ->
        e <> Press 0x08 /\ e <> Release 0x08).
Proof.
  split; [reflexivity|].
  apply (red_button_stays_inside _ boot).
  constructor; [reflexivity|]. constructor; [reflexivity | constructor].
Defined.

End LoopRuns3.

Section LoopRuns4.

(** X10: with internal scrolling switched off, a report with the red
    button held, after one without, presses button 8 at the host and
    remembers it as held, and the movement of the report goes out as
    pointer movement, exactly as it would with the button up. *)
Theorem red_button_outside (now mstat mx my : Z) (s : state) (b0 b1 b2 : bool) :
  internal_scrolling s = false -> red_held s mstat = true ->
  buttons s = [b0; b1; b2; false] ->
  let r := report_motion now mstat mx my s in
  In (Press 0x08) (snd r)
  /\ moves (snd r) = moves (snd (move_branch now mx my s))
  /\ buttons (fst r) !!! 3%nat = true.
Proof.
  intros Hi Hr Hb r.
  destruct (report_motion_frame now mstat mx my s b0 b1 b2 false Hb) as (_ & B & C & _).
  fold r in B, C. rewrite Hi in B, C.
  assert (Hm3 : mapped (map_buttons (lefthanded s) mstat (xtrabutton s)) 3 = true)
    by exact Hr.
  rewrite Hm3 in B, C.
  split; [|split].
  - assert (Hin : In (Press 0x08) (clicks (snd r))).
    { rewrite C. apply in_or_app. right. apply in_or_app. right.
      apply in_or_app. right. left. reflexivity. }
    unfold clicks in Hin. apply filter_In in Hin. tauto.
  - apply report_motion_move. now rewrite Hi.
  - rewrite B. reflexivity.
Qed.

Lemma red_button_outside_witness :
  internal_scrolling (set_internal_scrolling false red_state) = false
  /\ red_held (set_internal_scrolling false red_state) 0x08 = true
  /\ buttons (set_internal_scrolling false red_state) = [false; false; false; false]
  /\ In (Press 0x08) (snd (report_motion 0 0x08 2 3 (set_internal_scrolling false red_state))).
Proof.
  split; [reflexivity|]. split; [reflexivity|]. split; [reflexivity|].
  exact (proj1 (red_button_outside 0 0x08 2 3 (set_internal_scrolling false red_state)
                  false false false eq_refl eq_refl eq_refl)).
Defined.

(** The state [loop] works on once it has read the switches and cleared
    a pending error. *)
Lemma loop_unfold i s :
  exists s0,
    loop i s =
      match report i with
      | Some (mstat, b1, b2) =>
          match loop_report (millis i) (suspended i) mstat b1 b2 s0 with
          | (Return, s1, ev1) => (s1, ev1)
          | (Continue, s1, ev1) =>
              let '(s2, ev2) := loop_jiggle (millis i) (suspended i) s1 in
              (s2, ev1 ++ ev2)
          end
      | None => loop_jiggle (millis i) (suspended i) s0
      end
    /\ internal_scrolling s0 = pin_SCROLL i
    /\ lefthanded s0 = negb (pin_LEFTHAND i)
    /\ jiggletimer s0 = MyTimer.mk (MyTimer.start_time (jiggletimer s))
                                   (MyTimer.count (jiggletimer s)) (pin_JIGGLE i)
    /\ scroll_sum s0 = scroll_sum s /\ xtrabutton s0 = xtrabutton s
    /\ buttons s0 = buttons s
    /\ ps2_error s0 = 0
    /\ mbuf s0 = (if truthy (ps2_error s) then Mousebuffer.reset (mbuf s) else mbuf s).
Proof.
  unfold loop.
  match goal with
  | |- context [match report i with Some _ => _ | None => loop_jiggle _ _ ?st end] =>
      exists st
  end.
  split; [reflexivity|].
  destruct s as [lh xb bt ss sc er mb jt rg].
  cbn [ps2_error set_lefthanded set_jiggletimer set_internal_scrolling lefthanded
       xtrabutton buttons scroll_sum internal_scrolling mbuf jiggletimer isr].
  unfold truthy. destruct (Z.eqb_spec er 0) as [E|E]; cbn; repeat split; auto.
Qed.

Lemma loop_jiggle_events now susp s :
  let r := loop_jiggle now susp s in
  set_jiggletimer (jiggletimer s) (fst r) = s
  /\ (snd r = [] \/ (snd r = nudge /\ susp = false)).
Proof.
  unfold loop_jiggle. destruct (MyTimer.action now (jiggletimer s)) as [f tm].
  destruct f, susp; cbn; (split; [now destruct s|]); auto.
Qed.

Lemma action_fresh now en : MyTimer.action now (MyTimer.mk now 0 en) = (false, MyTimer.mk now 0 en).
Proof.
  unfold MyTimer.action, MyTimer.since. cbn [MyTimer.enabled MyTimer.count MyTimer.start_time].
  rewrite Z.sub_diag. destruct en; reflexivity.
Qed.

Lemma loop_report_shape now susp mstat b1 b2 s :
  let r := loop_report now susp mstat b1 b2 s in
  (fst (fst r) = Return /\ snd r = [] /\ scroll_sum (snd (fst r)) = scroll_sum s
   /\ jiggletimer (snd (fst r)) = jiggletimer s)
  \/ (fst (fst r) = Continue
      /\ (-8 < scroll_sum s < 8 -> -8 < scroll_sum (snd (fst r)) < 8)
      /\ ((moves (snd r) = [] /\ jiggletimer (snd (fst r)) = jiggletimer s)
          \/ (exists x y z, moves (snd r) = [Move x y z]
               /\ jiggletimer (snd (fst r)) = MyTimer.reset now (jiggletimer s)))).
Proof.
  unfold loop_report. rewrite ps2pp_decode_spec.
  set (s1 := if xtra_subtype mstat (to_uint8 (to_int8 b1))
             then set_xtrabutton (Z.land (to_uint8 (to_int8 b2)) 48) s else s).
  assert (H1 : scroll_sum s1 = scroll_sum s /\ jiggletimer s1 = jiggletimer s).
  { unfold s1. now destruct (xtra_subtype _ _). }
  destruct (tagged mstat (to_uint8 (to_int8 b1))); cbn [orb].
  - left. cbn. tauto.
  - destruct susp; [left; cbn; tauto|].
    destruct (truthy (Z.land mstat 192)); [left; cbn; tauto|].
    right. destruct (report_motion_moves now mstat (to_int8 b1) (to_int8 b2) s) as (_ & A & M).
    destruct (report_motion now mstat (to_int8 b1) (to_int8 b2) s) as [s3 ev]. cbn [fst snd] in *.
    split; [reflexivity|]. split; [intros Ha; apply A; [apply to_int8_range | exact Ha]|].
    exact M.
Qed.

(** X11: the movements one call of loop sends are none, or the nudge
    pair alone (and then the host is awake), or one single movement, in
    which case the idle timer has just been restarted at the current
    clock with count 0: a movement and a nudge never come from the same
    call. *)
Theorem loop_one_movement (i : inputs) (s : state) :
  let r := loop i s in
  moves (snd r) = []
  \/ (moves (snd r) = nudge /\ suspended i = false)
  \/ (exists x y z, moves (snd r) = [Move x y z]
      /\ jiggletimer (fst r) = MyTimer.mk (millis i) 0 (pin_JIGGLE i)).
Proof.
  destruct (loop_unfold i s) as (s0 & -> & _ & _ & Hj & _).
  assert (Hjig : forall t,
            moves (snd (loop_jiggle (millis i) (suspended i) t)) = []
            \/ (moves (snd (loop_jiggle (millis i) (suspended i) t)) = nudge
                /\ suspended i = false)).
  { intros t. destruct (loop_jiggle_events (millis i) (suspended i) t) as [_ [->|[-> E]]];
      [left; reflexivity | right; split; [reflexivity | exact E]]. }
  destruct (report i) as [[[m b1] b2]|].
  - destruct (loop_report_shape (millis i) (suspended i) m b1 b2 s0)
      as [(F & E & _)|(F & _ & M)];
      destruct (loop_report _ _ _ _ _ s0) as [[f s1] ev1]; cbn [fst snd] in *; subst f.
    + subst ev1. left. reflexivity.
    + destruct M as [[M J]|(x & y & z & M & J)].
      * specialize (Hjig s1). destruct (loop_jiggle _ _ s1) as [s2 ev2]. cbn [fst snd] in *.
        rewrite moves_app, M. cbn [app].
        destruct Hjig as [->|[-> E]]; [left; reflexivity | right; left; now split].
      * right. right. exists x, y, z.
        assert (Ht : jiggletimer s1 = MyTimer.mk (millis i) 0 (pin_JIGGLE i)).
        { rewrite J, Hj. reflexivity. }
        unfold loop_jiggle. rewrite Ht, action_fresh. cbn [andb fst snd].
        rewrite moves_app, M. cbn. split; reflexivity.
  - specialize (Hjig s0). destruct Hjig as [H|H]; [left; exact H | right; left; exact H].
Qed.

(** X12: the scroll accumulator stays strictly between -8 and 8 over
    any run of loop calls once it is there, as it is at reset. *)
Theorem accumulator_stays_small (ins : list inputs) (s : state) :
  -8 < scroll_sum s < 8 -> -8 < scroll_sum (fst (run_loop ins s)) < 8.
Proof.
  revert s. induction ins as [|i ins IH]; intros s Ha; [exact Ha|].
  cbn [run_loop].
  assert (H1 : -8 < scroll_sum (fst (loop i s)) < 8).
  { destruct (loop_unfold i s) as (s0 & -> & _ & _ & _ & Hs & _).
    assert (Hjs : forall t, scroll_sum (fst (loop_jiggle (millis i) (suspended i) t))
                            = scroll_sum t).
    { intros t. destruct (loop_jiggle_events (millis i) (suspended i) t) as [E _].
      apply (f_equal scroll_sum) in E. cbn in E. exact E. }
    destruct (report i) as [[[m b1] b2]|]; [|rewrite Hjs, Hs; exact Ha].
    destruct (loop_report_shape (millis i) (suspended i) m b1 b2 s0)
      as [(F & _ & E & _)|(F & A & _)];
      destruct (loop_report _ _ _ _ _ s0) as [[f s1] ev1]; cbn [fst snd] in *; subst f.
    - cbn [fst]. rewrite E, Hs. exact Ha.
    - specialize (Hjs s1). destruct (loop_jiggle _ _ s1) as [s2 ev2]. cbn [fst] in *.
      rewrite Hjs. apply A. rewrite Hs. exact Ha. }
  destruct (loop i s) as [s1 ev1]. cbn [fst] in H1.
  specialize (IH s1 H1). destruct (run_loop ins s1) as [s2 ev2]. exact IH.
Qed.

Lemma accumulator_stays_small_witness :
  -8 < scroll_sum boot < 8
  /\ -8 < scroll_sum (fst (run_loop [mkInputs true true true 0 false (Some (0x08, 0, 7))] red_state)) < 8.
Proof.
  split; [cbn; lia|].
  apply (accumulator_stays_small _ red_state). cbn. lia.
Defined.

End LoopRuns4.

Section TimerRuns.
Import MyTimer.

Lemma since_range now tm : 0 <= since now tm < 4294967296.
Proof. unfold since, to_uint32. apply Z.mod_pos_bound. lia. Qed.

Lemma since_tick now tm :
  period <= since now tm -> since now (tick tm) = since now tm - period.
Proof.
  unfold since, tick, to_uint32, period. cbn [start_time]. intros H.
  rewrite Zminus_mod_idemp_r.
  replace (now - (start_time tm + 30000)) with (now - start_time tm - 30000) by lia.
  rewrite <- Zminus_mod_idemp_l.
  pose proof (Z.mod_pos_bound (now - start_time tm) 4294967296 ltac:(lia)).
  apply Z.mod_small. lia.
Qed.

(** The catch-up loop in closed form: as many passes as full periods
    have gone by. *)
Lemma catch_up_closed now (n : nat) :
  forall tm, since now tm / period = Z.of_nat (S n) ->
  catch_up now tm =
    mk (to_uint32 (start_time tm + period * Z.of_nat (S n)))
       (to_int16 (count tm + Z.of_nat (S n))) (enabled tm)
  /\ since now (catch_up now tm) = since now tm mod period.
Proof.
  induction n as [|n IH]; intros tm Hk.
  - assert (Hs : period <= since now tm < 2 * period)
      by (unfold period in *; Z.to_euclidean_division_equations; lia).
    rewrite catch_up_more by lia.
    rewrite catch_up_done by (rewrite since_tick; lia).
    split.
    + unfold tick. f_equal; f_equal; lia.
    + rewrite since_tick by lia. unfold period in *.
      Z.to_euclidean_division_equations; lia.
  - assert (Hs : period <= since now tm)
      by (unfold period in *; Z.to_euclidean_division_equations; lia).
    rewrite catch_up_more by lia.
    destruct (IH (tick tm)) as [E1 E2].
    { rewrite since_tick by lia. unfold period in *.
      Z.to_euclidean_division_equations; lia. }
    rewrite E1 in E2 |- *. split.
    + unfold tick; cbn [start_time count enabled]. f_equal.
      * unfold to_uint32. rewrite Zplus_mod_idemp_l. f_equal. lia.
      * unfold to_int16.
        replace ((count tm + 1 + 32768) mod 65536 - 32768 + Z.of_nat (S n) + 32768)
          with ((count tm + 1 + 32768) mod 65536 + Z.of_nat (S n)) by lia.
        rewrite Zplus_mod_idemp_l. f_equal. f_equal. lia.
    + rewrite E2, since_tick by lia. unfold period.
      Z.to_euclidean_division_equations; lia.
Qed.

Lemma action_spec (now : Z) (tm : t) :
  enabled tm = true -> count tm <= 60 ->
  let k := since now tm / period in
  (k = 0 -> action now tm = (false, tm))
  /\ (0 < k ->
      action now tm =
        (to_int16 (count tm + k) <? 60,
         mk (to_uint32 (start_time tm + period * k)) (to_int16 (count tm + k)) true)
      /\ since now (snd (action now tm)) = since now tm mod period).
Proof.
  intros He Hc k. pose proof (since_range now tm) as Hr.
  unfold action. rewrite He. cbn [negb orb].
  destruct (Z.ltb_spec 60 (count tm)) as [L|_]; [lia|].
  split; intros Hk.
  - destruct (Z.ltb_spec (since now tm) period) as [Hlt|Hge]; [reflexivity|].
    exfalso. unfold k, period in *. Z.to_euclidean_division_equations; lia.
  - destruct (Z.ltb_spec (since now tm) period) as [Hlt|Hge].
    { exfalso. unfold k, period in *. Z.to_euclidean_division_equations; lia. }
    assert (Hn : k = Z.of_nat (S (Z.to_nat (k - 1)))) by lia.
    destruct (catch_up_closed now (Z.to_nat (k - 1)) tm) as [E1 E2]; [unfold k in *; lia|].
    rewrite <- Hn in E1. cbn [snd]. rewrite E2, E1, He. cbn [count]. split; reflexivity.
Qed.

(** X13: MyTimer::action in closed form, for an enabled timer with
    count at most 60.  With k the number of whole periods of 30 s gone
    since start_time: for k = 0 the call returns false and changes
    nothing; for k > 0 it adds k to count and k periods to start_time in
    this one call, returns whether the new count is below 60, and
    leaves less than a period outstanding. *)
Theorem action_catches_up (now : Z) (tm : t) :
  enabled tm = true -> count tm <= 60 ->
  let k := since now tm / period in
  (k = 0 -> action now tm = (false, tm))
  /\ (0 < k ->
      action now tm =
        (to_int16 (count tm + k) <? 60,
         mk (to_uint32 (start_time tm + period * k)) (to_int16 (count tm + k)) true)
      /\ since now (snd (action now tm)) = since now tm mod period).
Proof. exact (action_spec now tm). Qed.

Lemma action_catches_up_witness :
  enabled init = true /\ count init <= 60
  /\ action 95000 init = (true, mk 90000 3 true).
Proof.
  split; [reflexivity|]. split; [cbn; lia|].
  exact (proj1 (proj2 (action_catches_up 95000 init eq_refl ltac:(cbn; lia))
                  ltac:(vm_compute; reflexivity))).
Defined.

Lemma action_idle now tm :
  enabled tm = false \/ 60 < count tm -> action now tm = (false, tm).
Proof.
  intros H. unfold action.
  destruct (enabled tm); cbn [negb orb]; [|reflexivity].
  destruct (Z.ltb_spec 60 (count tm)); [reflexivity|].
  destruct H; [discriminate | lia].
Qed.

(** X14: between two resets action returns true at most 59 times, less
    what count has already reached, however the calls are spaced,
    provided none comes so late that count would leave the range of
    int. *)
Theorem at_most_59_firings (nows : list Z) (tm : t) :
  0 <= count tm -> timely nows tm ->
  Z.of_nat (ones (fst (poll_run nows tm))) <= Z.max 0 (59 - count tm).
Proof.
  revert tm. induction nows as [|now rest IH]; intros tm Hc Ht; [cbn; lia|].
  cbn [poll_run]. destruct Ht as [Hlate Ht].
  destruct (enabled tm) eqn:He.
  2:{ rewrite (action_idle now tm) in * by (left; exact He). cbn [snd] in Ht.
      specialize (IH tm Hc Ht). destruct (poll_run rest tm). cbn [fst ones] in *. lia. }
  destruct (Z.lt_ge_cases 60 (count tm)) as [L|L].
  { rewrite (action_idle now tm) in * by (right; exact L). cbn [snd] in Ht.
    specialize (IH tm Hc Ht). destruct (poll_run rest tm). cbn [fst ones] in *. lia. }
  destruct (action_spec now tm He L) as [A0 A1].
  pose proof (since_range now tm) as Hr.
  destruct (Z.eq_dec (since now tm / period) 0) as [K|K].
  - rewrite (A0 K) in *. cbn [snd] in Ht.
    specialize (IH tm Hc Ht). destruct (poll_run rest tm). cbn [fst ones] in *. lia.
  - assert (Hk : 0 < since now tm / period < 32000)
      by (unfold period in *; Z.to_euclidean_division_equations; lia).
    destruct (A1 ltac:(lia)) as [A _]. rewrite A in *. cbn [snd] in Ht.
    assert (Hw : to_int16 (count tm + since now tm / period)
                 = count tm + since now tm / period).
    { unfold to_int16. rewrite Z.mod_small; lia. }
    rewrite Hw in *.
    assert (Hc1 : 0 <= count (mk (to_uint32 (start_time tm
                                              + period * (since now tm / period)))
                                 (count tm + since now tm / period) true))
      by (cbn [count]; lia).
    specialize (IH _ Hc1 Ht). cbn [count] in IH.
    destruct (poll_run rest _) as [fs tm2]. cbn [fst ones] in *.
    destruct (Z.ltb_spec (count tm + since now tm / period) 60); lia.
Qed.

Lemma at_most_59_firings_witness :
  0 <= count init /\ timely [30000; 60000; 125000] init
  /\ Z.of_nat (ones (fst (poll_run [30000; 60000; 125000] init))) <= 59.
Proof.
  assert (Ht : timely [30000; 60000; 125000] init)
    by (vm_compute; repeat split; reflexivity).
  split; [cbn; lia|]. split; [exact Ht|].
  exact (at_most_59_firings [30000; 60000; 125000] init ltac:(cbn; lia) Ht).
Defined.

(** X15: the heartbeat of loop, which is reset whenever it fires.
    Started with count 0 and polled before sixty periods have gone by
    since its start, it fires at exactly the polls that find a full
    period elapsed, and its count is 0 again after every poll: unlike
    the idle timer it does not stop after 59 firings. *)
Theorem heartbeat_never_runs_out (clks : list (Z * Z)) (hb : t) :
  enabled hb = true -> count hb = 0 -> half_hourly clks hb ->
  fst (heartbeat_run clks hb) = periods_due clks hb
  /\ count (snd (heartbeat_run clks hb)) = 0
  /\ enabled (snd (heartbeat_run clks hb)) = true.
Proof.
  revert hb. induction clks as [|c rest IH]; intros hb He Hc Hh; [cbn; auto|].
  cbn [heartbeat_run periods_due]. destruct Hh as [Hlate Hh].
  pose proof (since_range (fst c) hb) as Hr.
  destruct (action_spec (fst c) hb He ltac:(lia)) as [A0 A1].
  assert (Hp : heartbeat_poll c hb =
               (period <=? since (fst c) hb,
                if period <=? since (fst c) hb then mk (snd c) 0 true else hb)).
  { unfold heartbeat_poll.
    destruct (Z.leb_spec period (since (fst c) hb)) as [G|G].
    - assert (Hk : 0 < since (fst c) hb / period < 60)
        by (unfold period in *; Z.to_euclidean_division_equations; lia).
      destruct (A1 ltac:(lia)) as [A _]. rewrite A, Hc.
      assert (Hw : (to_int16 (0 + since (fst c) hb / period) <? 60) = true).
      { unfold to_int16. rewrite Z.mod_small by lia. apply Z.ltb_lt. lia. }
      rewrite Hw. reflexivity.
    - rewrite A0; [reflexivity|].
      unfold period in *. Z.to_euclidean_division_equations; lia. }
  rewrite Hp in *. cbn [snd] in Hh.
  assert (Hnext : enabled (if period <=? since (fst c) hb then mk (snd c) 0 true else hb) = true
                  /\ count (if period <=? since (fst c) hb then mk (snd c) 0 true else hb) = 0).
  { destruct (period <=? since (fst c) hb); cbn; auto. }
  destruct Hnext as [He1 Hc1]. cbn [snd].
  destruct (IH _ He1 Hc1 Hh) as (E & C & N).
  destruct (heartbeat_run rest _) as [fs hb2]. cbn [fst snd] in *.
  rewrite E. auto.
Qed.

Lemma heartbeat_never_runs_out_witness :
  enabled init = true /\ count init = 0
  /\ half_hourly [(30000, 30001); (60001, 60002); (70000, 70000)] init
  /\ fst (heartbeat_run [(30000, 30001); (60001, 60002); (70000, 70000)] init)
     = [true; true; false].
Proof.
  assert (Hh : half_hourly [(30000, 30001); (60001, 60002); (70000, 70000)] init)
    by (vm_compute; repeat split; reflexivity).
  split; [reflexivity|]. split; [reflexivity|]. split; [exact Hh|].
  exact (proj1 (heartbeat_never_runs_out _ init eq_refl eq_refl Hh)).
Defined.

End TimerRuns.

Section IdleRuns.
Import MyTimer.

(** A report without deltas sends no movement and leaves the timer and
    the empty accumulator alone. *)
Lemma report_motion_still now mstat s :
  scroll_sum s = 0 ->
  let r := report_motion now mstat 0 0 s in
  moves (snd r) = [] /\ scroll_sum (fst r) = 0 /\ jiggletimer (fst r) = jiggletimer s.
Proof.
  intros Hs r. subst r. unfold report_motion.
  set (btn := map_buttons (lefthanded s) mstat (xtrabutton s)).
  set (br := if internal_scrolling s && truthy (Z.land btn (bimask !!! 3%nat))
             then scroll_branch now 0 s else move_branch now 0 0 s).
  assert (Hbr : snd br = [] /\ scroll_sum (fst br) = 0
                /\ jiggletimer (fst br) = jiggletimer s).
  { unfold br. destruct (internal_scrolling s && _).
    - unfold scroll_branch. rewrite Hs.
      change (to_int8 (Z.quot 0 8)) with 0. cbn [truthy Z.eqb negb].
      change (to_int8 (0 + 0)) with 0. cbn [scroll_sum set_scroll_sum].
      change (to_int8 (Z.quot 0 8)) with 0. cbn [Z.eqb negb fst snd].
      split; [reflexivity|]. split; now destruct s.
    - unfold move_branch. cbn [Z.eqb negb orb fst snd].
      split; [reflexivity|]. split; now destruct s. }
  destruct br as [s2 ev2]. cbn [fst snd] in Hbr. destruct Hbr as (-> & H2 & H3).
  destruct (handle_buttons_frame btn s2) as [Hmv Hsb].
  destruct (handle_buttons btn s2) as [s3 ev3]. cbn [fst snd app] in *.
  split; [exact Hmv|].
  pose proof (f_equal scroll_sum Hsb) as E1. pose proof (f_equal jiggletimer Hsb) as E2.
  cbn in E1, E2. split; congruence.
Qed.

(** After a report that moved, the accumulator is empty. *)
Lemma report_motion_sum now mstat mx my s :
  let r := report_motion now mstat mx my s in
  moves (snd r) = [] \/ scroll_sum (fst r) = 0.
Proof.
  cbv zeta. unfold report_motion.
  set (btn := map_buttons (lefthanded s) mstat (xtrabutton s)).
  set (br := if internal_scrolling s && truthy (Z.land btn (bimask !!! 3%nat))
             then scroll_branch now my s else move_branch now mx my s).
  assert (Hbr : snd br = [] \/ scroll_sum (fst br) = 0).
  { unfold br. destruct (internal_scrolling s && _).
    - unfold scroll_branch.
      destruct (if negb (truthy (to_int8 (Z.quot my 8))) then _ else _) as [s1 sc].
      destruct (negb (sc =? 0)); [right; reflexivity | left; reflexivity].
    - right. unfold move_branch.
      destruct (if negb (mx =? 0) || negb (my =? 0) then _ else _) as [s1 ev].
      reflexivity. }
  destruct br as [s2 ev2]. cbn [fst snd] in Hbr.
  destruct (handle_buttons_frame btn s2) as [Hmv Hsb].
  destruct (handle_buttons btn s2) as [s3 ev3]. cbn [fst snd] in *.
  destruct Hbr as [->|H0].
  - left. exact Hmv.
  - right. pose proof (f_equal scroll_sum Hsb) as E1. cbn in E1. congruence.
Qed.

Lemma loop_jiggle_sum now susp s :
  scroll_sum (fst (loop_jiggle now susp s)) = scroll_sum s.
Proof.
  destruct (loop_jiggle_events now susp s) as [H _].
  rewrite <- H at 2. now destruct (fst (loop_jiggle now susp s)).
Qed.

(** The call that sent the last movement leaves the timer restarted at
    its clock and the accumulator empty. *)
Lemma loop_after_movement i s :
  (exists x y z, moves (snd (loop i s)) = [Move x y z]) ->
  scroll_sum (fst (loop i s)) = 0
  /\ jiggletimer (fst (loop i s)) = mk (millis i) 0 (pin_JIGGLE i).
Proof.
  intros (x & y & z & Hm).
  destruct (loop_unfold i s) as (s0 & E & _ & _ & Hj & _).
  rewrite E in Hm |- *. clear E.
  assert (Hjig : forall t, moves (snd (loop_jiggle (millis i) (suspended i) t)) <> [Move x y z]).
  { intros t. destruct (loop_jiggle_events (millis i) (suspended i) t) as [_ [->|[-> _]]];
      discriminate. }
  destruct (report i) as [[[m b1] b2]|]; [|now contradiction (Hjig s0)].
  unfold loop_report in *. rewrite ps2pp_decode_spec in *.
  destruct (tagged m (to_uint8 (to_int8 b1))); cbn [orb] in *; [discriminate Hm|].
  destruct (suspended i); [discriminate Hm|].
  destruct (truthy (Z.land m 192)); [discriminate Hm|].
  destruct (report_motion_moves (millis i) m (to_int8 b1) (to_int8 b2) s0) as (_ & _ & M).
  pose proof (report_motion_sum (millis i) m (to_int8 b1) (to_int8 b2) s0) as S.
  destruct (report_motion (millis i) m (to_int8 b1) (to_int8 b2) s0) as [s3 ev].
  cbn [fst snd] in *.
  pose proof (loop_jiggle_sum (millis i) false s3) as J.
  destruct M as [[M Ht]|(x' & y' & z' & M & Ht)].
  - exfalso. apply (Hjig s3).
    destruct (loop_jiggle (millis i) false s3) as [s4 ev4]. cbn [fst snd] in *.
    now rewrite moves_app, M in Hm.
  - assert (Hs3 : scroll_sum s3 = 0) by (destruct S as [S|S]; [congruence | exact S]).
    assert (Ht3 : jiggletimer s3 = mk (millis i) 0 (pin_JIGGLE i)).
    { rewrite Ht, Hj. reflexivity. }
    unfold loop_jiggle in *. rewrite Ht3, action_fresh in *.
    cbn [andb fst snd scroll_sum jiggletimer set_jiggletimer].
    split; [now destruct s3 | reflexivity].
Qed.

(** One poll of the timer [t] milliseconds after the movement. *)
Lemma action_after t0 e t tm :
  enabled tm = true -> timer_after t0 e tm -> 0 <= e <= t ->
  (e / period <= 60 -> t < period * 32000) ->
  let r := action (to_uint32 (t0 + t)) tm in
  timer_after t0 t (snd r)
  /\ fst r = (e / period <? t / period) && (t / period <? 60).
Proof.
  intros Hen Ht He Hb r. subst r.
  destruct Ht as [(Hc & H60 & Hst)|[Hc He60]].
  - assert (Hsince : since (to_uint32 (t0 + t)) tm = t - period * count tm).
    { specialize (Hb ltac:(lia)). unfold since, to_uint32, period in *.
      clear - Hc H60 Hst He Hb. Z.to_euclidean_division_equations. lia. }
    destruct (action_spec (to_uint32 (t0 + t)) tm Hen H60) as [A0 A1].
    rewrite Hsince in A0, A1.
    assert (Hk : (t - period * count tm) / period = t / period - count tm).
    { unfold period. clear. Z.to_euclidean_division_equations. lia. }
    rewrite Hk in A0, A1.
    assert (Hle : e / period <= t / period).
    { unfold period. clear - He. Z.to_euclidean_division_equations. lia. }
    destruct (Z.eq_dec (t / period) (count tm)) as [Eq|Ne].
    + rewrite (A0 ltac:(lia)). cbn [fst snd]. split.
      * left. split; [congruence|]. split; [exact H60 | exact Hst].
      * rewrite <- Hc, Eq, Z.ltb_irrefl. reflexivity.
    + destruct (A1 ltac:(lia)) as [A _]. rewrite A. cbn [fst snd]. clear A A0 A1.
      replace (count tm + (t / period - count tm)) with (t / period) by lia.
      assert (H16 : to_int16 (t / period) = t / period).
      { specialize (Hb ltac:(lia)). unfold to_int16, period in *.
        clear - Hb He. Z.to_euclidean_division_equations. lia. }
      rewrite H16. split.
      * destruct (Z_le_dec (t / period) 60) as [L|L].
        -- left. cbn [count start_time]. split; [reflexivity|]. split; [exact L|].
           unfold to_uint32, period in *.
           revert Hst. generalize (start_time tm) (count tm) (t / 30000). clear.
           intros st c q Hst. Z.to_euclidean_division_equations. lia.
        -- right. cbn [count]. lia.
      * destruct (Z.ltb_spec (e / period) (t / period)) as [_|G]; [reflexivity | lia].
  - unfold action. rewrite Hen. cbn [negb orb].
    destruct (Z.ltb_spec 60 (count tm)) as [_|G]; [|lia]. cbn [fst snd]. split.
    + right. split; [exact Hc|]. unfold period in *. clear - He He60.
      Z.to_euclidean_division_equations. lia.
    + assert (Hle : 60 < t / period).
      { unfold period in *. clear - He He60. Z.to_euclidean_division_equations. lia. }
      destruct (Z.ltb_spec (t / period) 60) as [G|_]; [lia|]. now rewrite andb_false_r.
Qed.

(** The end of a call that has sent no movement so far. *)
Lemma loop_jiggle_idle t0 e now s :
  timer_after t0 e (jiggletimer s) -> 0 <= e ->
  let r := loop_jiggle now false s in
  scroll_sum (fst r) = scroll_sum s
  /\ (enabled (jiggletimer s) = false ->
      snd r = [] /\ timer_after t0 e (jiggletimer (fst r)))
  /\ (enabled (jiggletimer s) = true ->
      forall t, now = to_uint32 (t0 + t) -> e <= t ->
      (e / period <= 60 -> t < period * 32000) ->
      snd r = concat (repeat nudge
                (if (e / period <? t / period) && (t / period <? 60) then 1%nat else 0%nat))
      /\ timer_after t0 t (jiggletimer (fst r))).
Proof.
  intros Ht He r. subst r.
  split; [apply loop_jiggle_sum|]. split.
  - intros Hen. unfold loop_jiggle, action. rewrite Hen. cbn [negb orb fst snd andb].
    split; [reflexivity|]. now destruct s.
  - intros Hen t -> Het Hb.
    destruct (action_after t0 e t (jiggletimer s) Hen Ht (conj He Het) Hb) as [A F].
    unfold loop_jiggle.
    destruct (action (to_uint32 (t0 + t)) (jiggletimer s)) as [fire tm]. cbn [fst snd] in *.
    rewrite <- F. cbn [negb andb].
    destruct fire; cbn [andb fst snd jiggletimer set_jiggletimer];
      (split; [reflexivity | now destruct s]).
Qed.

(** One call of a stretch without movement. *)
Lemma loop_still t0 e i s :
  still i -> scroll_sum s = 0 -> timer_after t0 e (jiggletimer s) -> 0 <= e ->
  scroll_sum (fst (loop i s)) = 0
  /\ (polls i = false ->
      moves (snd (loop i s)) = [] /\ timer_after t0 e (jiggletimer (fst (loop i s))))
  /\ (polls i = true ->
      forall t, at_elapsed t0 i t -> e <= t ->
      (e / period <= 60 -> t < period * 32000) ->
      moves (snd (loop i s))
      = concat (repeat nudge
          (if (e / period <? t / period) && (t / period <? 60) then 1%nat else 0%nat))
      /\ timer_after t0 t (jiggletimer (fst (loop i s)))).
Proof.
  intros [Hsus Hrep] Hsum Ht He.
  destruct (loop_unfold i s) as (s0 & E & _ & _ & Hj & Hss & _).
  rewrite E. clear E. rewrite Hsus.
  assert (Ht0 : timer_after t0 e (jiggletimer s0)).
  { rewrite Hj. exact Ht. }
  assert (Hen0 : enabled (jiggletimer s0) = pin_JIGGLE i) by (rewrite Hj; reflexivity).
  assert (Hs0 : scroll_sum s0 = 0) by congruence.
  assert (Hmn : moves nudge = nudge) by reflexivity.
  assert (Jig : forall s3, scroll_sum s3 = 0 -> jiggletimer s3 = jiggletimer s0 ->
            let r := loop_jiggle (millis i) false s3 in
            scroll_sum (fst r) = 0
            /\ (pin_JIGGLE i = false -> snd r = [] /\ timer_after t0 e (jiggletimer (fst r)))
            /\ (pin_JIGGLE i = true ->
                forall t, at_elapsed t0 i t -> e <= t ->
                (e / period <= 60 -> t < period * 32000) ->
                snd r = concat (repeat nudge
                  (if (e / period <? t / period) && (t / period <? 60) then 1%nat else 0%nat))
                /\ timer_after t0 t (jiggletimer (fst r)))).
  { intros s3 H3 J3 r. subst r.
    assert (Ht3 : timer_after t0 e (jiggletimer s3)) by (rewrite J3; exact Ht0).
    destruct (loop_jiggle_idle t0 e (millis i) s3 Ht3 He) as (A & B & C).
    rewrite J3, Hen0 in B, C.
    split; [congruence|]. split; [exact B|].
    intros Hp t Hat. exact (C Hp t Hat). }
  unfold polls. destruct (report i) as [[[m b1] b2]|].
  - destruct Hrep as [[-> ->]|(Hb1 & Hb2 & Htag)].
    + unfold loop_report. rewrite ps2pp_decode_spec.
      change (to_uint8 (to_int8 0)) with 0.
      assert (Hnt : tagged m 0 = false).
      { unfold tagged. change (Z.land 0 2 =? 2) with false. apply andb_false_r. }
      rewrite Hnt. cbn [orb negb andb]. change (to_int8 0) with 0.
      unfold truthy. destruct (Z.eqb_spec (Z.land m 192) 0) as [Eo|No]; cbn [negb].
      * rewrite andb_true_r.
        destruct (report_motion_still (millis i) m s0 Hs0) as (M & S3 & T3).
        destruct (report_motion (millis i) m 0 0 s0) as [s3 ev]. cbn [fst snd] in *.
        destruct (Jig s3 S3 T3) as (A & B & C).
        destruct (loop_jiggle (millis i) false s3) as [s4 ev4]. cbn [fst snd] in *.
        rewrite moves_app, M. cbn [app].
        split; [exact A|]. split.
        -- intros Hp. destruct (B Hp) as [-> T]. split; [reflexivity | exact T].
        -- intros Hp t Hat Het Hb. destruct (C Hp t Hat Het Hb) as [-> T].
           split; [|exact T]. destruct (_ && _); reflexivity.
      * rewrite andb_false_r. cbn [fst snd].
        split; [now destruct s0|]. split; [|discriminate].
        intros _. split; [reflexivity | now destruct s0].
    + rewrite (loop_report_tagged (millis i) false m b1 b2 s0 Hb1 Hb2 Htag).
      rewrite Htag. cbn [negb andb fst snd]. rewrite andb_false_r.
      split; [destruct (xtra_subtype m b1); now destruct s0|].
      split; [|discriminate].
      intros _. split; [reflexivity|].
      destruct (xtra_subtype m b1); now destruct s0.
  - rewrite andb_true_r.
    destruct (Jig s0 Hs0 eq_refl) as (A & B & C).
    destruct (loop_jiggle (millis i) false s0) as [s4 ev4]. cbn [fst snd] in *.
    split; [exact A|]. split.
    + intros Hp. destruct (B Hp) as [-> T]. split; [reflexivity | exact T].
    + intros Hp t Hat Het Hb. destruct (C Hp t Hat Het Hb) as [-> T].
      split; [|exact T]. destruct (_ && _); reflexivity.
Qed.

(** A stretch without movement, call by call. *)
Lemma idle_stretch t0 ins :
  forall ts e s,
  Forall still ins -> Forall2 (at_elapsed t0) (List.filter polls ins) ts ->
  0 <= e -> in_order e ts ->
  scroll_sum s = 0 -> timer_after t0 e (jiggletimer s) ->
  moves (snd (run_loop ins s)) = concat (repeat nudge (thresholds_met e ts)).
Proof.
  induction ins as [|i ins IH]; intros ts e s Hst H2 He Ho Hs Ht.
  - inversion H2; subst. reflexivity.
  - inversion Hst as [|? ? Hi Hrest]; subst.
    destruct (loop_still t0 e i s Hi Hs Ht He) as (S1 & N & P).
    cbn [run_loop]. cbn [List.filter] in H2.
    destruct (polls i) eqn:Ep.
    + inversion H2 as [|? t ? ts' Hat H2']; subst.
      destruct Ho as (O1 & O2 & O3).
      destruct (P eq_refl t Hat O1 O2) as [M T].
      destruct (loop i s) as [s1 ev1]. cbn [fst snd] in *.
      specialize (IH ts' t s1 Hrest H2' ltac:(lia) O3 S1 T).
      destruct (run_loop ins s1) as [s2 ev2]. cbn [fst snd] in *.
      rewrite moves_app, M, IH. cbn [thresholds_met].
      now rewrite repeat_app, concat_app.
    + destruct (N eq_refl) as [M T].
      destruct (loop i s) as [s1 ev1]. cbn [fst snd] in *.
      specialize (IH ts e s1 Hrest H2 He Ho S1 T).
      destruct (run_loop ins s1) as [s2 ev2]. cbn [fst snd] in *.
      now rewrite moves_app, M, IH.
Qed.

Lemma paced_in_order ts : forall e, 0 <= e -> paced e ts -> in_order e ts.
Proof.
  induction ts as [|t r IH]; intros e He Hp; [exact I|].
  destruct Hp as [H1 H2]. cbn [in_order]. split; [lia|]. split.
  - unfold period in *. intros H60. clear - H1 H60 He.
    Z.to_euclidean_division_equations. lia.
  - apply IH; [lia | exact H2].
Qed.

(** With the polls less than a period apart every threshold is met. *)
Lemma paced_thresholds ts : forall e,
  0 <= e -> paced e ts ->
  Z.of_nat (thresholds_met e ts) = nudges_due (List.last ts e) - nudges_due e.
Proof.
  induction ts as [|t r IH]; intros e He Hp.
  - cbn. lia.
  - destruct Hp as [H1 H2]. cbn [thresholds_met]. rewrite last_cons.
    rewrite Nat2Z.inj_add, (IH t ltac:(lia) H2).
    assert (Hstep : Z.of_nat (if (e / period <? t / period) && (t / period <? 60)
                              then 1%nat else 0%nat)
                    = nudges_due t - nudges_due e).
    { unfold nudges_due, period in *.
      destruct (Z.ltb_spec (e / 30000) (t / 30000)), (Z.ltb_spec (t / 30000) 60);
        cbn [andb]; clear - H H0 H1 He; Z.to_euclidean_division_equations; lia. }
    rewrite Hstep. lia.
Qed.

(** C7, as stated, fails: the thresholds are not measured from the
    last real event when that event is a button event.  The pointer
    moves when the clock shows 0, the left button goes down at 29 s,
    and the call at 30 s, one second after that button event and with
    nothing to read, sends a nudge: a press does not restart the
    schedule, only a movement does. *)
Lemma nudge_follows_button_event :
  map millis button_then_wait = [0; 29000; 30000]
  /\ snd (run_loop button_then_wait boot)
     = [Move 1 0 0; Press 0x01; Move 1 0 0; Move (-1) 0 0].
Proof. split; vm_compute; reflexivity. Qed.

(** C7, amended: a call of [loop] sends a movement (pointer or wheel)
    when the clock shows [t0]; then come calls with the host awake whose
    reports carry no movement (reports without deltas, with whatever
    buttons, and PS2++ packets), and of these the ones that poll the
    idle timer (jiggle switch on, no PS2++ packet, no overflow bit) come
    at the elapsed times [ts], in order.  The movements sent are then
    nudges only, one for each poll that finds a threshold (30 s, 60 s,
    ... after the movement, the first 59 of them) newly passed; button
    events in between change nothing.  When the polls are less than
    30 s apart, exactly N nudges have been sent once the time elapsed
    since the movement has passed the Nth threshold and not the next,
    for N up to 59.  A nudge is +1 then -1 on the x axis, no
    displacement in sum.  With the host suspended at every call,
    whatever the calls read, nothing is sent at all. *)
Theorem idle_nudges (i0 : inputs) (ins : list inputs) (ts : list Z) (s : state) :
  (exists x y z, moves (snd (loop i0 s)) = [Move x y z]) ->
  Forall still ins ->
  Forall2 (at_elapsed (millis i0)) (List.filter polls ins) ts ->
  in_order 0 ts ->
  let sent := moves (snd (run_loop ins (fst (loop i0 s)))) in
  sent = concat (repeat nudge (thresholds_met 0 ts))
  /\ (paced 0 ts ->
      sent = concat (repeat nudge (Z.to_nat (nudges_due (List.last ts 0))))
      /\ forall N, 0 <= N <= 59 ->
         period * N <= List.last ts 0 < period * (N + 1) ->
         sent = concat (repeat nudge (Z.to_nat N)))
  /\ net nudge = (0, 0, 0)
  /\ (forall ins' s', Forall (fun i => suspended i = true) ins' ->
      snd (run_loop ins' s') = []).
Proof.
  intros Hmv Hst H2 Ho sent.
  destruct (loop_after_movement i0 s Hmv) as [Hs Hj].
  assert (Ht : timer_after (millis i0) 0 (jiggletimer (fst (loop i0 s)))).
  { rewrite Hj. left. cbn [count start_time]. split; [reflexivity|]. split; [lia|].
    f_equal. unfold period. lia. }
  assert (Hrun : sent = concat (repeat nudge (thresholds_met 0 ts))).
  { exact (idle_stretch (millis i0) ins ts 0 _ Hst H2 ltac:(lia) Ho Hs Ht). }
  split; [exact Hrun|]. split; [|split].
  - intros Hp. pose proof (paced_thresholds ts 0 ltac:(lia) Hp) as Hn.
    change (nudges_due 0) with 0 in Hn. rewrite Z.sub_0_r in Hn.
    assert (Hdue : sent = concat (repeat nudge (Z.to_nat (nudges_due (List.last ts 0))))).
    { rewrite Hrun, <- Hn, Nat2Z.id. reflexivity. }
    split; [exact Hdue|].
    intros N HN Hl. rewrite Hdue. f_equal. f_equal. f_equal.
    unfold nudges_due, period in *. clear - HN Hl.
    Z.to_euclidean_division_equations; lia.
  - reflexivity.
  - intros ins' s'. apply run_loop_suspended.
Qed.

Lemma idle_nudges_witness :
  (exists x y z, moves (snd (loop moving_input boot)) = [Move x y z])
  /\ Forall still idle_inputs
  /\ Forall2 (at_elapsed (millis moving_input)) (List.filter polls idle_inputs) idle_times
  /\ in_order 0 idle_times /\ paced 0 idle_times
  /\ moves (snd (run_loop idle_inputs (fst (loop moving_input boot)))) = nudge ++ nudge.
Proof.
  assert (H1 : exists x y z, moves (snd (loop moving_input boot)) = [Move x y z]).
  { exists 1, 0, 0. vm_compute. reflexivity. }
  assert (H2 : Forall still idle_inputs).
  { unfold idle_inputs.
    constructor; [split; [reflexivity | exact I]|].
    constructor; [split; [reflexivity | left; split; reflexivity]|].
    constructor; [split; [reflexivity | exact I]|].
    constructor;
      [split; [reflexivity | right; unfold byte; split; [lia|]; split; [lia | reflexivity]]|].
    constructor; [split; [reflexivity | exact I]|]. constructor. }
  assert (H3 : Forall2 (at_elapsed (millis moving_input))
                 (List.filter polls idle_inputs) idle_times).
  { assert (F : List.filter polls idle_inputs
                = [mkInputs true true true 11000 false None;
                   mkInputs true true true 30000 false (Some (0x09, 0, 0));
                   mkInputs true true true 36000 false None;
                   mkInputs true true true 62000 false None])
      by (vm_compute; reflexivity).
    rewrite F. unfold idle_times. repeat constructor. }
  assert (H4 : in_order 0 idle_times).
  { cbn [in_order idle_times]. unfold period. repeat split; try lia. }
  assert (H5 : paced 0 idle_times).
  { cbn [paced idle_times]. unfold period. lia. }
  split; [exact H1|]. split; [exact H2|]. split; [exact H3|]. split; [exact H4|].
  split; [exact H5|].
  destruct (idle_nudges moving_input idle_inputs idle_times boot H1 H2 H3 H4)
    as (_ & P & _).
  destruct (P H5) as [_ PN].
  refine (PN 2 _ _).
  - lia.
  - cbn. unfold period. lia.
Defined.

End IdleRuns.


Section Transmitter.

Lemma waits_ret {A} (a : A) : waits_exactly 0 (tx_ret a).
Proof.
  intros w ws. cbn. repeat split; try discriminate.
  - exists []. now rewrite app_nil_r.
  - intros H. now contradiction H.
Qed.

Lemma waits_pin o : waits_exactly 0 (pin o).
Proof.
  intros w ws. cbn. repeat split; try discriminate.
  - now exists [o].
  - intros H. now contradiction H.
Qed.

Lemma waits_loop_while : waits_exactly 1 loop_while.
Proof.
  intros w ws. unfold loop_while.
  destruct ws as [|[|] r]; cbn [fst snd firstn skipn repeat];
    (split; [reflexivity|]; split; [reflexivity|];
     split; [exists []; now rewrite app_nil_r|]; split;
     [intros H; first [discriminate H | split; [discriminate | reflexivity]]
     |intros H; first [reflexivity | now contradiction H]]).
Qed.

Lemma firstn_true_app n m (ws : list bool) :
  firstn (n + m) ws = repeat true (n + m) <->
  firstn n ws = repeat true n /\ firstn m (skipn n ws) = repeat true m.
Proof.
  revert ws. induction n as [|n IH]; intros ws; cbn [Nat.add firstn repeat skipn].
  - tauto.
  - destruct ws as [|x r]; cbn [firstn skipn];
      [split; [discriminate | intros [H _]; discriminate H]|].
    specialize (IH r). split.
    + intros H. injection H as -> H. apply IH in H. destruct H as [H1 H2].
      split; [now f_equal | exact H2].
    + intros [H1 H2]. injection H1 as -> H1. f_equal. apply IH. split; [exact H1 | exact H2].
Qed.

Lemma waits_bind {A B} n m (a : tx A) (k : A -> tx B) :
  waits_exactly n a -> (forall x, waits_exactly m (k x)) ->
  waits_exactly (n + m) (tx_bind a k).
Proof.
  intros Ha Hk w ws. unfold tx_bind.
  destruct (Ha w ws) as (C & T & (l & O) & Y & N).
  destruct (a w ws) as [[[x|] w1] ws1] eqn:E; cbn [fst snd] in *.
  - destruct (Hk x w1 ws1) as (C' & T' & (l' & O') & Y' & N').
    destruct (k x w1 ws1) as [[r w2] ws2]. cbn [fst snd] in *.
    assert (Hws1 : firstn n ws = repeat true n /\ ws1 = skipn n ws).
    { destruct (decide (firstn n ws = repeat true n)) as [G|G].
      - split; [exact G | now apply Y].
      - specialize (N G). discriminate N. }
    destruct Hws1 as [G ->].
    split; [congruence|]. split; [congruence|].
    split; [exists (l ++ l'); rewrite O', O; now rewrite app_assoc|].
    split.
    + intros H. apply firstn_true_app in H as [_ H2]. destruct (Y' H2) as [R1 R2].
      split; [exact R1|]. rewrite R2. now rewrite skipn_skipn, Nat.add_comm.
    + intros H. apply N'. intros H2. apply H. apply firstn_true_app. tauto.
  - split; [exact C|]. split; [exact T|]. split; [now exists l|].
    split.
    + intros H. apply firstn_true_app in H as [H1 _]. destruct (Y H1) as [R _].
      now contradiction R.
    + reflexivity.
Qed.

Lemma waits_send_bit level : waits_exactly 2 (send_bit level).
Proof.
  unfold send_bit.
  apply (waits_bind 0 2); [apply waits_pin|]. intros _.
  apply (waits_bind 1 1); [apply waits_loop_while|]. intros _. apply waits_loop_while.
Qed.

Lemma waits_send_bits i : forall data parity, waits_exactly (2 * i) (send_bits i data parity).
Proof.
  induction i as [|i IH]; intros data parity.
  - apply waits_ret.
  - replace (2 * S i)%nat with (2 + 2 * i)%nat by lia. cbn [send_bits].
    apply waits_bind; [apply waits_send_bit|]. intros _. apply IH.
Qed.

Lemma waits_bus_idle : waits_exactly 0 bus_idle.
Proof. apply (waits_bind 0 0); [apply waits_pin|]. intros _. apply waits_pin. Qed.

Lemma waits_body data : waits_exactly 21 (mouse_write_body data).
Proof.
  unfold mouse_write_body.
  apply (waits_bind 0 21); [apply waits_bus_idle|]. intros _.
  do 7 (apply (waits_bind 0 21); [apply waits_pin|]; intros _).
  apply (waits_bind 1 20); [apply waits_loop_while|]. intros _.
  apply (waits_bind 16 4); [apply (waits_send_bits 8)|]. intros parity.
  apply (waits_bind 2 2); [apply waits_send_bit|]. intros _.
  do 2 (apply (waits_bind 0 2); [apply waits_pin|]; intros _).
  apply (waits_bind 1 1); [apply waits_loop_while|]. intros _.
  apply (waits_bind 1 0); [apply waits_loop_while|]. intros _.
  apply (waits_bind 0 0); [apply waits_bus_idle|]. intros _.
  apply waits_pin.
Qed.

Lemma data_levels_snoc l o :
  data_levels (l ++ [o])
  = data_levels l ++ match o with SetData b => [b] | _ => [] end.
Proof.
  induction l as [|x l IH]; [now destruct o|].
  cbn [app data_levels]. destruct x; rewrite IH; reflexivity.
Qed.

Lemma tx_frame_all b : byte b -> tx_frame b = frame_of_byte b.
Proof.
  intros Hb.
  assert (H : bool_decide (tx_frame b = frame_of_byte b) = true).
  { revert b Hb. apply byte_cases. vm_compute. reflexivity. }
  now apply bool_decide_eq_true in H.
Qed.

Lemma to_uint8_byte z : byte (to_uint8 z).
Proof. unfold byte, to_uint8. Z.to_euclidean_division_equations; lia. Qed.

Lemma all_true_split n (ws : list bool) :
  firstn n ws = repeat true n -> ws = repeat true n ++ skipn n ws.
Proof. intros H. rewrite <- H. symmetry. apply firstn_skipn. Qed.

Lemma body_run (d : Z) (w : wire) (rest : list bool) :
  exists l,
    mouse_write_body d w (repeat true 21 ++ rest)
    = (Some tt, mkWire (core w) (attached w) (pinlog w ++ l), rest)
    /\ data_levels l = true :: tx_frame d ++ [true].
Proof.
  eexists. split.
  - cbn [repeat app].
    cbv [mouse_write_body tx_bind pin bus_idle loop_while send_bit send_bits
         tx_ret core attached pinlog].
    rewrite <- !app_assoc. cbn [app]. reflexivity.
  - reflexivity.
Qed.

Lemma mouse_write_run (data : Z) (w : wire) (ws : list bool) :
  firstn 21 ws = repeat true 21 ->
  let r := mouse_write data w ws in
  core (fst r) = core w
  /\ attached (fst r) = true
  /\ snd r = skipn 21 ws
  /\ exists l, pinlog (fst r) = pinlog w ++ l
       /\ data_levels l = true :: frame_of_byte (to_uint8 data) ++ [true].
Proof.
  intros H r. subst r. apply all_true_split in H.
  set (rest := skipn 21 ws) in *. rewrite H. unfold mouse_write.
  destruct (body_run (to_uint8 data) (set_attached false w) rest) as (l & E & L).
  rewrite E. cbn [fst snd set_attached core attached pinlog].
  repeat split. exists l. split; [reflexivity|].
  rewrite L. now rewrite (tx_frame_all _ (to_uint8_byte data)).
Qed.


(** X16: when every one of its 21 waits is answered in time, mouse_write
    leaves the globals alone (ps2_error included), ends with the
    interrupt attached again, and has set the data line to: released,
    then the eleven levels of the frame of its byte (start bit low, the
    eight data bits least significant first, the odd parity bit, stop
    bit high), then released.  It is the frame format that ps2_ISR
    accepts. *)
Theorem mouse_write_sends (data : Z) (w : wire) (ws : list bool) :
  firstn 21 ws = repeat true 21 ->
  let r := mouse_write data w ws in
  core (fst r) = core w
  /\ attached (fst r) = true
  /\ snd r = skipn 21 ws
  /\ exists l, pinlog (fst r) = pinlog w ++ l
       /\ data_levels l = true :: frame_of_byte (to_uint8 data) ++ [true].
Proof. exact (mouse_write_run data w ws). Qed.

Lemma mouse_write_sends_witness :
  let r := mouse_write 0xF4 (mkWire boot false []) (repeat true 21) in
  core (fst r) = boot
  /\ attached (fst r) = true
  /\ snd r = []
  /\ exists l, pinlog (fst r) = [] ++ l
       /\ data_levels l = true :: frame_of_byte (to_uint8 0xF4) ++ [true].
Proof.
  exact (mouse_write_sends 0xF4 (mkWire boot false []) (repeat true 21) eq_refl).
Defined.

Lemma mouse_write_fail (data : Z) (w : wire) (ws : list bool) :
  firstn 21 ws <> repeat true 21 ->
  let r := mouse_write data w ws in
  core (fst r) = set_ps2_error 0x10 (core w)
  /\ attached (fst r) = false
  /\ exists l, pinlog (fst r) = pinlog w ++ l ++ [SetClk false; SetData true].
Proof.
  intros H r. subst r. unfold mouse_write.
  destruct (waits_body (to_uint8 data) (set_attached false w) ws)
    as (C & T & (l & O) & _ & N).
  specialize (N H).
  destruct (mouse_write_body (to_uint8 data) (set_attached false w) ws)
    as [[o w1] ws1]. cbn [fst snd] in *. subst o.
  cbv [bus_stop tx_bind pin]. cbn [fst snd set_core core attached pinlog].
  rewrite C, T, O. cbn [set_attached core attached pinlog].
  repeat split. exists l. now rewrite <- !app_assoc.
Qed.


(** X17: when one of the 21 waits of mouse_write runs into the 500 ms
    deadline, whichever it is, the write ends with ps2_error = 0x10 and
    nothing else in the globals changed, the interrupt stays detached,
    and the last thing done to the bus is bus_stop (clock held low, data
    released). *)
Theorem mouse_write_timeout (data : Z) (w : wire) (ws : list bool) :
  firstn 21 ws <> repeat true 21 ->
  let r := mouse_write data w ws in
  core (fst r) = set_ps2_error 0x10 (core w)
  /\ attached (fst r) = false
  /\ exists l, pinlog (fst r) = pinlog w ++ l ++ [SetClk false; SetData true].
Proof. exact (mouse_write_fail data w ws). Qed.

Lemma mouse_write_timeout_witness :
  let r := mouse_write 0xFF (mkWire boot false [])
             (repeat true 10 ++ false :: repeat true 30) in
  core (fst r) = set_ps2_error 0x10 boot
  /\ attached (fst r) = false
  /\ exists l, pinlog (fst r) = [] ++ l ++ [SetClk false; SetData true].
Proof.
  apply (mouse_write_timeout 0xFF (mkWire boot false [])
           (repeat true 10 ++ false :: repeat true 30)).
  vm_compute. discriminate.
Defined.

End Transmitter.

Section Setup.

Lemma isr_ok_run fr : forall s,
  isr_ok s ->
  isr_ok (run_isr fr s) /\ (ps2_error s <> 0 -> ps2_error (run_isr fr s) <> 0).
Proof.
  induction fr as [|x fr IH]; intros s Hok.
  - split; [exact Hok | intros H; exact H].
  - rewrite run_isr_cons.
    destruct (isr_ok_edge false x s Hok) as [Hok1 He1].
    destruct (IH _ Hok1) as [Hok2 Hn2].
    split; [exact Hok2|]. intros Hne. apply Hn2. lia.
Qed.

Lemma data_levels_app a b : data_levels (a ++ b) = data_levels a ++ data_levels b.
Proof.
  induction a as [|x a IH]; [reflexivity|].
  cbn [app data_levels]. destruct x; rewrite IH; reflexivity.
Qed.

Lemma wrote_trans lv1 lv2 w1 w2 p p1 p2 :
  wrote lv1 w1 p p1 -> (isr_ok (core (hw p1)) -> wrote lv2 w2 p1 p2) ->
  wrote (lv1 ++ lv2) (w1 || w2) p p2.
Proof.
  intros [Hok1 H1] H2. destruct (H2 Hok1) as [Hok2 H2'].
  split; [exact Hok2|]. intros E.
  destruct (H2' E) as (E1 & A2 & o2 & O2 & L2).
  destruct (H1 E1) as (E0 & A1 & o1 & O1 & L1).
  split; [exact E0|]. split.
  - rewrite A2, A1. now destruct w1, w2.
  - exists (o1 ++ o2). rewrite O2, O1, app_assoc, data_levels_app, L1, L2. tauto.
Qed.

Lemma wrote_tick p : isr_ok (core (hw p)) -> wrote [] false p (port_tick p).
Proof.
  intros Hok. unfold port_tick, wrote. cbn [hw].
  destruct (attached (hw p)) eqn:A.
  - cbn [set_core core attached pinlog].
    destruct (isr_ok_run (List.hd [] (traffic p)) _ Hok) as [Hok1 Hn].
    split; [exact Hok1|]. intros E. split.
    + destruct (Z.eq_dec (ps2_error (core (hw p))) 0) as [Z|Z]; [exact Z|].
      now contradiction (Hn Z).
    + split; [exact A|]. exists []. now rewrite app_nil_r.
  - split; [exact Hok|]. intros E. split; [exact E|]. split; [exact A|].
    exists []. now rewrite app_nil_r.
Qed.

Lemma wrote_quiet p p1 p2 :
  wrote [] false p p1 -> (isr_ok (core (hw p1)) -> wrote [] false p1 p2) ->
  wrote [] false p p2.
Proof. intros H1 H2. exact (wrote_trans [] [] false false p p1 p2 H1 H2). Qed.

Lemma wrote_refl p : isr_ok (core (hw p)) -> wrote [] false p p.
Proof.
  intros Hok. split; [exact Hok|]. intros E. split; [exact E|]. split; [reflexivity|].
  exists []. now rewrite app_nil_r.
Qed.

Lemma wrote_delay n : forall p, isr_ok (core (hw p)) -> wrote [] false p (port_delay n p).
Proof.
  induction n as [|n IH]; intros p Hok; [now apply wrote_refl|].
  cbn [port_delay]. apply (wrote_quiet p (port_tick p)); [now apply wrote_tick|].
  intros Hok1. now apply IH.
Qed.

Lemma wrote_wait_ready n : forall p,
  isr_ok (core (hw p)) -> wrote [] false p (port_wait_ready n p).
Proof.
  induction n as [|n IH]; intros p Hok; [now apply wrote_refl|].
  cbn [port_wait_ready]. destruct (Mousebuffer.empty (mbuf (core (hw p)))).
  - apply (wrote_quiet p (port_tick p)); [now apply wrote_tick|].
    intros Hok1. now apply IH.
  - now apply wrote_refl.
Qed.

Lemma wrote_read p : isr_ok (core (hw p)) -> wrote [] false p (snd (port_read p)).
Proof.
  intros Hok. unfold port_read.
  pose proof (wrote_wait_ready 200 p Hok) as H.
  set (p1 := port_wait_ready 200 p) in *.
  destruct (negb (Mousebuffer.empty (mbuf (core (hw p1))))); [|exact H].
  destruct (Mousebuffer.pull (mbuf (core (hw p1)))) as [d m] eqn:E.
  cbn [snd]. destruct H as [(Hb & Hd & Hw) H]. split.
  - unfold isr_ok. cbn [hw set_core core set_mbuf isr mbuf].
    split; [exact Hb|]. split; [exact Hd|].
    pose proof (MousebufferFacts.wf_pull (mbuf (core (hw p1))) Hw) as Hp.
    rewrite E in Hp. exact Hp.
  - cbn [hw set_core core attached pinlog set_mbuf ps2_error]. exact H.
Qed.

Lemma wrote_write d p :
  isr_ok (core (hw p)) ->
  wrote (true :: frame_of_byte (to_uint8 d) ++ [true]) true p (port_write d p).
Proof.
  intros Hok. unfold port_write.
  destruct (decide (firstn 21 (outcomes p) = repeat true 21)) as [G|G].
  - pose proof (mouse_write_run d (hw p) (outcomes p) G) as H. cbv zeta in H.
    destruct (mouse_write d (hw p) (outcomes p)) as [w1 ws1]. cbn [fst snd] in H.
    destruct H as (C & A & _ & o & O & L).
    unfold wrote. cbn [hw]. rewrite C. split; [exact Hok|].
    intros E. split; [exact E|]. split; [exact A|]. now exists o.
  - pose proof (mouse_write_fail d (hw p) (outcomes p) G) as H. cbv zeta in H.
    destruct (mouse_write d (hw p) (outcomes p)) as [w1 ws1]. cbn [fst snd] in H.
    destruct H as (C & A & _).
    unfold wrote. cbn [hw]. rewrite C. split.
    + destruct Hok as (Hb & Hd & Hw). unfold isr_ok.
      cbn [set_ps2_error isr mbuf]. tauto.
    + cbn [set_ps2_error ps2_error]. discriminate.
Qed.

Lemma wrote_pin o p :
  isr_ok (core (hw p)) ->
  wrote (data_levels [o]) false p (port_pins (pin o) p).
Proof.
  intros Hok. unfold port_pins, pin, wrote. cbn [hw core attached pinlog].
  split; [exact Hok|]. intros E. split; [exact E|]. split; [reflexivity|].
  now exists [o].
Qed.

Lemma wrote_bus_idle p :
  isr_ok (core (hw p)) -> wrote [true] false p (port_pins bus_idle p).
Proof.
  intros Hok. unfold port_pins, bus_idle, tx_bind, pin, wrote.
  cbn [hw core attached pinlog].
  split; [exact Hok|]. intros E. split; [exact E|]. split; [reflexivity|].
  exists [SetData true; SetClk true]. split; [|reflexivity].
  now rewrite <- app_assoc.
Qed.

Lemma wrote_ok lv wr p p' : wrote lv wr p p' -> isr_ok (core (hw p')).
Proof. now intros [H _]. Qed.

Lemma wrote_write_read d p :
  isr_ok (core (hw p)) ->
  wrote (true :: frame_of_byte (to_uint8 d) ++ [true]) true p
        (snd (port_read (port_write d p))).
Proof.
  intros Hok.
  pose proof (wrote_trans _ [] true false p _ (snd (port_read (port_write d p)))
                (wrote_write d p Hok) (wrote_read _)) as H.
  now rewrite app_nil_r in H.
Qed.

Lemma wrote_mouse_init (sm : bool) p :
  isr_ok (core (hw p)) ->
  wrote (true :: written ([PS2_RESET] ++ if sm then [] else [PS2_SET_REMOTE])) true
        p (mouse_init sm p).
Proof.
  intros Hok. unfold mouse_init.
  set (p1 := port_pins bus_idle p).
  set (p2 := port_delay 250 p1).
  set (p3 := port_write PS2_RESET p2).
  set (p4 := snd (port_read p3)).
  set (p5 := port_delay 400 p4).
  set (p6 := snd (port_read p5)).
  set (p7 := snd (port_read p6)).
  assert (H2 : wrote [true] false p p2).
  { pose proof (wrote_trans [true] [] false false p p1 p2 (wrote_bus_idle p Hok)
                  (wrote_delay 250 p1)) as H. exact H. }
  assert (H4 : wrote (true :: frame_of_byte (to_uint8 PS2_RESET) ++ [true]) true p2 p4).
  { exact (wrote_write_read PS2_RESET p2 (wrote_ok _ _ _ _ H2)). }
  assert (H7 : wrote [] false p4 p7).
  { apply (wrote_quiet p4 p5); [exact (wrote_delay 400 p4 (wrote_ok _ _ _ _ H4))|].
    intros Hok5. apply (wrote_quiet p5 p6); [exact (wrote_read p5 Hok5)|].
    intros Hok6. exact (wrote_read p6 Hok6). }
  assert (Hinit : wrote (true :: written [PS2_RESET]) true p p7).
  { pose proof (wrote_trans _ _ _ _ p p2 p7 H2
                  (fun _ => wrote_trans _ _ _ _ p2 p4 p7 H4 (fun _ => H7))) as H.
    unfold written. cbn [map concat]. rewrite !app_nil_r in *. exact H. }
  destruct sm; cbn [negb]; [exact Hinit|].
  pose proof (wrote_trans _ _ _ _ p p7 _ Hinit
    (fun Hok7 => wrote_trans _ _ _ _ p7 _ _ (wrote_write_read PS2_SET_REMOTE p7 Hok7)
                   (wrote_pin (DelayUs 100) _))) as H.
  cbn [data_levels] in H. rewrite !app_nil_r in H.
  unfold written in *. cbn [map concat app] in *. rewrite !app_nil_r in *.
  rewrite <- app_assoc in H. exact H.
Qed.

Lemma written_app a b : written (a ++ b) = written a ++ written b.
Proof. unfold written. now rewrite map_app, concat_app. Qed.

Lemma wrote_write_all (l : list Z) : forall p,
  isr_ok (core (hw p)) ->
  wrote (written l) (match l with [] => false | _ => true end) p
        (fold_left (fun p d => port_write d p) l p).
Proof.
  induction l as [|d l IH]; intros p Hok; [now apply wrote_refl|].
  cbn [fold_left].
  pose proof (wrote_trans _ _ true _ p (port_write d p) _ (wrote_write d p Hok)
                (IH (port_write d p))) as H.
  cbn [orb] in H. change (written (d :: l))
    with ((true :: frame_of_byte (to_uint8 d) ++ [true]) ++ written l).
  exact H.
Qed.

Lemma wrote_enable_report p :
  isr_ok (core (hw p)) ->
  wrote (written [PS2_REPORT_ENA]) true p (mouse_enable_report p).
Proof.
  intros Hok. unfold mouse_enable_report.
  pose proof (wrote_trans _ _ _ _ p _ _ (wrote_write_read PS2_REPORT_ENA p Hok)
                (wrote_pin (DelayUs 100) _)) as H.
  cbn [data_levels orb] in H. unfold written. cbn [map concat].
  rewrite !app_nil_r in *. exact H.
Qed.

Lemma wrote_mouse_setup (sm : bool) p :
  isr_ok (core (hw p)) ->
  wrote (true :: written (setup_bytes sm)) true p (mouse_setup sm p).
Proof.
  intros Hok. unfold mouse_setup, ps2pp_write_magic_ping, setup_bytes.
  pose proof (wrote_mouse_init sm p Hok) as H1.
  pose proof (wrote_trans _ _ _ _ p _ _ H1 (wrote_write_all magic (mouse_init sm p))) as H2.
  cbn [orb] in H2.
  rewrite app_assoc, (written_app _ (magic ++ _)), (written_app magic).
  destruct sm.
  - pose proof (wrote_trans _ _ _ _ p _ _ H2 (wrote_enable_report _)) as H3.
    cbn [orb] in H3. cbn [app] in *. rewrite <- app_assoc in H3. exact H3.
  - change (written []) with (@nil bool). rewrite app_nil_r. exact H2.
Qed.

(** X18: mouse_setup can only end without an error flagged if none was
    flagged when it began and every byte it writes went out in full: the
    reset command, the set-remote command outside stream mode, the
    seventeen bytes of the PS2++ magic sequence and, in stream mode, the
    enable-reporting command, each as a whole frame on the data line;
    the interrupt is then attached.  A write that timed out, or a
    receive error during the setup, is still flagged at its end. *)
Theorem setup_without_error (sm : bool) (p : port) :
  isr_ok (core (hw p)) ->
  ps2_error (core (hw (mouse_setup sm p))) = 0 ->
  ps2_error (core (hw p)) = 0
  /\ attached (hw (mouse_setup sm p)) = true
  /\ exists o, pinlog (hw (mouse_setup sm p)) = pinlog (hw p) ++ o
       /\ data_levels o = true :: written (setup_bytes sm).
Proof.
  intros Hok E. destruct (wrote_mouse_setup sm p Hok) as [_ H]. exact (H E).
Qed.

Lemma setup_without_error_witness :
  isr_ok (core (hw fresh_port))
  /\ ps2_error (core (hw (mouse_setup true fresh_port))) = 0
  /\ attached (hw (mouse_setup true fresh_port)) = true.
Proof.
  split; [exact isr_ok_at_boot|].
  assert (E : ps2_error (core (hw (mouse_setup true fresh_port))) = 0)
    by (vm_compute; reflexivity).
  split; [exact E|].
  exact (proj1 (proj2 (setup_without_error true fresh_port isr_ok_at_boot E))).
Defined.

(** *** A device that behaves *)

Lemma clean_tl bus : clean bus -> clean (List.tl bus).
Proof. intros H. destruct bus; [exact H|]. now inversion H. Qed.

Lemma clean_hd bus :
  clean bus -> List.hd [] bus = [] \/ exists b, byte b /\ List.hd [] bus = frame_of_byte b.
Proof. intros H. destruct bus; [now left|]. now inversion H. Qed.

Lemma run_isr_one_frame b s :
  byte b -> idle s ->
  run_isr (frame_of_byte b) s = set_mbuf (Mousebuffer.push b (mbuf s)) s.
Proof.
  intros Hb Hi.
  pose proof (isr_frames [b] s (Forall_cons_2 _ _ _ Hb (Forall_nil_2 _)) Hi) as H.
  cbn [map concat] in H. rewrite app_nil_r in H. exact H.
Qed.

Lemma calm_tick p :
  calm p ->
  calm (port_tick p)
  /\ attached (hw (port_tick p)) = attached (hw p)
  /\ outcomes (port_tick p) = outcomes p.
Proof.
  intros (Hi & He & Hc). unfold port_tick, calm. cbn [hw outcomes traffic].
  split; [|split; [|reflexivity];
            destruct (attached (hw p)) eqn:A; cbn [set_core attached];
            first [exact A | reflexivity]].
  destruct (attached (hw p)).
  - cbn [set_core core].
    destruct (clean_hd _ Hc) as [->|(b & Hb & ->)].
    + change (run_isr [] (core (hw p))) with (core (hw p)).
      split; [exact Hi|]. split; [exact He | now apply clean_tl].
    + rewrite (run_isr_one_frame b _ Hb Hi).
      split; [now apply idle_set_mbuf|]. split; [exact He | now apply clean_tl].
  - split; [exact Hi|]. split; [exact He | now apply clean_tl].
Qed.

Lemma calm_delay n : forall p,
  calm p ->
  calm (port_delay n p)
  /\ attached (hw (port_delay n p)) = attached (hw p)
  /\ outcomes (port_delay n p) = outcomes p.
Proof.
  induction n as [|n IH]; intros p Hc; [now split|].
  cbn [port_delay]. destruct (calm_tick p Hc) as (H1 & A1 & O1).
  destruct (IH _ H1) as (H2 & A2 & O2).
  split; [exact H2|]. split; congruence.
Qed.

Lemma calm_wait_ready n : forall p,
  calm p ->
  calm (port_wait_ready n p)
  /\ attached (hw (port_wait_ready n p)) = attached (hw p)
  /\ outcomes (port_wait_ready n p) = outcomes p.
Proof.
  induction n as [|n IH]; intros p Hc; [now split|].
  cbn [port_wait_ready]. destruct (Mousebuffer.empty (mbuf (core (hw p)))); [|now split].
  destruct (calm_tick p Hc) as (H1 & A1 & O1).
  destruct (IH _ H1) as (H2 & A2 & O2).
  split; [exact H2|]. split; congruence.
Qed.

Lemma calm_read p :
  calm p ->
  calm (snd (port_read p))
  /\ attached (hw (snd (port_read p))) = attached (hw p)
  /\ outcomes (snd (port_read p)) = outcomes p.
Proof.
  intros Hc. unfold port_read.
  destruct (calm_wait_ready 200 p Hc) as (H & A & O).
  set (p1 := port_wait_ready 200 p) in *.
  destruct (negb (Mousebuffer.empty (mbuf (core (hw p1))))); [|now split].
  destruct (Mousebuffer.pull (mbuf (core (hw p1)))) as [d m].
  cbn [snd hw outcomes set_core attached]. split; [|now split].
  destruct H as (Hi & He & Hl). unfold calm. cbn [hw traffic set_core core].
  split; [now apply idle_set_mbuf|]. split; [exact He | exact Hl].
Qed.

Lemma answered_S n p :
  answered (S n) p ->
  firstn 21 (outcomes p) = repeat true 21
  /\ firstn (21 * n) (skipn 21 (outcomes p)) = repeat true (21 * n).
Proof.
  unfold answered. replace (21 * S n)%nat with (21 + 21 * n)%nat by lia.
  apply firstn_true_app.
Qed.

Lemma calm_write d n p :
  calm p -> answered (S n) p ->
  calm (port_write d p)
  /\ attached (hw (port_write d p)) = true
  /\ answered n (port_write d p).
Proof.
  intros Hc Ha. destruct (answered_S n p Ha) as [G1 G2].
  pose proof (mouse_write_run d (hw p) (outcomes p) G1) as H. cbv zeta in H.
  unfold port_write, answered.
  destruct (mouse_write d (hw p) (outcomes p)) as [w1 ws1]. cbn [fst snd] in H.
  destruct H as (C & A & O & _). cbn [hw outcomes]. subst ws1.
  split; [|split; [exact A | exact G2]].
  unfold calm. cbn [hw traffic]. rewrite C. exact Hc.
Qed.

Lemma calm_pins o p :
  calm p ->
  calm (port_pins (pin o) p)
  /\ attached (hw (port_pins (pin o) p)) = attached (hw p)
  /\ outcomes (port_pins (pin o) p) = outcomes p.
Proof. intros Hc. unfold port_pins, pin, calm. cbn [hw core attached outcomes traffic]. now split. Qed.

Lemma calm_bus_idle p :
  calm p ->
  calm (port_pins bus_idle p) /\ outcomes (port_pins bus_idle p) = outcomes p.
Proof.
  intros Hc. unfold port_pins, bus_idle, tx_bind, pin, calm.
  cbn [hw core attached outcomes traffic]. now split.
Qed.

Lemma answered_eq n p p' : outcomes p' = outcomes p -> answered n p -> answered n p'.
Proof. unfold answered. now intros ->. Qed.

Lemma calm_write_read d n p :
  calm p -> answered (S n) p ->
  calm (snd (port_read (port_write d p)))
  /\ attached (hw (snd (port_read (port_write d p)))) = true
  /\ answered n (snd (port_read (port_write d p))).
Proof.
  intros Hc Ha. destruct (calm_write d n p Hc Ha) as (H1 & A1 & N1).
  destruct (calm_read _ H1) as (H2 & A2 & O2).
  split; [exact H2|]. split; [congruence|]. exact (answered_eq _ _ _ O2 N1).
Qed.

Lemma calm_write_all (l : list Z) : forall n p,
  calm p -> answered (length l + n) p ->
  calm (fold_left (fun p d => port_write d p) l p)
  /\ (l <> [] -> attached (hw (fold_left (fun p d => port_write d p) l p)) = true)
  /\ answered n (fold_left (fun p d => port_write d p) l p).
Proof.
  induction l as [|d l IH]; intros n p Hc Ha.
  - cbn [fold_left]. split; [exact Hc|]. split; [intros H; now contradiction H | exact Ha].
  - cbn [fold_left]. cbn [length Nat.add] in Ha.
    destruct (calm_write d _ p Hc Ha) as (H1 & A1 & N1).
    destruct (IH n _ H1 N1) as (H2 & A2 & N2).
    split; [exact H2|]. split; [|exact N2]. intros _.
    destruct l as [|e l]; [exact A1 | apply A2; discriminate].
Qed.

Lemma calm_mouse_setup (sm : bool) (p : port) :
  calm p -> answered (length (setup_bytes sm)) p ->
  calm (mouse_setup sm p) /\ attached (hw (mouse_setup sm p)) = true.
Proof.
  intros Hc Ha. unfold mouse_setup, mouse_init, ps2pp_write_magic_ping.
  destruct (calm_bus_idle p Hc) as (H1 & O1).
  set (p1 := port_pins bus_idle p) in *.
  destruct (calm_delay 250 p1 H1) as (H2 & _ & O2).
  set (p2 := port_delay 250 p1) in *.
  assert (N2 : answered (S 18) p2).
  { apply (answered_eq _ p); [congruence|]. destruct sm; exact Ha. }
  destruct (calm_write_read PS2_RESET 18 p2 H2 N2) as (H4 & A4 & N4).
  set (p4 := snd (port_read (port_write PS2_RESET p2))) in *.
  destruct (calm_delay 400 p4 H4) as (H5 & _ & O5).
  set (p5 := port_delay 400 p4) in *.
  destruct (calm_read p5 H5) as (H6 & _ & O6).
  set (p6 := snd (port_read p5)) in *.
  destruct (calm_read p6 H6) as (H7 & _ & O7).
  set (p7 := snd (port_read p6)) in *.
  assert (N7 : answered 18 p7) by (apply (answered_eq _ p4); [congruence | exact N4]).
  destruct sm; cbn [negb].
  - destruct (calm_write_all magic 1 p7 H7 N7) as (H8 & _ & N8).
    unfold mouse_enable_report.
    destruct (calm_write_read PS2_REPORT_ENA 0 _ H8 N8) as (H9 & A9 & _).
    destruct (calm_pins (DelayUs 100) _ H9) as (H10 & A10 & _).
    split; [exact H10 | congruence].
  - destruct (calm_write_read PS2_SET_REMOTE 17 p7 H7 N7) as (H8 & _ & N8).
    destruct (calm_pins (DelayUs 100) _ H8) as (H9 & _ & O9).
    destruct (calm_write_all magic 0 _ H9 (answered_eq _ _ _ O9 N8)) as (H10 & A10 & _).
    split; [exact H10 | apply A10; discriminate].
Qed.

(** X19: mouse_setup never checks what the device answers.  With a
    receiver between frames, no error flagged, every write clocked out in
    time and traffic that is well-formed (each millisecond silent or
    carrying one frame with odd parity), the setup ends with no error
    flagged and the interrupt attached, whatever bytes the frames carry
    and also when no byte arrives at all: acknowledgements are read and
    thrown away. *)
Theorem setup_ignores_replies (sm : bool) (p : port) :
  idle (core (hw p)) -> ps2_error (core (hw p)) = 0 -> clean (traffic p) ->
  answered (length (setup_bytes sm)) p ->
  ps2_error (core (hw (mouse_setup sm p))) = 0
  /\ idle (core (hw (mouse_setup sm p)))
  /\ attached (hw (mouse_setup sm p)) = true.
Proof.
  intros Hi He Hc Ha.
  destruct (calm_mouse_setup sm p (conj Hi (conj He Hc)) Ha) as ((Hi' & He' & _) & A).
  split; [exact He'|]. split; [exact Hi' | exact A].
Qed.

Lemma clean_fresh : clean (traffic fresh_port).
Proof.
  unfold fresh_port, clean. cbn [traffic]. apply List.Forall_app. split.
  - apply List.Forall_forall. intros x Hx. apply repeat_spec in Hx. now left.
  - constructor; [|constructor]. right. exists 0xFA. split; [unfold byte; lia | reflexivity].
Qed.

Lemma setup_ignores_replies_witness :
  ps2_error (core (hw (mouse_setup true fresh_port))) = 0
  /\ idle (core (hw (mouse_setup true fresh_port)))
  /\ attached (hw (mouse_setup true fresh_port)) = true.
Proof.
  apply (setup_ignores_replies true fresh_port).
  - exact idle_boot.
  - reflexivity.
  - exact clean_fresh.
  - vm_compute. reflexivity.
Defined.

(** *** A device that is silent *)

Lemma skipn_S_tl {A} n (l : list A) : skipn (S n) l = skipn n (List.tl l).
Proof. destruct l; [now destruct n | reflexivity]. Qed.

Lemma silent_tl bus : silent bus -> silent (List.tl bus).
Proof. intros H. destruct bus; [exact H|]. now inversion H. Qed.

Lemma silent_skipn k : forall bus, silent bus -> silent (skipn k bus).
Proof.
  induction k as [|k IH]; intros bus H; [exact H|].
  rewrite skipn_S_tl. apply IH. now apply silent_tl.
Qed.

Lemma silent_hd bus : silent bus -> List.hd [] bus = [].
Proof. intros H. destruct bus; [reflexivity|]. now inversion H. Qed.

Lemma took_refl p : took 0 0 false p p.
Proof. unfold took. cbn [skipn Nat.mul]. tauto. Qed.

Lemma took_trans k1 k2 n1 n2 w1 w2 p p1 p2 :
  took k1 n1 w1 p p1 -> took k2 n2 w2 p1 p2 ->
  took (k1 + k2) (n1 + n2) (w1 || w2) p p2.
Proof.
  intros (C1 & A1 & T1 & O1) (C2 & A2 & T2 & O2). unfold took.
  split; [congruence|]. split; [rewrite A2, A1; now destruct w1, w2|].
  split.
  - rewrite T2, T1, skipn_skipn. f_equal. lia.
  - rewrite O2, O1, skipn_skipn. f_equal. lia.
Qed.

Lemma waiting_took m k n wr p p' :
  waiting (n + m) p -> took k n wr p p' -> waiting m p'.
Proof.
  intros (He & Hs & Ha) (C & _ & T & O). unfold waiting, answered in *.
  rewrite C, T, O. split; [exact He|]. split; [now apply silent_skipn|].
  replace (21 * (n + m))%nat with (21 * n + 21 * m)%nat in Ha by lia.
  now apply firstn_true_app in Ha.
Qed.

Lemma took_tick p : silent (traffic p) -> took 1 0 false p (port_tick p).
Proof.
  intros Hs. unfold took, port_tick. cbn [hw traffic outcomes skipn Nat.mul].
  rewrite (silent_hd _ Hs). change (run_isr [] (core (hw p))) with (core (hw p)).
  split; [now destruct (attached (hw p))|].
  split; [destruct (attached (hw p)) eqn:A; cbn [set_core attached];
          first [exact A | reflexivity]|].
  split; [now destruct (traffic p) | reflexivity].
Qed.

Lemma took_delay k : forall p, silent (traffic p) -> took k 0 false p (port_delay k p).
Proof.
  induction k as [|k IH]; intros p Hs; [apply took_refl|].
  cbn [port_delay].
  pose proof (took_tick p Hs) as H1.
  assert (Hs1 : silent (traffic (port_tick p))).
  { destruct H1 as (_ & _ & -> & _). now apply (silent_skipn 1). }
  exact (took_trans 1 k 0 0 false false _ _ _ H1 (IH _ Hs1)).
Qed.

Lemma took_wait_ready k : forall p,
  waiting 0 p -> took k 0 false p (port_wait_ready k p).
Proof.
  induction k as [|k IH]; intros p Hw; [apply took_refl|].
  cbn [port_wait_ready]. destruct Hw as (He & Hs & Ha). rewrite He.
  pose proof (took_tick p Hs) as H1.
  pose proof (waiting_took 0 1 0 false p _ (conj He (conj Hs Ha)) H1) as Hw1.
  exact (took_trans 1 k 0 0 false false _ _ _ H1 (IH _ Hw1)).
Qed.

Lemma took_read p : waiting 0 p -> took 200 0 false p (snd (port_read p)).
Proof.
  intros Hw. unfold port_read.
  pose proof (took_wait_ready 200 p Hw) as H.
  pose proof (waiting_took 0 200 0 false p _ Hw H) as (He & _).
  rewrite He. exact H.
Qed.

Lemma took_write d m p :
  waiting (S m) p -> took 0 1 true p (port_write d p).
Proof.
  intros (He & Hs & Ha). destruct (answered_S m p Ha) as [G1 _].
  pose proof (mouse_write_run d (hw p) (outcomes p) G1) as H. cbv zeta in H.
  unfold port_write, took.
  destruct (mouse_write d (hw p) (outcomes p)) as [w1 ws1]. cbn [fst snd] in H.
  destruct H as (C & A & O & _). cbn [hw outcomes traffic skipn]. tauto.
Qed.

Lemma waiting_weaken m p : waiting (S m) p -> waiting 0 p.
Proof. intros (He & Hs & _). split; [exact He|]. split; [exact Hs | reflexivity]. Qed.

Lemma took_write_read d m p :
  waiting (S m) p -> took 200 1 true p (snd (port_read (port_write d p))).
Proof.
  intros Hw. pose proof (took_write d m p Hw) as H1.
  pose proof (waiting_took m 0 1 true p _ Hw H1) as Hw1.
  assert (Hw0 : waiting 0 (port_write d p)).
  { destruct Hw1 as (He & Hs & _). split; [exact He|]. split; [exact Hs | reflexivity]. }
  exact (took_trans 0 200 1 0 true false _ _ _ H1 (took_read _ Hw0)).
Qed.

Lemma took_pins (m : tx unit) p :
  waits_exactly 0 m -> took 0 0 false p (port_pins m p).
Proof.
  intros Hm. destruct (Hm (hw p) (outcomes p)) as (C & A & _ & Y & _).
  destruct (Y eq_refl) as [_ O].
  unfold port_pins, took. destruct (m (hw p) (outcomes p)) as [[o w1] ws1].
  cbn [fst snd hw outcomes traffic skipn Nat.mul] in *. tauto.
Qed.

Lemma took_write_all (l : list Z) : forall m p,
  waiting (length l + m) p ->
  took 0 (length l) (match l with [] => false | _ => true end) p
       (fold_left (fun p d => port_write d p) l p).
Proof.
  induction l as [|d l IH]; intros m p Hw; [apply took_refl|].
  cbn [fold_left length]. cbn [length Nat.add] in Hw.
  pose proof (took_write d _ p Hw) as H1.
  pose proof (waiting_took (length l + m) 0 1 true p _ Hw H1) as Hw1.
  exact (took_trans 0 0 1 (length l) true _ _ _ _ H1 (IH m _ Hw1)).
Qed.

Lemma took_mouse_setup (sm : bool) (p : port) :
  waiting 19 p -> took 1450 19 true p (mouse_setup sm p).
Proof.
  intros Hw. unfold mouse_setup, mouse_init, ps2pp_write_magic_ping.
  pose proof (took_pins bus_idle p waits_bus_idle) as H1.
  set (p1 := port_pins bus_idle p) in *.
  pose proof (waiting_took 19 0 0 false p p1 Hw H1) as W1.
  assert (H2 : took 250 0 false p (port_delay 250 p1))
    by exact (took_trans 0 250 0 0 false false _ _ _ H1
                (took_delay 250 p1 (proj1 (proj2 W1)))).
  set (p2 := port_delay 250 p1) in *.
  pose proof (waiting_took 19 250 0 false p p2 Hw H2) as W2.
  assert (H4 : took 450 1 true p (snd (port_read (port_write PS2_RESET p2))))
    by exact (took_trans 250 200 0 1 false true _ _ _ H2
                (took_write_read PS2_RESET 18 p2 W2)).
  set (p4 := snd (port_read (port_write PS2_RESET p2))) in *.
  pose proof (waiting_took 18 450 1 true p p4 Hw H4) as W4.
  assert (H5 : took 850 1 true p (port_delay 400 p4))
    by exact (took_trans 450 400 1 0 true false _ _ _ H4
                (took_delay 400 p4 (proj1 (proj2 W4)))).
  set (p5 := port_delay 400 p4) in *.
  pose proof (waiting_took 18 850 1 true p p5 Hw H5) as W5.
  assert (H6 : took 1050 1 true p (snd (port_read p5)))
    by exact (took_trans 850 200 1 0 true false _ _ _ H5
                (took_read p5 (waiting_weaken _ _ W5))).
  set (p6 := snd (port_read p5)) in *.
  pose proof (waiting_took 18 1050 1 true p p6 Hw H6) as W6.
  assert (H7 : took 1250 1 true p (snd (port_read p6)))
    by exact (took_trans 1050 200 1 0 true false _ _ _ H6
                (took_read p6 (waiting_weaken _ _ W6))).
  set (p7 := snd (port_read p6)) in *.
  pose proof (waiting_took 18 1250 1 true p p7 Hw H7) as W7.
  destruct sm; cbn [negb].
  - assert (H8 : took 1250 18 true p (fold_left (fun p d => port_write d p) magic p7))
      by exact (took_trans 1250 0 1 17 true true _ _ _ H7 (took_write_all magic 1 p7 W7)).
    pose proof (waiting_took 1 1250 18 true p _ Hw H8) as W8.
    unfold mouse_enable_report.
    assert (H9 : took 1450 19 true p
                   (snd (port_read (port_write PS2_REPORT_ENA
                      (fold_left (fun p d => port_write d p) magic p7)))))
      by exact (took_trans 1250 200 18 1 true true _ _ _ H8
                  (took_write_read PS2_REPORT_ENA 0 _ W8)).
    exact (took_trans 1450 0 19 0 true false _ _ _ H9
             (took_pins (pin (DelayUs 100)) _ (waits_pin _))).
  - assert (H8 : took 1450 2 true p (snd (port_read (port_write PS2_SET_REMOTE p7))))
      by exact (took_trans 1250 200 1 1 true true _ _ _ H7
                  (took_write_read PS2_SET_REMOTE 17 p7 W7)).
    assert (H9 : took 1450 2 true p
                   (port_pins (pin (DelayUs 100))
                      (snd (port_read (port_write PS2_SET_REMOTE p7)))))
      by exact (took_trans 1450 0 2 0 true false _ _ _ H8
                  (took_pins (pin (DelayUs 100)) _ (waits_pin _))).
    pose proof (waiting_took 17 1450 2 true p _ Hw H9) as W9.
    exact (took_trans 1450 0 2 17 true true _ _ _ H9 (took_write_all magic 0 _ W9)).
Qed.

(** X20: the error recovery of loop against a device that stays silent
    but lets itself be written to.  With an error flagged, the recovery
    clears ps2_error and empties the mailbox and changes nothing else in
    the globals (the bit counter of the receiver is not reset), it ends
    with the interrupt attached, and it takes 1450 one-millisecond waits
    and the 19 writes of the setup: none of the missing replies is
    noticed. *)
Theorem recovery_of_silent_device (sm : bool) (p : port) :
  ps2_error (core (hw p)) <> 0 -> silent (traffic p) -> answered 19 p ->
  let p' := loop_recover sm p in
  core (hw p')
    = set_mbuf (Mousebuffer.reset (mbuf (core (hw p)))) (set_ps2_error 0 (core (hw p)))
  /\ attached (hw p') = true
  /\ traffic p' = skipn 1450 (traffic p)
  /\ outcomes p' = skipn (21 * 19) (outcomes p).
Proof.
  intros He Hs Ha p'. subst p'. unfold loop_recover.
  assert (Ht : truthy (ps2_error (core (hw p))) = true).
  { unfold truthy. destruct (Z.eqb_spec (ps2_error (core (hw p))) 0); [contradiction|reflexivity]. }
  rewrite Ht.
  match goal with |- context [mouse_setup sm ?q] => set (p0 := q) end.
  assert (Hw : waiting 19 p0).
  { unfold waiting, p0, port_pins, bus_stop, tx_bind, pin.
    cbn [hw core attached pinlog outcomes traffic set_core set_attached set_mbuf mbuf].
    split; [reflexivity|]. split; [exact Hs | exact Ha]. }
  destruct (took_mouse_setup sm p0 Hw) as (C & A & T & O).
  rewrite C, A, T, O. unfold p0, port_pins, bus_stop, tx_bind, pin.
  cbn [hw core attached pinlog outcomes traffic set_core set_attached]. tauto.
Qed.

Lemma recovery_of_silent_device_witness :
  let p := mkPort (mkWire (set_ps2_error 0x10 boot) false []) (repeat true 399) [] in
  attached (hw (loop_recover true p)) = true
  /\ ps2_error (core (hw (loop_recover true p))) = 0.
Proof.
  intros p.
  destruct (recovery_of_silent_device true p) as (C & A & _).
  - vm_compute. discriminate.
  - constructor.
  - vm_compute. reflexivity.
  - split; [exact A|]. rewrite C. reflexivity.
Defined.

End Setup.

Section WholeLoop.

(** *** The report handling does not look at the port's globals *)

Ltac host_split H :=
  unfold host in H; injection H as ? ? ? ? ? ?.

Lemma host_fields s s' :
  host s = host s' ->
  lefthanded s = lefthanded s' /\ xtrabutton s = xtrabutton s'
  /\ buttons s = buttons s' /\ scroll_sum s = scroll_sum s'
  /\ internal_scrolling s = internal_scrolling s' /\ jiggletimer s = jiggletimer s'.
Proof. intros H. host_split H. tauto. Qed.

Lemma host_set_ps2_error e s : host (set_ps2_error e s) = host s.
Proof. reflexivity. Qed.

Lemma host_set_mbuf m s : host (set_mbuf m s) = host s.
Proof. reflexivity. Qed.

Lemma host_set_isr r s : host (set_isr r s) = host s.
Proof. reflexivity. Qed.

Lemma move_host now x y z s s' :
  host s = host s' ->
  snd (move now x y z s) = snd (move now x y z s')
  /\ host (fst (move now x y z s)) = host (fst (move now x y z s')).
Proof.
  intros H. destruct (host_fields s s' H) as (A & B & C & D & E & F).
  unfold move, host. cbn. rewrite A, B, C, D, E, F. split; reflexivity.
Qed.

Lemma scroll_branch_host now my s s' :
  host s = host s' ->
  snd (scroll_branch now my s) = snd (scroll_branch now my s')
  /\ host (fst (scroll_branch now my s)) = host (fst (scroll_branch now my s')).
Proof.
  intros H. destruct (host_fields s s' H) as (A & B & C & D & E & F).
  unfold scroll_branch. rewrite D.
  destruct (negb (truthy (to_int8 (Z.quot my 8)))).
  - cbn [scroll_sum set_scroll_sum].
    destruct (negb (to_int8 (Z.quot (to_int8 (scroll_sum s' + my)) 8) =? 0)).
    + apply move_host. unfold host. cbn. now rewrite A, B, C, E, F.
    + cbn [fst snd]. split; [reflexivity|]. unfold host. cbn. now rewrite A, B, C, E, F.
  - destruct (negb (to_int8 (Z.quot my 8) =? 0)).
    + apply move_host. unfold host. cbn. now rewrite A, B, C, E, F.
    + cbn [fst snd]. split; [reflexivity | exact H].
Qed.

Lemma move_branch_host now mx my s s' :
  host s = host s' ->
  snd (move_branch now mx my s) = snd (move_branch now mx my s')
  /\ host (fst (move_branch now mx my s)) = host (fst (move_branch now mx my s')).
Proof.
  intros H. unfold move_branch.
  destruct (negb (mx =? 0) || negb (my =? 0)).
  - destruct (move_host now mx (- my) 0 s s' H) as [E1 E2].
    destruct (move now mx (- my) 0 s) as [a ev], (move now mx (- my) 0 s') as [a' ev'].
    cbn [fst snd] in *. split; [exact E1|].
    destruct (host_fields a a' E2) as (A & B & C & D & E & F).
    unfold host. cbn. now rewrite A, B, C, E, F.
  - cbn [fst snd]. split; [reflexivity|].
    destruct (host_fields s s' H) as (A & B & C & D & E & F).
    unfold host. cbn. now rewrite A, B, C, E, F.
Qed.

Lemma button_step_host btn i s s' :
  host s = host s' ->
  snd (button_step btn i s) = snd (button_step btn i s')
  /\ host (fst (button_step btn i s)) = host (fst (button_step btn i s')).
Proof.
  intros H. destruct (host_fields s s' H) as (A & B & C & D & E & F).
  unfold button_step. rewrite E, C.
  destruct (internal_scrolling s' && (i =? 3)%nat).
  - split; [reflexivity | exact H].
  - cbn [fst snd]. split; [reflexivity|]. unfold host. cbn. now rewrite A, B, D, E, F.
Qed.

Lemma handle_buttons_host btn s s' :
  host s = host s' ->
  snd (handle_buttons btn s) = snd (handle_buttons btn s')
  /\ host (fst (handle_buttons btn s)) = host (fst (handle_buttons btn s')).
Proof.
  unfold handle_buttons. generalize (@nil hid_event) as ev.
  generalize [0%nat; 1%nat; 2%nat; 3%nat] as l. intros l. revert s s'.
  induction l as [|i l IH]; intros s s' ev H; [cbn; tauto|].
  cbn [fold_left fst snd].
  destruct (button_step_host btn i s s' H) as [E1 E2].
  destruct (button_step btn i s) as [a e1], (button_step btn i s') as [a' e1'].
  cbn [fst snd] in *. subst e1'. apply IH. exact E2.
Qed.

Lemma report_motion_host now mstat mx my s s' :
  host s = host s' ->
  snd (report_motion now mstat mx my s) = snd (report_motion now mstat mx my s')
  /\ host (fst (report_motion now mstat mx my s))
     = host (fst (report_motion now mstat mx my s')).
Proof.
  intros H. destruct (host_fields s s' H) as (A & B & C & D & E & F).
  unfold report_motion. rewrite A, B, E.
  set (btn := map_buttons (lefthanded s') mstat (xtrabutton s')).
  assert (Hbr : snd (if internal_scrolling s' && truthy (Z.land btn (bimask !!! 3%nat))
                     then scroll_branch now my s else move_branch now mx my s)
                = snd (if internal_scrolling s' && truthy (Z.land btn (bimask !!! 3%nat))
                       then scroll_branch now my s' else move_branch now mx my s')
                /\ host (fst (if internal_scrolling s' && truthy (Z.land btn (bimask !!! 3%nat))
                              then scroll_branch now my s else move_branch now mx my s))
                   = host (fst (if internal_scrolling s' && truthy (Z.land btn (bimask !!! 3%nat))
                                then scroll_branch now my s' else move_branch now mx my s'))).
  { destruct (internal_scrolling s' && _);
      [now apply scroll_branch_host | now apply move_branch_host]. }
  destruct (if internal_scrolling s' && _ then scroll_branch now my s else _) as [a ev].
  destruct (if internal_scrolling s' && _ then scroll_branch now my s' else _) as [a' ev'].
  cbn [fst snd] in Hbr. destruct Hbr as [<- Ha].
  destruct (handle_buttons_host btn a a' Ha) as [E1 E2].
  destruct (handle_buttons btn a) as [b e3], (handle_buttons btn a') as [b' e3'].
  cbn [fst snd] in *. subst e3'. split; [reflexivity | exact E2].
Qed.

Lemma loop_report_host now susp mstat b1 b2 s s' :
  host s = host s' ->
  let r := loop_report now susp mstat b1 b2 s in
  let r' := loop_report now susp mstat b1 b2 s' in
  fst (fst r) = fst (fst r') /\ snd r = snd r'
  /\ host (snd (fst r)) = host (snd (fst r')).
Proof.
  intros H r r'. subst r r'. unfold loop_report. rewrite !ps2pp_decode_spec.
  destruct (tagged mstat (to_uint8 (to_int8 b1))); cbn [orb fst snd].
  - split; [reflexivity|]. split; [reflexivity|].
    destruct (xtra_subtype _ _); [|exact H].
    destruct (host_fields s s' H) as (A & B & C & D & E & F).
    unfold host. cbn. now rewrite A, C, D, E, F.
  - destruct susp; [cbn; tauto|].
    destruct (truthy (Z.land mstat 192)); [cbn [fst snd]; tauto|].
    destruct (report_motion_host now mstat (to_int8 b1) (to_int8 b2) s s' H) as [E1 E2].
    destruct (report_motion now mstat (to_int8 b1) (to_int8 b2) s) as [a ev].
    destruct (report_motion now mstat (to_int8 b1) (to_int8 b2) s') as [a' ev'].
    cbn [fst snd] in *. tauto.
Qed.

Lemma loop_jiggle_host now susp s s' :
  host s = host s' ->
  snd (loop_jiggle now susp s) = snd (loop_jiggle now susp s')
  /\ host (fst (loop_jiggle now susp s)) = host (fst (loop_jiggle now susp s')).
Proof.
  intros H. destruct (host_fields s s' H) as (A & B & C & D & E & F).
  unfold loop_jiggle. rewrite F.
  destruct (MyTimer.action now (jiggletimer s')) as [fire tm].
  destruct (fire && negb susp); cbn [fst snd];
    (split; [reflexivity|]; unfold host; cbn; now rewrite A, B, C, D, E).
Qed.

(** *** The port does not touch the other globals *)

Lemma ps2_ISR_host c d s : host (ps2_ISR c d s) = host s.
Proof.
  unfold ps2_ISR. destruct c; [reflexivity|].
  repeat match goal with
         | |- context [if ?b then _ else _] => destruct b
         end; reflexivity.
Qed.

Lemma run_isr_host fr : forall s, host (run_isr fr s) = host s.
Proof.
  induction fr as [|x fr IH]; intros s; [reflexivity|].
  rewrite run_isr_cons, IH. apply ps2_ISR_host.
Qed.

Lemma port_tick_host p : host (core (hw (port_tick p))) = host (core (hw p)).
Proof.
  unfold port_tick. cbn [hw]. destruct (attached (hw p)); [|reflexivity].
  cbn [set_core core]. apply run_isr_host.
Qed.

Lemma port_delay_host n : forall p, host (core (hw (port_delay n p))) = host (core (hw p)).
Proof.
  induction n as [|n IH]; intros p; [reflexivity|].
  cbn [port_delay]. rewrite IH. apply port_tick_host.
Qed.

Lemma port_wait_ready_host n :
  forall p, host (core (hw (port_wait_ready n p))) = host (core (hw p)).
Proof.
  induction n as [|n IH]; intros p; [reflexivity|].
  cbn [port_wait_ready]. destruct (Mousebuffer.empty _); [|reflexivity].
  rewrite IH. apply port_tick_host.
Qed.

Lemma port_read_host p : host (core (hw (snd (port_read p)))) = host (core (hw p)).
Proof.
  unfold port_read.
  destruct (negb (Mousebuffer.empty (mbuf (core (hw (port_wait_ready 200 p)))))).
  - destruct (Mousebuffer.pull _) as [d m]. cbn [snd hw set_core core].
    rewrite host_set_mbuf. apply port_wait_ready_host.
  - apply port_wait_ready_host.
Qed.

Lemma port_write_host d p : host (core (hw (port_write d p))) = host (core (hw p)).
Proof.
  unfold port_write, mouse_write.
  destruct (waits_body (to_uint8 d) (set_attached false (hw p)) (outcomes p))
    as (C & _).
  destruct (mouse_write_body (to_uint8 d) (set_attached false (hw p)) (outcomes p))
    as [[[u|] w1] ws1]; cbn [fst snd] in C.
  - cbn [hw set_attached core]. now rewrite C.
  - cbv [bus_stop tx_bind pin]. cbn [hw set_core core]. rewrite host_set_ps2_error.
    now rewrite C.
Qed.

Lemma port_pins_host (m : tx unit) n p :
  waits_exactly n m -> host (core (hw (port_pins m p))) = host (core (hw p)).
Proof.
  intros Hm. destruct (Hm (hw p) (outcomes p)) as (C & _).
  unfold port_pins. destruct (m (hw p) (outcomes p)) as [[o w1] ws1].
  cbn [fst snd hw] in *. now rewrite C.
Qed.

Lemma waits_bus_stop : waits_exactly 0 bus_stop.
Proof. apply (waits_bind 0 0); [apply waits_pin|]. intros _. apply waits_pin. Qed.

Lemma write_all_host (l : list Z) :
  forall p, host (core (hw (fold_left (fun p d => port_write d p) l p))) = host (core (hw p)).
Proof.
  induction l as [|d l IH]; intros p; [reflexivity|].
  cbn [fold_left]. rewrite IH. apply port_write_host.
Qed.

Lemma mouse_setup_host sm p : host (core (hw (mouse_setup sm p))) = host (core (hw p)).
Proof.
  unfold mouse_setup, mouse_init, ps2pp_write_magic_ping, mouse_enable_report.
  destruct sm; cbn [negb];
    repeat first [ rewrite write_all_host | rewrite port_read_host
                 | rewrite port_write_host | rewrite port_delay_host
                 | rewrite (port_pins_host _ 0 _ (waits_pin _))
                 | rewrite (port_pins_host _ 0 _ waits_bus_idle) ];
    reflexivity.
Qed.

Lemma loop_recover_host sm p : host (core (hw (loop_recover sm p))) = host (core (hw p)).
Proof.
  unfold loop_recover. destruct (truthy _); [|reflexivity].
  rewrite mouse_setup_host. cbn [hw set_core core].
  rewrite host_set_mbuf, host_set_ps2_error.
  rewrite (port_pins_host bus_stop 0 _ waits_bus_stop). reflexivity.
Qed.

Lemma port_poll_host sm clk k :
  host (globals (port_poll sm clk k)) = host (globals k).
Proof.
  unfold port_poll, globals. destruct sm; cbn [negb].
  - destruct (heartbeat_poll clk (heartbeat k)) as [fire hb].
    destruct fire; cbn [at_port]; [|reflexivity].
    now rewrite !port_read_host, port_write_host.
  - cbn [at_port]. now rewrite port_read_host, port_write_host.
Qed.

Lemma refresh_host i s s' : host s = host s' -> host (refresh i s) = host (refresh i s').
Proof.
  intros H. destruct (host_fields s s' H) as (A & B & C & D & E & F).
  unfold refresh, host. cbn. now rewrite B, C, D, F.
Qed.

Lemma before_report_host sm clk i k :
  host (globals (before_report sm clk i k)) = host (refresh i (globals k)).
Proof.
  unfold before_report. rewrite port_poll_host. unfold globals. cbn [at_port].
  rewrite loop_recover_host. reflexivity.
Qed.

Lemma port_fetch_host p : host (core (hw (snd (port_fetch p)))) = host (core (hw p)).
Proof.
  unfold port_fetch.
  destruct (negb (Mousebuffer.empty (mbuf (core (hw (port_wait_ready 200 p)))))).
  - destruct (Mousebuffer.pull _) as [mstat m].
    set (p2 := set_port_core _ (port_wait_ready 200 p)).
    pose proof (port_read_host p2) as H3.
    destruct (port_read p2) as [b1 p3].
    pose proof (port_read_host p3) as H4.
    destruct (port_read p3) as [b2 p4]. cbn [fst snd] in *.
    rewrite H4, H3. unfold p2, set_port_core. cbn [hw set_core core].
    rewrite host_set_mbuf. apply port_wait_ready_host.
  - apply port_wait_ready_host.
Qed.

(** [loop] above after the switches have been read. *)
Lemma loop_refreshed i s :
  loop i s
  = let s0 := refresh i s in
    let s0 := if truthy (ps2_error s0)
              then set_mbuf (Mousebuffer.reset (mbuf s0)) (set_ps2_error 0 s0) else s0 in
    match report i with
    | Some (mstat, b1, b2) =>
        match loop_report (millis i) (suspended i) mstat b1 b2 s0 with
        | (Return, s1, ev1) => (s1, ev1)
        | (Continue, s1, ev1) =>
            let '(s2, ev2) := loop_jiggle (millis i) (suspended i) s1 in
            (s2, ev1 ++ ev2)
        end
    | None => loop_jiggle (millis i) (suspended i) s0
    end.
Proof. reflexivity. Qed.

(** One call: what [port_loop] sends and leaves in the other globals is
    what [loop] above sends and leaves, given the report fetched. *)
Lemma port_loop_step sm clk i k s :
  host s = host (globals k) ->
  let r := loop (with_report (fetched sm clk i k) i) s in
  snd (port_loop sm clk i k) = snd r
  /\ host (globals (fst (port_loop sm clk i k))) = host (fst r).
Proof.
  intros H r. subst r. rewrite loop_refreshed. unfold port_loop, fetched.
  set (k1 := before_report sm clk i k).
  pose proof (before_report_host sm clk i k) as H1. fold k1 in H1.
  pose proof (port_fetch_host (at_port k1)) as H2.
  destruct (port_fetch (at_port k1)) as [rep p]. cbn [fst snd] in *.
  cbn [with_report report millis suspended].
  set (s0 := if truthy (ps2_error (refresh (with_report rep i) s)) then _ else _).
  assert (H0 : host (core (hw p)) = host s0).
  { rewrite H2. fold (globals k1). rewrite H1.
    transitivity (host (refresh i s)); [apply refresh_host; now symmetry|].
    unfold s0. destruct (truthy _); reflexivity. }
  clearbody s0.
  destruct rep as [[[mstat b1] b2]|].
  - destruct (loop_report_host (millis i) (suspended i) mstat b1 b2 (core (hw p)) s0 H0)
      as (F & E & Hh).
    destruct (loop_report (millis i) (suspended i) mstat b1 b2 (core (hw p)))
      as [[f c1] ev1].
    destruct (loop_report (millis i) (suspended i) mstat b1 b2 s0) as [[f' s1] ev1'].
    cbn [fst snd] in *. subst f' ev1'.
    destruct f.
    + cbn [fst snd globals at_port set_port_core hw set_core core].
      split; [reflexivity | exact Hh].
    + set (p' := if negb sm then port_delay 20 (set_port_core c1 p) else set_port_core c1 p).
      assert (Hp : host (core (hw p')) = host s1).
      { unfold p'. destruct (negb sm); [rewrite port_delay_host|];
          cbn [set_port_core hw set_core core]; exact Hh. }
      destruct (loop_jiggle_host (millis i) (suspended i) (core (hw p')) s1 Hp) as [E2 H3].
      destruct (loop_jiggle (millis i) (suspended i) (core (hw p'))) as [c2 ev2].
      destruct (loop_jiggle (millis i) (suspended i) s1) as [s2 ev2'].
      cbn [fst snd globals at_port set_port_core hw set_core core] in *.
      subst ev2'. split; [reflexivity | exact H3].
  - destruct (loop_jiggle_host (millis i) (suspended i) (core (hw p)) s0 H0) as [E2 H3].
    destruct (loop_jiggle (millis i) (suspended i) (core (hw p))) as [c2 ev2].
    destruct (loop_jiggle (millis i) (suspended i) s0) as [s2 ev2'].
    cbn [fst snd globals at_port set_port_core hw set_core core] in *.
    subst ev2'. split; [reflexivity | exact H3].
Qed.

Lemma port_run_step sm calls :
  forall k s,
  host s = host (globals k) ->
  snd (run_port_loop sm calls k) = snd (run_loop (seen sm calls k) s)
  /\ host (globals (fst (run_port_loop sm calls k)))
     = host (fst (run_loop (seen sm calls k) s)).
Proof.
  induction calls as [|[clk i] rest IH]; intros k s H.
  - cbn. split; [reflexivity | now symmetry].
  - cbn [run_port_loop seen run_loop].
    destruct (port_loop_step sm clk i k s H) as [E1 H1].
    destruct (loop (with_report (fetched sm clk i k) i) s) as [s1 ev1'].
    cbn [fst snd] in *.
    specialize (IH (fst (port_loop sm clk i k)) s1 (eq_sym H1)).
    destruct (port_loop sm clk i k) as [k1 ev1]. cbn [fst snd] in *. subst ev1'.
    destruct IH as [E2 H2].
    destruct (run_port_loop sm rest k1) as [k2 ev2].
    destruct (run_loop (seen sm rest k1) s1) as [s2 ev2'].
    cbn [fst snd] in *. subst ev2'. split; [reflexivity | exact H2].
Qed.

Lemma seen_switches sm calls :
  forall k, map (with_report None) (seen sm calls k) = map (fun c => with_report None (snd c)) calls.
Proof.
  induction calls as [|[clk i] rest IH]; intros k; [reflexivity|].
  cbn [seen map snd]. now rewrite IH.
Qed.

(** X25: [loop] above is the host side of the whole of [loop].  Over
    any run of calls of the whole loop, with the error recovery, the
    heartbeat and the fetching of the report from the mailbox all in
    place, in stream mode or not and whatever the bus does, the events
    sent to the host are the events [loop] above sends when each call
    is given the report that was fetched for it, and so are the globals
    other than ps2_error, the mailbox and the statics of the interrupt
    routine at the end; the switches, the clock and the suspend flag of
    each call are passed on as they are. *)
Theorem whole_loop_sends (sm : bool) (calls : list (Z * Z * inputs)) (k : sketch) :
  snd (run_port_loop sm calls k) = snd (run_loop (seen sm calls k) (globals k))
  /\ host (globals (fst (run_port_loop sm calls k)))
     = host (fst (run_loop (seen sm calls k) (globals k)))
  /\ map (with_report None) (seen sm calls k)
     = map (fun c => with_report None (snd c)) calls.
Proof.
  destruct (port_run_step sm calls k (globals k) eq_refl) as [E H].
  split; [exact E|]. split; [exact H | apply seen_switches].
Qed.

(** *** The log of the port *)

Lemma log_refl p : log_grows p p.
Proof. exists []. now rewrite app_nil_r. Qed.

Lemma log_trans p p1 p2 : log_grows p p1 -> log_grows p1 p2 -> log_grows p p2.
Proof. intros [l E] [l' E']. exists (l ++ l'). now rewrite E', E, app_assoc. Qed.

Lemma log_same p p' : pinlog (hw p') = pinlog (hw p) -> log_grows p p'.
Proof. intros E. exists []. now rewrite app_nil_r. Qed.

Lemma log_tick p : pinlog (hw (port_tick p)) = pinlog (hw p).
Proof. unfold port_tick. cbn [hw]. now destruct (attached (hw p)). Qed.

Lemma log_delay n : forall p, pinlog (hw (port_delay n p)) = pinlog (hw p).
Proof.
  induction n as [|n IH]; intros p; [reflexivity|].
  cbn [port_delay]. rewrite IH. apply log_tick.
Qed.

Lemma log_wait_ready n : forall p, pinlog (hw (port_wait_ready n p)) = pinlog (hw p).
Proof.
  induction n as [|n IH]; intros p; [reflexivity|].
  cbn [port_wait_ready]. destruct (Mousebuffer.empty _); [|reflexivity].
  rewrite IH. apply log_tick.
Qed.

Lemma log_read p : pinlog (hw (snd (port_read p))) = pinlog (hw p).
Proof.
  unfold port_read.
  destruct (negb (Mousebuffer.empty (mbuf (core (hw (port_wait_ready 200 p)))))).
  - destruct (Mousebuffer.pull _) as [d m]. cbn [snd hw set_core pinlog].
    apply log_wait_ready.
  - apply log_wait_ready.
Qed.

Lemma log_write d p : log_grows p (port_write d p).
Proof.
  unfold port_write, mouse_write, log_grows.
  destruct (waits_body (to_uint8 d) (set_attached false (hw p)) (outcomes p))
    as (_ & _ & (l & O) & _).
  destruct (mouse_write_body (to_uint8 d) (set_attached false (hw p)) (outcomes p))
    as [[[u|] w1] ws1]; cbn [fst snd] in O.
  - exists l. cbn [hw set_attached pinlog]. exact O.
  - exists (l ++ [SetClk false; SetData true]).
    cbv [bus_stop tx_bind pin]. cbn [hw set_core pinlog core attached].
    rewrite O. cbn [set_attached pinlog]. now rewrite <- !app_assoc.
Qed.

Lemma log_write_read d p : log_grows p (snd (port_read (port_write d p))).
Proof.
  apply (log_trans p (port_write d p)); [apply log_write|].
  apply log_same, log_read.
Qed.

Lemma log_pins (m : tx unit) n p : waits_exactly n m -> log_grows p (port_pins m p).
Proof.
  intros Hm. destruct (Hm (hw p) (outcomes p)) as (_ & _ & (l & O) & _).
  unfold port_pins, log_grows. destruct (m (hw p) (outcomes p)) as [[o w1] ws1].
  cbn [fst snd hw] in *. now exists l.
Qed.

Lemma log_write_all (l : list Z) :
  forall p, log_grows p (fold_left (fun p d => port_write d p) l p).
Proof.
  induction l as [|d l IH]; intros p; [apply log_refl|].
  cbn [fold_left]. apply (log_trans p (port_write d p)); [apply log_write | apply IH].
Qed.

(** The setup begins by releasing both lines. *)
Lemma log_mouse_setup sm p :
  exists l, pinlog (hw (mouse_setup sm p)) = pinlog (hw p) ++ [SetData true; SetClk true] ++ l.
Proof.
  set (p1 := port_pins bus_idle p).
  assert (H1 : pinlog (hw p1) = pinlog (hw p) ++ [SetData true; SetClk true]).
  { unfold p1, port_pins, bus_idle, tx_bind, pin. cbn [hw pinlog core attached].
    now rewrite <- app_assoc. }
  assert (G : log_grows p1 (mouse_setup sm p)).
  { unfold mouse_setup, mouse_init, ps2pp_write_magic_ping, mouse_enable_report.
    fold p1.
    set (p2 := port_delay 250 p1).
    set (p4 := snd (port_read (port_write PS2_RESET p2))).
    set (p7 := snd (port_read (snd (port_read (port_delay 400 p4))))).
    assert (G7 : log_grows p1 p7).
    { apply (log_trans _ p2); [apply log_same, log_delay|].
      apply (log_trans _ p4); [apply log_write_read|].
      apply log_same. unfold p7. now rewrite !log_read, log_delay. }
    destruct sm; cbn [negb].
    - apply (log_trans _ _ _ G7).
      apply (log_trans _ _ _ (log_write_all magic _)).
      apply (log_trans _ _ _ (log_write_read PS2_REPORT_ENA _)).
      apply (log_pins (pin (DelayUs 100)) 0 _ (waits_pin _)).
    - apply (log_trans _ _ _ G7).
      apply (log_trans _ _ _ (log_write_read PS2_SET_REMOTE _)).
      apply (log_trans _ _ _ (log_pins (pin (DelayUs 100)) 0 _ (waits_pin _))).
      apply log_write_all. }
  destruct G as [l E]. exists l. now rewrite E, H1, <- app_assoc.
Qed.

(** The recovery begins by stopping the bus. *)
Lemma log_recover sm p :
  ps2_error (core (hw p)) <> 0 ->
  exists l, pinlog (hw (loop_recover sm p))
            = pinlog (hw p) ++ [SetClk false; SetData true; SetData true; SetClk true] ++ l.
Proof.
  intros He. unfold loop_recover.
  assert (Ht : truthy (ps2_error (core (hw p))) = true).
  { unfold truthy. destruct (Z.eqb_spec (ps2_error (core (hw p))) 0); [contradiction | reflexivity]. }
  rewrite Ht.
  match goal with |- context [mouse_setup sm ?q] => set (p0 := q) end.
  destruct (log_mouse_setup sm p0) as [l E]. exists l. rewrite E.
  unfold p0, port_pins, bus_stop, tx_bind, pin. cbn [hw set_core set_attached pinlog core attached].
  rewrite <- !app_assoc. reflexivity.
Qed.

Lemma log_poll sm clk k : log_grows (at_port k) (at_port (port_poll sm clk k)).
Proof.
  unfold port_poll. destruct sm; cbn [negb].
  - destruct (heartbeat_poll clk (heartbeat k)) as [fire hb].
    destruct fire; cbn [at_port]; [|apply log_refl].
    apply (log_trans _ _ _ (log_write_read PS2_STATUS _)).
    apply log_same. now rewrite !log_read.
  - cbn [at_port]. apply log_write_read.
Qed.

Lemma log_fetch p : pinlog (hw (snd (port_fetch p))) = pinlog (hw p).
Proof.
  unfold port_fetch.
  destruct (negb (Mousebuffer.empty (mbuf (core (hw (port_wait_ready 200 p)))))).
  - destruct (Mousebuffer.pull _) as [mstat m].
    set (p2 := set_port_core _ (port_wait_ready 200 p)).
    pose proof (log_read p2) as H3. destruct (port_read p2) as [b1 p3].
    pose proof (log_read p3) as H4. destruct (port_read p3) as [b2 p4].
    cbn [fst snd] in *. rewrite H4, H3. unfold p2, set_port_core. cbn [hw set_core pinlog].
    apply log_wait_ready.
  - apply log_wait_ready.
Qed.

(** From the poll on, a call only adds to the log. *)
Lemma log_port_loop sm clk i k :
  log_grows (at_port (before_report sm clk i k)) (at_port (fst (port_loop sm clk i k))).
Proof.
  unfold port_loop. set (k1 := before_report sm clk i k).
  pose proof (log_fetch (at_port k1)) as H.
  destruct (port_fetch (at_port k1)) as [rep p]. cbn [snd] in H.
  apply log_same. rewrite <- H.
  destruct rep as [[[mstat b1] b2]|].
  - destruct (loop_report _ _ _ _ _ _) as [[f c1] ev1]. destruct f.
    + reflexivity.
    + destruct (loop_jiggle _ _ _) as [c2 ev2]. cbn [fst at_port set_port_core hw set_core pinlog].
      destruct (negb sm); [rewrite log_delay|]; reflexivity.
  - destruct (loop_jiggle _ _ _) as [c2 ev2]. reflexivity.
Qed.

(** A call that fetches a plain report with an overflow bit. *)
Lemma overflow_call sm clk i k mstat b1 b2 :
  fetched sm clk i k = Some (mstat, b1, b2) -> byte b1 -> byte b2 ->
  tagged mstat b1 = false -> suspended i = false -> Z.land mstat 0xC0 <> 0 ->
  port_loop sm clk i k
  = (mkSketch
       (set_port_core
          (set_ps2_error mstat
             (core (hw (snd (port_fetch (at_port (before_report sm clk i k)))))))
          (snd (port_fetch (at_port (before_report sm clk i k)))))
       (heartbeat (before_report sm clk i k)), []).
Proof.
  intros Hf H1 H2 Ht Hs Ho.
  unfold port_loop. unfold fetched in Hf.
  destruct (port_fetch (at_port (before_report sm clk i k))) as [rep p].
  cbn [fst snd] in *. subst rep. unfold loop_report.
  rewrite !to_uint8_to_int8 by assumption.
  rewrite ps2pp_decode_spec, Ht, Hs. cbn [orb].
  unfold truthy. destruct (Z.eqb_spec (Z.land mstat 192) 0) as [E|_]; [contradiction|].
  reflexivity.
Qed.

(** A call that starts with an error flagged. *)
Lemma recovery_call sm clk j k :
  ps2_error (globals k) <> 0 ->
  exists l,
    pinlog (hw (at_port (fst (port_loop sm clk j k))))
    = pinlog (hw (at_port k))
      ++ [SetClk false; SetData true; SetData true; SetClk true] ++ l.
Proof.
  intros Hm.
  destruct (log_port_loop sm clk j k) as [l3 E3].
  unfold before_report in E3.
  set (p0 := set_port_core (refresh j (core (hw (at_port k)))) (at_port k)) in *.
  destruct (log_poll sm clk (mkSketch (loop_recover sm p0) (heartbeat k))) as [l2 E2].
  cbn [at_port] in E2.
  destruct (log_recover sm p0) as [l1 E1].
  { unfold p0, set_port_core, refresh. cbn [hw set_core core].
    unfold globals in Hm. now destruct (core (hw (at_port k))). }
  exists (l1 ++ l2 ++ l3). rewrite E3, E2, E1.
  unfold p0, set_port_core. cbn [hw set_core pinlog]. rewrite <- !app_assoc. reflexivity.
Qed.

(** X21: a plain report (no PS2++ tag) fetched while the host is
    awake with an overflow bit (0x40 or 0x80) in its status byte, in the
    whole of [loop].  The call sends nothing to the host and ends with
    the status byte in ps2_error and with the buttons, the scroll
    accumulator and the idle timer as they were (the timer is not
    polled).  The next call of [loop] then starts with the recovery:
    the first things it does to the bus are bus_stop (clock low, data
    released) and the bus_idle that opens mouse_setup. *)
Theorem overflow_forces_reset (sm : bool) (clk clk' : Z * Z) (i j : inputs) (k : sketch)
    (mstat b1 b2 : Z) :
  fetched sm clk i k = Some (mstat, b1, b2) -> byte b1 -> byte b2 ->
  tagged mstat b1 = false -> suspended i = false -> Z.land mstat 0xC0 <> 0 ->
  let r := port_loop sm clk i k in
  let r' := port_loop sm clk' j (fst r) in
  snd r = []
  /\ ps2_error (globals (fst r)) = mstat
  /\ buttons (globals (fst r)) = buttons (globals k)
  /\ scroll_sum (globals (fst r)) = scroll_sum (globals k)
  /\ MyTimer.count (jiggletimer (globals (fst r))) = MyTimer.count (jiggletimer (globals k))
  /\ MyTimer.start_time (jiggletimer (globals (fst r)))
     = MyTimer.start_time (jiggletimer (globals k))
  /\ exists l,
       pinlog (hw (at_port (fst r')))
       = pinlog (hw (at_port (fst r)))
         ++ [SetClk false; SetData true; SetData true; SetClk true] ++ l.
Proof.
  intros Hf H1 H2 Ht Hs Ho.
  assert (Hm : mstat <> 0) by (intros ->; now contradiction Ho).
  cbv zeta. rewrite (overflow_call sm clk i k mstat b1 b2 Hf H1 H2 Ht Hs Ho).
  cbn [fst snd].
  set (k1 := mkSketch _ _).
  assert (Hh : host (globals k1) = host (refresh i (globals k))).
  { unfold k1. cbn [globals at_port set_port_core hw set_core core].
    rewrite host_set_ps2_error, port_fetch_host. apply before_report_host. }
  destruct (host_fields _ _ Hh) as (_ & _ & Hb & Hss & _ & Hj).
  assert (He : ps2_error (globals k1) = mstat) by reflexivity.
  split; [reflexivity|]. split; [exact He|].
  split; [rewrite Hb; now destruct (globals k)|].
  split; [rewrite Hss; now destruct (globals k)|].
  split; [rewrite Hj; now destruct (globals k)|].
  split; [rewrite Hj; now destruct (globals k)|].
  apply recovery_call. rewrite He. exact Hm.
Qed.

Lemma overflow_forces_reset_witness :
  fetched true (0, 0) plain_input overflowing = Some (0x80, 1, 1)
  /\ snd (port_loop true (0, 0) plain_input overflowing) = []
  /\ ps2_error (globals (fst (port_loop true (0, 0) plain_input overflowing))) = 0x80.
Proof.
  assert (Hf : fetched true (0, 0) plain_input overflowing = Some (0x80, 1, 1))
    by (vm_compute; reflexivity).
  assert (Hb : byte 1) by (unfold byte; lia).
  assert (Ho : Z.land 0x80 0xC0 <> 0) by (vm_compute; discriminate).
  split; [exact Hf|].
  destruct (overflow_forces_reset true (0, 0) (0, 0) plain_input plain_input overflowing
              0x80 1 1 Hf Hb Hb eq_refl eq_refl Ho) as (E & P & _).
  split; [exact E | exact P].
Defined.

End WholeLoop.


Module LegacyFacts.
Import Legacy.

Lemma legacy_pull m : mbuf_pull m = Mousebuffer.pull m.
Proof.
  unfold mbuf_pull, Mousebuffer.pull.
  destruct (negb (Mousebuffer.head m =? Mousebuffer.tail m)); [|reflexivity].
  cbv zeta. f_equal. f_equal.
  unfold to_uint8, Mousebuffer.MBUF_SIZE. Z.to_euclidean_division_equations; lia.
Qed.

(** X22: the mailbox of the older revision is the mailbox of the newer
    one: mbuf_push, mbuf_pull and mbuf_empty return what push, pull and
    empty of the class return on every buffer, although the newer pull
    increments the index and reduces it in two steps. *)
Theorem legacy_mailbox_same (d : Z) (m : Mousebuffer.t) :
  mbuf_push d m = Mousebuffer.push d m
  /\ mbuf_pull m = Mousebuffer.pull m
  /\ mbuf_empty m = Mousebuffer.empty m.
Proof.
  split; [reflexivity|]. split; [apply legacy_pull | reflexivity].
Qed.

(** X23: the older mouse_read tells a timeout from a byte.  From a
    receiver between frames with an empty mailbox, a frame that arrives
    after fewer than 50 silent milliseconds is returned with the flag
    set, the zero byte included, and the mailbox is empty again; after
    50 silent milliseconds the call returns 0 with the flag clear and
    the frame is still to come. *)
Theorem legacy_read_flags_timeout (b : Z) (k : nat) (rest : list (list bool)) (s : state) :
  byte b -> idle s -> Mousebuffer.wf (mbuf s) -> Mousebuffer.empty (mbuf s) = true ->
  let bus := repeat [] k ++ frame_of_byte b :: rest in
  ((k < 50)%nat ->
     exists s1, mouse_read bus s = (b, true, s1, rest)
                /\ Mousebuffer.empty (mbuf s1) = true)
  /\ ((50 <= k)%nat ->
     mouse_read bus s = (0, false, s, repeat [] (k - 50) ++ frame_of_byte b :: rest)).
Proof.
  intros Hb Hi Hw He bus.
  destruct (frame_arrives b s Hb Hi Hw He) as (Hf & Hc & Hne).
  split; intros Hk.
  - unfold mouse_read, bus.
    rewrite (wait_ready_arrival (frame_of_byte b) rest s He) by (rewrite ?Hf; assumption).
    rewrite Hf. cbn [mbuf set_mbuf]. unfold mbuf_empty.
    change (Mousebuffer.head ?m =? Mousebuffer.tail ?m) with (Mousebuffer.empty m).
    rewrite Hne. rewrite legacy_pull.
    destruct (MousebufferFacts.contents_pull (Mousebuffer.push b (mbuf s)) b []
                (MousebufferFacts.wf_push b _ Hw) Hc) as (Hp & Hw' & Hr).
    destruct (Mousebuffer.pull _) as [x m]. cbn [fst snd] in *. subst x.
    eexists. split; [reflexivity|]. cbn [mbuf set_mbuf].
    apply MousebufferFacts.empty_count; [exact Hw'|].
    now rewrite <- MousebufferFacts.length_contents, Hr.
  - unfold mouse_read, bus.
    rewrite (wait_ready_silent 50 _ s He).
    + unfold mbuf_empty.
      change (Mousebuffer.head (mbuf s) =? Mousebuffer.tail (mbuf s))
        with (Mousebuffer.empty (mbuf s)).
      rewrite He. now rewrite skipn_silent.
    + rewrite firstn_silent by assumption.
      apply List.Forall_forall. intros x Hx. now apply repeat_spec in Hx.
Qed.

Lemma legacy_read_flags_timeout_witness :
  exists s1, mouse_read (repeat [] 7 ++ [frame_of_byte 0]) boot = (0, true, s1, [])
             /\ Mousebuffer.empty (mbuf s1) = true.
Proof.
  apply (legacy_read_flags_timeout 0 7 [] boot).
  - unfold byte; lia.
  - exact idle_boot.
  - exact MousebufferFacts.wf_init.
  - reflexivity.
  - lia.
Defined.

Lemma loop_jiggle_step jiggler suspended millis c :
  0 <= jigglecount c <= 59 ->
  let r := loop_jiggle jiggler suspended millis c in
  last_move (fst r) = last_move c
  /\ jigglecount c <= jigglecount (fst r) <= 59
  /\ Z.of_nat (length (snd r)) <= 2 * (jigglecount (fst r) - jigglecount c)
  /\ (snd r <> [] ->
      suspended = false /\ jiggler = true
      /\ 30000 < to_int32 (to_uint32 (millis - to_uint32 (last_move c))) < 1800000).
Proof.
  intros Hc r. subst r. unfold loop_jiggle.
  destruct jiggler; cbn [negb].
  2:{ cbn [fst snd length]. split; [reflexivity|]. split; [lia|]. split; [lia|].
      intros H. now contradiction H. }
  set (jiggle := to_int32 (to_uint32 (millis - to_uint32 (last_move c)))).
  assert (E16 : to_int16 (jigglecount c + 1) = jigglecount c + 1).
  { unfold to_int16. Z.to_euclidean_division_equations; lia. }
  assert (E32 : to_int32 (30000 * (jigglecount c + 1)) = 30000 * (jigglecount c + 1)).
  { unfold to_int32. Z.to_euclidean_division_equations; lia. }
  rewrite E16, E32.
  destruct (Z.ltb_spec (30000 * (jigglecount c + 1)) jiggle) as [L1|L1]; cbn [andb].
  2:{ cbn [fst snd length]. split; [reflexivity|]. split; [lia|]. split; [lia|].
      intros H. now contradiction H. }
  destruct (Z.ltb_spec jiggle 1800000) as [L2|L2].
  2:{ cbn [fst snd length]. split; [reflexivity|]. split; [lia|]. split; [lia|].
      intros H. now contradiction H. }
  destruct suspended; cbn [negb fst snd length last_move jigglecount].
  - split; [reflexivity|]. split; [lia|]. split; [lia|].
    intros H. now contradiction H.
  - split; [reflexivity|]. split; [lia|]. split; [lia|].
    intros _. split; [reflexivity|]. split; [reflexivity|]. lia.
Qed.

(** X24: the idle nudges of the older revision.  Starting with a count
    between 0 and 59, as a movement leaves it, calls of loop that find
    no report send at most 59 nudges in all (two movements each, one
    for every step of the count), however the calls are spaced, and
    leave last_move alone; and a single call sends a nudge only with
    the switch on, the host awake, and more than 30 s but less than
    30 minutes gone since the last movement. *)
Theorem legacy_nudges_bounded (polls : list (bool * bool * Z)) (c : idle_clock) :
  0 <= jigglecount c <= 59 ->
  let r := run_jiggle polls c in
  last_move (fst r) = last_move c
  /\ jigglecount c <= jigglecount (fst r) <= 59
  /\ Z.of_nat (length (snd r)) <= 2 * (jigglecount (fst r) - jigglecount c)
  /\ (forall jiggler suspended millis,
        snd (loop_jiggle jiggler suspended millis c) <> [] ->
        suspended = false /\ jiggler = true
        /\ 30000 < to_int32 (to_uint32 (millis - to_uint32 (last_move c))) < 1800000).
Proof.
  intros Hc r. subst r.
  split; [|split; [|split]].
  4:{ intros j su mi. exact (proj2 (proj2 (proj2 (loop_jiggle_step j su mi c Hc)))). }
  all: revert c Hc; induction polls as [|[[j su] mi] polls IH]; intros c Hc;
    cbn [run_jiggle fst snd length]; try lia; try reflexivity.
  all: destruct (loop_jiggle_step j su mi c Hc) as (L & C & N & _);
    destruct (loop_jiggle j su mi c) as [c1 ev1]; cbn [fst snd] in *;
    assert (Hc1 : 0 <= jigglecount c1 <= 59) by lia;
    specialize (IH c1 Hc1);
    destruct (run_jiggle polls c1) as [c2 ev2]; cbn [fst snd] in *.
  - congruence.
  - lia.
  - rewrite length_app. lia.
Qed.

Lemma legacy_nudges_bounded_witness :
  let r := run_jiggle [(true, false, 31000); (true, false, 31001); (true, false, 95000)]
                      (mkIdle 0 0) in
  Z.of_nat (length (snd r)) <= 2 * (jigglecount (fst r) - 0).
Proof.
  intros r.
  destruct (legacy_nudges_bounded
              [(true, false, 31000); (true, false, 31001); (true, false, 95000)]
              (mkIdle 0 0)) as (_ & _ & N & _).
  - cbn [jigglecount]. lia.
  - exact N.
Defined.

End LegacyFacts.
